(** * SVG-ORA-Studio: the vector scene editing engine

  A shallow embedding of the editing engine of the studio
  ([components/SvgPreview.tsx] and the editor panel [EditorTools]):
  the snapshot history, the interactive transform controller, the
  shape factory, the style-string codec, the mutation engine working
  on the parsed document tree, and the scene normalizer. *)

From Stdlib Require Import List String Ascii Bool Arith ZArith QArith Lia.
From Stdlib Require Import Reals Psatz.
From Stdlib Require Import DecimalString DecimalZ DecimalN.
From Stdlib Require Import NArith NArithRing Permutation.
From Stdlib Require HexadecimalString.
Import ListNotations.

Set Warnings "-register-all".

Local Close Scope R_scope.
Local Close Scope Q_scope.
Local Close Scope Z_scope.
Local Open Scope string_scope.
Local Open Scope list_scope.
Local Open Scope nat_scope.

(** String concatenation (the scope of [++] is kept for lists). *)
Notation "a +++ b" := (String.append a b) (right associativity, at level 60).

(* ================================================================== *)
(** * History manager ([SvgPreview]: [handleUpdate], [undo], [redo])  *)
(* ================================================================== *)

Module History.

(** The three pieces of React state the history manager owns.  The
    index only ever receives [newHistory.length - 1] (of a non-empty
    array) or a guarded [h - 1] / [h + 1], so it is a natural number.
    [currentContent] is [None] when an out-of-range array read
    ([history[i]] is [undefined]) has been stored in it. *)
Record state : Type := mkState {
  history : list string;
  historyIndex : nat;
  currentContent : option string
}.

(** [useState('')], [useState<string[]>([])], [useState(0)]. *)
Definition initial : state := mkState [] 0 (Some "").

(** The "Init Data" effect: a freshly loaded (normalized) document. *)
Definition load (normalizedContent : string) : state :=
  mkState [normalizedContent] 0 (Some normalizedContent).

(** [history.slice(0, historyIndex + 1)] followed by [push]. *)
Definition handleUpdate (st : state) (newContent : string) : state :=
  let newHistory := firstn (historyIndex st + 1) (history st) ++ [newContent] in
  mkState newHistory (List.length newHistory - 1) (Some newContent).

(** [if (historyIndex > 0) { setHistoryIndex(h => h - 1);
     setCurrentContent(history[historyIndex - 1]); }] *)
Definition undo (st : state) : state :=
  if 0 <? historyIndex st
  then mkState (history st) (historyIndex st - 1)
               (nth_error (history st) (historyIndex st - 1))
  else st.

(** [if (historyIndex < history.length - 1) { ... + 1 ... }].  For the
    empty log JavaScript compares against [-1]; the truncated
    subtraction compares against [0]; both tests are false. *)
Definition redo (st : state) : state :=
  if historyIndex st <? List.length (history st) - 1
  then mkState (history st) (historyIndex st + 1)
               (nth_error (history st) (historyIndex st + 1))
  else st.

Inductive nav : Type := Undo | Redo.

Definition step (st : state) (n : nav) : state :=
  match n with Undo => undo st | Redo => redo st end.

Definition commits (docs : list string) (st : state) : state :=
  fold_left handleUpdate docs st.

Definition navigate (ops : list nav) (st : state) : state :=
  fold_left step ops st.

(** What happens to the history in a session: an edit commits a
    document ([handleUpdate]), a shortcut or a button steps back or
    forward. *)
Inductive action : Type :=
| Commit (newContent : string)
| Navigate (n : nav).

Definition act (st : state) (a : action) : state :=
  match a with
  | Commit newContent => handleUpdate st newContent
  | Navigate n => step st n
  end.

Definition session (acts : list action) (st : state) : state :=
  fold_left act acts st.

(** A state is consistent when the index addresses the log and the
    current document is the snapshot it addresses. *)
Definition consistent (st : state) : Prop :=
  historyIndex st < List.length (history st) /\
  currentContent st = nth_error (history st) (historyIndex st).

End History.

(* ================================================================== *)
(** * Interactive transform controller ([TransformOverlay])            *)
(* ================================================================== *)

Module Gesture.
Local Open Scope Q_scope.

(** The five transform channels held in the overlay's React state.
    JavaScript numbers are idealised as rationals. *)
Record transform : Type := mkTransform {
  rotate : Q;
  scaleX : Q;
  scaleY : Q;
  skewX : Q;
  skewY : Q
}.

(** [useState({rotate: 0, scaleX: 1, scaleY: 1, skewX: 0, skewY: 0})] *)
Definition identity : transform := mkTransform 0 1 1 0 0.

Record bbox : Type := mkBbox {
  bx : Q; by_ : Q; bwidth : Q; bheight : Q
}.

(** The nine handles of the overlay, named as the string passed to
    [handleDragStart]. *)
Inductive handle : Type :=
| rotate_handle | nw | n | ne | w | e | sw | s | se.

(** [type.includes('n')] and its three siblings, on the eight
    resize handles. *)
Definition includes_n (h : handle) : bool :=
  match h with nw | n | ne => true | _ => false end.
Definition includes_s (h : handle) : bool :=
  match h with sw | s | se => true | _ => false end.
Definition includes_w (h : handle) : bool :=
  match h with nw | w | sw => true | _ => false end.
Definition includes_e (h : handle) : bool :=
  match h with ne | e | se => true | _ => false end.

(** JavaScript's [%] on numbers: [a - b * trunc(a / b)], the remainder
    of the division truncated toward zero. *)
Definition trunc (a : Q) : Z := Z.quot (Qnum a) (Z.pos (Qden a)).
Definition js_rem (a b : Q) : Q := a - b * inject_Z (trunc (a / b)).

(** [x || 100] on a number: zero is falsy. *)
Definition or100 (x : Q) : Q := if Qeq_bool x 0 then 100 else x.

(** [(bbox?.height || 100)] and [(bbox?.width || 100)]. *)
Definition height_or100 (b : option bbox) : Q :=
  match b with Some b => or100 (bheight b) | None => 100 end.
Definition width_or100 (b : option bbox) : Q :=
  match b with Some b => or100 (bwidth b) | None => 100 end.

(** The pointer event seen by [handleMove], after the two
    [Math.atan2(..) * 180 / Math.PI] calls: [currentAngle] is the angle
    from the box centre to the pointer, [startAngleVal] the angle from
    the box centre to the point where the drag started; [dx], [dy] are
    the zoom-corrected pointer displacement; [isSkew] is
    [ctrlKey || metaKey]. *)
Record move : Type := mkMove {
  currentAngle : Q;
  startAngleVal : Q;
  dx : Q;
  dy : Q;
  isSkew : bool
}.

Definition set_rotate (t : transform) (v : Q) : transform :=
  mkTransform v (scaleX t) (scaleY t) (skewX t) (skewY t).
Definition set_scaleX (t : transform) (v : Q) : transform :=
  mkTransform (rotate t) v (scaleY t) (skewX t) (skewY t).
Definition set_scaleY (t : transform) (v : Q) : transform :=
  mkTransform (rotate t) (scaleX t) v (skewX t) (skewY t).
Definition set_skewX (t : transform) (v : Q) : transform :=
  mkTransform (rotate t) (scaleX t) (scaleY t) v (skewY t).
Definition set_skewY (t : transform) (v : Q) : transform :=
  mkTransform (rotate t) (scaleX t) (scaleY t) (skewX t) v.

(** The body of [handleMove] up to [setTransform(newTransform)]: the
    live transform computed from the transform captured at pointer-down
    ([startTransform]).  The four [if (type.includes(..))] statements run
    in sequence on [newTransform], each reading [startTransform]. *)
Definition handleMove (type : handle) (box : option bbox)
    (startTransform : transform) (m : move) : transform :=
  let newTransform := startTransform in
  match type with
  | rotate_handle =>
      let deltaRotation := currentAngle m - startAngleVal m in
      set_rotate newTransform
        (js_rem (rotate startTransform + deltaRotation + 90) 360)
  | _ =>
      let t1 :=
        if includes_n type then
          if isSkew m
          then set_skewX newTransform (skewX startTransform + dx m * (1 # 2))
          else set_scaleY newTransform
                 (scaleY startTransform - (dy m / height_or100 box) * 2)
        else newTransform in
      let t2 :=
        if includes_s type then
          if isSkew m
          then set_skewX t1 (skewX startTransform - dx m * (1 # 2))
          else set_scaleY t1
                 (scaleY startTransform + (dy m / height_or100 box) * 2)
        else t1 in
      let t3 :=
        if includes_w type then
          if isSkew m
          then set_skewY t2 (skewY startTransform + dy m * (1 # 2))
          else set_scaleX t2
                 (scaleX startTransform - (dx m / width_or100 box) * 2)
        else t2 in
      if includes_e type then
        if isSkew m
        then set_skewY t3 (skewY startTransform - dy m * (1 # 2))
        else set_scaleX t3
               (scaleX startTransform + (dx m / width_or100 box) * 2)
      else t3
  end.

(** The rotation the specification describes for the rotate handle:
    start rotation plus the angular difference. *)
Definition spec_rotation (startTransform : transform) (m : move) : Q :=
  rotate startTransform + (currentAngle m - startAngleVal m).

End Gesture.

(* ================================================================== *)
(** * Shape factory: the star of [addShape]                            *)
(* ================================================================== *)

Module Star.
Local Open Scope R_scope.

(** [viewBox[2] || 100]: a zero extent is replaced by 100. *)
Definition or100 (x : R) : R := if Req_dec_T x 0 then 100 else x.

Definition width (vbW : R) : R := or100 vbW.
Definition height (vbH : R) : R := or100 vbH.
Definition centerX (vbW : R) : R := width vbW / 2.
Definition centerY (vbH : R) : R := height vbH / 2.
Definition size (vbW vbH : R) : R := Rmin (width vbW) (height vbH) / 5.





End Star.


(* ================================================================== *)
(** * Strings: the JavaScript string operations the editor uses        *)
(* ================================================================== *)

Module Str.

(** The characters JavaScript's [\s] and [trim] treat as white space,
    within ASCII: tab, line feed, vertical tab, form feed, carriage
    return and space. *)
Definition is_space (c : ascii) : bool :=
  let k := nat_of_ascii c in
  (k =? 9) || (k =? 10) || (k =? 11) || (k =? 12) || (k =? 13) || (k =? 32).

(** [s.trimStart()] *)
Fixpoint trimStart (s : string) : string :=
  match s with
  | String c rest => if is_space c then trimStart rest else s
  | EmptyString => EmptyString
  end.

(** The string does not start with white space. *)
Definition starts_clean (s : string) : bool :=
  match s with
  | String c _ => negb (is_space c)
  | EmptyString => true
  end.

(** [s.trimEnd()] *)
Fixpoint trimEnd (s : string) : string :=
  match s with
  | String c rest =>
      match trimEnd rest with
      | EmptyString => if is_space c then EmptyString else String c EmptyString
      | r => String c r
      end
  | EmptyString => EmptyString
  end.

(** [s.trim()] *)
Definition trim (s : string) : string := trimEnd (trimStart s).

(** [s.startsWith(p)] *)
Definition startsWith (p s : string) : bool := String.prefix p s.

(** [s.slice(n)] for [0 <= n]. *)
Fixpoint drop (n : nat) (s : string) : string :=
  match n, s with
  | S k, String _ rest => drop k rest
  | _, _ => s
  end.

(** [s.includes(sub)] *)
Fixpoint includes (sub s : string) : bool :=
  String.prefix sub s ||
  match s with
  | String _ rest => includes sub rest
  | EmptyString => false
  end.

(** Whether the character [c] occurs in [s]. *)
Fixpoint has_char (c : ascii) (s : string) : bool :=
  match s with
  | String d rest => Ascii.eqb d c || has_char c rest
  | EmptyString => false
  end.

(** [s.split(c)] for a one-character separator: never empty. *)
Fixpoint split_on (sep : ascii) (s : string) : list string :=
  match s with
  | EmptyString => [EmptyString]
  | String c rest =>
      if Ascii.eqb c sep then EmptyString :: split_on sep rest
      else match split_on sep rest with
           | h :: t => String c h :: t
           | [] => [String c EmptyString]
           end
  end.

(** [l.join(sep)] *)
Definition join (sep : string) (l : list string) : string :=
  String.concat sep l.

(** [s.split(/[\s,]+/)] when [comma] is set, [s.split(/\s+/)] when it is
    not: the pieces between maximal runs of separators; a run at either
    end leaves an empty piece there, as in JavaScript. *)
Definition is_sep (comma : bool) (c : ascii) : bool :=
  is_space c || (comma && Ascii.eqb c ",").

Fixpoint split_runs (comma : bool) (in_run : bool) (s : string) : list string :=
  match s with
  | EmptyString => [EmptyString]
  | String c rest =>
      if is_sep comma c then
        if in_run then split_runs comma true rest
        else EmptyString :: split_runs comma true rest
      else match split_runs comma false rest with
           | h :: t => String c h :: t
           | [] => [String c EmptyString]
           end
  end.

Definition split_space_comma (s : string) : list string := split_runs true false s.
Definition split_space (s : string) : list string := split_runs false false s.

(** ASCII lower case ([tagName.toLowerCase()], CSS property names). *)
Definition lower_char (c : ascii) : ascii :=
  let k := nat_of_ascii c in
  if (65 <=? k) && (k <=? 90) then ascii_of_nat (k + 32) else c.

Fixpoint toLowerCase (s : string) : string :=
  match s with
  | String c rest => String (lower_char c) (toLowerCase rest)
  | EmptyString => EmptyString
  end.

(** [s.replace(/\s+/g, ' ')] *)
Fixpoint collapse_spaces (in_run : bool) (s : string) : string :=
  match s with
  | EmptyString => EmptyString
  | String c rest =>
      if is_space c then
        if in_run then collapse_spaces true rest
        else String " " (collapse_spaces true rest)
      else String c (collapse_spaces false rest)
  end.

(** The regular expression [/NAME:[^;]+;?/] tried at the start of [s]:
    the literal [NAME:], then at least one character other than [;]. *)
Definition decl_here (name s : string) : bool :=
  String.prefix (name +++ ":") s &&
  match drop (String.length name + 1) s with
  | String c _ => negb (Ascii.eqb c ";")
  | EmptyString => false
  end.

(** [s.replace(/NAME:[^;]+;?/g, '')]: a scan from the left.  In mode
    [Copy] characters are kept until the expression matches; the match
    is then dropped: the [skip] remaining characters of [NAME:] and the
    first character of the value (mode [Keyword]), the rest of the value
    up to the next [;] (mode [Value], the run is greedy), and that [;]
    when there is one. *)
Inductive scan_mode : Type :=
| Copy
| Keyword (skip : nat)
| Value.

Fixpoint remove_decl_from (name : string) (mode : scan_mode) (s : string) : string :=
  match s with
  | EmptyString => EmptyString
  | String c rest =>
      match mode with
      | Copy =>
          if decl_here name s
          then remove_decl_from name (Keyword (String.length name)) rest
          else String c (remove_decl_from name Copy rest)
      | Keyword (S k) => remove_decl_from name (Keyword k) rest
      | Keyword 0 => remove_decl_from name Value rest
      | Value =>
          if Ascii.eqb c ";" then remove_decl_from name Copy rest
          else remove_decl_from name Value rest
      end
  end.

Definition remove_decl (name s : string) : string :=
  remove_decl_from name Copy s.

(** The part of a string before its first [c], and the part after it
    when there is one. *)
Fixpoint cut_at (c : ascii) (s : string) : string * option string :=
  match s with
  | EmptyString => (EmptyString, None)
  | String d rest =>
      if Ascii.eqb d c then (EmptyString, Some rest)
      else let '(h, t) := cut_at c rest in (String d h, t)
  end.

(** One alternative of the panel's reader
    [(?:^|;)\s*NAME\s*:\s*([^;]+)], tried on the text [seg] between two
    semicolons: white space, [NAME], white space, a colon, and a
    non-empty rest, which is the captured value once trimmed. *)
Definition match_decl (name seg : string) : option string :=
  let s1 := trimStart seg in
  if String.prefix name s1 then
    match trimStart (drop (String.length name) s1) with
    | String c rest =>
        if Ascii.eqb c ":" then
          match rest with
          | EmptyString => None
          | _ => Some (trim rest)
          end
        else None
    | EmptyString => None
    end
  else None.

Fixpoint first_some {A B : Type} (f : A -> option B) (l : list A) : option B :=
  match l with
  | [] => None
  | x :: rest => match f x with Some y => Some y | None => first_some f rest end
  end.

(** [styleAttr.match(new RegExp(`(?:^|;)\\s*${name}\\s*:\\s*([^;]+)`))],
    giving [match[1].trim()] of the leftmost match. *)
Definition style_match (name style : string) : option string :=
  first_some (match_decl name) (split_on ";" style).

End Str.

(* ================================================================== *)
(** * Numbers: parsing and printing                                    *)
(* ================================================================== *)

Module Num.

(** A JavaScript number, idealised: a rational or [NaN].  Rounding of
    binary floating point, exponent notation and the infinities are not
    modelled (a division by zero gives [NaN] here). *)
Inductive number : Type :=
| Fin (q : Q)
| NaN.

Definition of_Z (z : Z) : number := Fin (inject_Z z).

Definition lift2 (f : Q -> Q -> Q) (a b : number) : number :=
  match a, b with
  | Fin x, Fin y => Fin (Qred (f x y))
  | _, _ => NaN
  end.

Definition add : number -> number -> number := lift2 Qplus.
Definition sub : number -> number -> number := lift2 Qminus.
Definition mul : number -> number -> number := lift2 Qmult.
Definition div (a b : number) : number :=
  match a, b with
  | Fin x, Fin y => if Qeq_bool y 0 then NaN else Fin (Qred (x / y))
  | _, _ => NaN
  end.
Definition neg (a : number) : number :=
  match a with Fin x => Fin (- x)%Q | NaN => NaN end.
Definition abs (a : number) : number :=
  match a with Fin x => Fin (Qabs.Qabs x) | NaN => NaN end.

(** [a > b], [a !== b]: comparisons with [NaN] are false, [NaN] differs
    from everything. *)
Definition gt (a b : number) : bool :=
  match a, b with
  | Fin x, Fin y => negb (Qle_bool x y)
  | _, _ => false
  end.
Definition neq (a b : number) : bool :=
  match a, b with
  | Fin x, Fin y => negb (Qeq_bool x y)
  | _, _ => true
  end.

(** [x || d] on numbers: zero and [NaN] are falsy. *)
Definition or_else (a d : number) : number :=
  match a with
  | Fin x => if Qeq_bool x 0 then d else a
  | NaN => d
  end.

Definition digit_of (c : ascii) : option N :=
  let k := nat_of_ascii c in
  if (48 <=? k) && (k <=? 57) then Some (N.of_nat (k - 48)) else None.

Definition hex_digit_of (c : ascii) : option N :=
  let k := nat_of_ascii c in
  if (48 <=? k) && (k <=? 57) then Some (N.of_nat (k - 48))
  else if (97 <=? k) && (k <=? 102) then Some (N.of_nat (k - 87))
  else if (65 <=? k) && (k <=? 70) then Some (N.of_nat (k - 55))
  else None.

(** The longest run of digits at the start of [s]: its value on top of
    [acc], the number of digits on top of [count], and the rest. *)
Fixpoint read_digits (digit : ascii -> option N) (base : N)
    (s : string) (acc : N) (count : nat) : N * nat * string :=
  match s with
  | String c rest =>
      match digit c with
      | Some d => read_digits digit base rest (acc * base + d)%N (S count)
      | None => (acc, count, s)
      end
  | EmptyString => (acc, count, EmptyString)
  end.

Definition pow10 (n : nat) : positive := Nat.iter n (Pos.mul 10) 1%positive.

(** A decimal literal at the start of [s] (sign, digits, fraction), and
    what follows it. *)
Definition read_decimal (s : string) : number * string :=
  let '(negative, s2) :=
    match s with
    | String "-" r => (true, r)
    | String "+" r => (false, r)
    | _ => (false, s)
    end in
  let '(ip, ni, s3) := read_digits digit_of 10 s2 0%N 0 in
  let '(fp, nf, s4) :=
    match s3 with
    | String "." r => read_digits digit_of 10 r 0%N 0
    | _ => (0%N, 0, s3)
    end in
  if ni + nf =? 0 then (NaN, s)
  else
    let q := Qmake (Z.of_N (ip * Npos (pow10 nf) + fp)) (pow10 nf) in
    (Fin (Qred (if negative then - q else q)%Q), s4).

(** [parseFloat(s)]: leading white space is skipped and what follows
    the literal is ignored. *)
Definition parseFloat (s : string) : number :=
  fst (read_decimal (Str.trimStart s)).

(** [Number(s)]: the whole trimmed string must be the literal; the
    empty string is zero. *)
Definition Number (s : string) : number :=
  match Str.trim s with
  | EmptyString => Fin 0
  | t => match read_decimal t with
         | (v, EmptyString) => v
         | _ => NaN
         end
  end.

(** [parseInt(s, 16)] on a string without sign or prefix. *)
Definition parseInt16 (s : string) : number :=
  let '(v, n, _) := read_digits hex_digit_of 16 (Str.trimStart s) 0%N 0 in
  if n =? 0 then NaN else of_Z (Z.of_N v).

Definition string_of_N (n : N) : string :=
  NilZero.string_of_uint (N.to_uint n).

(** The digits after the decimal point of [num / den] (with
    [num < den]), by long division, at most [fuel] of them. *)
Fixpoint fraction_digits (fuel : nat) (num den : N) : string :=
  match fuel with
  | O => EmptyString
  | S f =>
      if (num =? 0)%N then EmptyString
      else
        string_of_N (10 * num / den) +++
        fraction_digits f (10 * num mod den)%N den
  end.

(** The decimal form of a non-negative rational [num / den]. *)
Definition unsigned_string (num den : N) : string :=
  let ip := (num / den)%N in
  let r := (num mod den)%N in
  if (r =? 0)%N then string_of_N ip
  else string_of_N ip +++ "." +++ fraction_digits 20 r den.

(** [String(x)], [`${x}`], [x.toString()]: the decimal expansion of
    the rational, cut after twenty decimals.  It is the text the
    browser prints where the expansion ends within what a double holds
    (whole numbers and their halves, below 2^53). *)
Definition toString (a : number) : string :=
  match a with
  | NaN => "NaN"
  | Fin q =>
      let den := Npos (Qden q) in
      match Qnum q with
      | Z0 => "0"
      | Zpos p => unsigned_string (Npos p) den
      | Zneg p => "-" +++ unsigned_string (Npos p) den
      end
  end.

Fixpoint zeros (n : nat) : string :=
  match n with O => EmptyString | S k => String "0" (zeros k) end.

(** [x.toFixed(digits)]: the nearest number with [digits] decimals,
    ties going up in absolute value; a negative [x] keeps its sign.
    The rounding is that of the rational, which is the browser's where
    the double is the number itself. *)
Definition toFixed (digits : nat) (a : number) : string :=
  match a with
  | NaN => "NaN"
  | Fin q =>
      let scale := Npos (pow10 digits) in
      let den := Npos (Qden q) in
      let num := Z.to_N (Z.abs (Qnum q)) in
      let n := ((2 * num * scale + den) / (2 * den))%N in
      let ip := string_of_N (n / scale) in
      let fp := string_of_N (n mod scale) in
      let body :=
        match digits with
        | O => ip
        | _ => ip +++ "." +++ zeros (digits - String.length fp) +++ fp
        end in
      if (Qnum q <? 0)%Z then "-" +++ body else body
  end.

End Num.

(* ================================================================== *)
(** * Inline style: the CSSOM calls made on [el.style]                 *)
(* ================================================================== *)

Module Css.

(** A declaration block as the browser keeps it for a [style]
    attribute: property names in lower case, one value per property.
    Every piece [name: value] of the attribute with a non-empty name
    counts as a declaration; the validity and the canonical form of
    values are not modelled (values are kept as written, trimmed). *)
Definition declaration : Type := string * string.

Definition parse_declaration (seg : string) : option declaration :=
  match Str.cut_at ":" seg with
  | (n, Some v) =>
      let name := Str.toLowerCase (Str.trim n) in
      if String.eqb name "" then None else Some (name, Str.trim v)
  | (_, None) => None
  end.

Definition named (p : string) (d : declaration) : bool := String.eqb (fst d) p.

Definition remove_named (p : string) (ds : list declaration) : list declaration :=
  filter (fun d => negb (named p d)) ds.

(** A later declaration of a property replaces the earlier one. *)
Definition add_declaration (ds : list declaration) (seg : string) : list declaration :=
  match parse_declaration seg with
  | Some d => remove_named (fst d) ds ++ [d]
  | None => ds
  end.

Definition parse (style : string) : list declaration :=
  fold_left add_declaration (Str.split_on ";" style) [].

Definition serialize (ds : list declaration) : string :=
  Str.join " " (map (fun d => fst d +++ ": " +++ snd d +++ ";") ds).

Definition has (p : string) (ds : list declaration) : bool := existsb (named p) ds.

(** [style.removeProperty(p)] seen on the attribute text: the attribute
    is rewritten only when a declaration was removed. *)
Definition removeProperty (p style : string) : string :=
  let ds := parse style in
  if has p ds then serialize (remove_named p ds) else style.

(** [style.setProperty(p, v)] seen on the attribute text; an empty
    value removes the property.  The value is kept as it is written:
    that the browser drops a value the property does not admit, and
    prints the others in its own form, is not modelled. *)
Definition setProperty (p v style : string) : string :=
  if String.eqb v "" then removeProperty p style
  else
    let ds := parse style in
    serialize
      (if has p ds
       then map (fun d => if named p d then (p, v) else d) ds
       else ds ++ [(p, v)]).


(** A property name as the editor writes them: trimmed, in lower case,
    not empty, without colon. *)
Definition plain (p : string) : Prop :=
  p <> EmptyString /\
  Str.trim p = p /\
  Str.toLowerCase p = p /\
  Str.has_char ":" p = false.


(** Every character of the string is white space. *)
Fixpoint blank (s : string) : bool :=
  match s with
  | String c rest => Str.is_space c && blank rest
  | EmptyString => true
  end.

End Css.

(* ================================================================== *)
(** * The document tree                                                *)
(* ================================================================== *)

Module Dom.

Definition attributes : Type := list (string * string).

(** A node of the parsed document: an element with its tag name, its
    attributes in document order and its children, or a text node.
    The namespace of an element is not part of the tree.  What depends
    on it in the browser (the [style] object, which only elements of
    the SVG, XHTML and MathML namespaces have, and the [xmlns] a
    serializer writes on an element whose namespace is not its
    parent's) is as the code has it on documents all of whose elements
    are in the SVG namespace ([Namespace.in_svg_namespace] below). *)
Inductive node : Type :=
| Elem (tag : string) (attrs : attributes) (children : list node)
| Text (data : string).

(** Induction over a tree, with the hypothesis available for every
    child of an element. *)
Fixpoint node_rect' (P : node -> Type) (Q : list node -> Type)
    (HE : forall t a k, Q k -> P (Elem t a k))
    (HT : forall s, P (Text s))
    (HN : Q [])
    (HC : forall n l, P n -> Q l -> Q (n :: l))
    (n : node) : P n :=
  match n with
  | Elem t a k =>
      HE t a k
        ((fix go (l : list node) : Q l :=
            match l with
            | [] => HN
            | c :: rest => HC c rest (node_rect' P Q HE HT HN HC c) (go rest)
            end) k)
  | Text s => HT s
  end.

(** The same induction, concluded for a forest. *)
Fixpoint forest_rect' (P : node -> Type) (Q : list node -> Type)
    (HE : forall t a k, Q k -> P (Elem t a k))
    (HT : forall s, P (Text s))
    (HN : Q [])
    (HC : forall n l, P n -> Q l -> Q (n :: l))
    (l : list node) : Q l :=
  match l with
  | [] => HN
  | c :: rest =>
      HC c rest (node_rect' P Q HE HT HN HC c)
         (forest_rect' P Q HE HT HN HC rest)
  end.

Definition tagName (n : node) : string :=
  match n with Elem t _ _ => t | Text _ => EmptyString end.
Definition attrs_of (n : node) : attributes :=
  match n with Elem _ a _ => a | Text _ => [] end.
Definition children_of (n : node) : list node :=
  match n with Elem _ _ k => k | Text _ => [] end.
Definition is_element (n : node) : bool :=
  match n with Elem _ _ _ => true | Text _ => false end.

(** [el.getAttribute(name)]; [None] is [null]. *)
Fixpoint getAttribute (name : string) (a : attributes) : option string :=
  match a with
  | [] => None
  | (n, v) :: rest => if String.eqb n name then Some v else getAttribute name rest
  end.

(** [el.setAttribute(name, v)]: an attribute keeps its place, a new one
    goes last. *)
Fixpoint setAttribute (name v : string) (a : attributes) : attributes :=
  match a with
  | [] => [(name, v)]
  | (n, x) :: rest =>
      if String.eqb n name then (n, v) :: rest
      else (n, x) :: setAttribute name v rest
  end.

(** [el.removeAttribute(name)] *)
Definition removeAttribute (name : string) (a : attributes) : attributes :=
  filter (fun p => negb (String.eqb (fst p) name)) a.

(** [el.getAttribute(name) || d]: [null] and the empty string are
    falsy. *)
Definition attr_or (name d : string) (a : attributes) : string :=
  match getAttribute name a with
  | Some EmptyString => d
  | Some v => v
  | None => d
  end.

(** [!el.getAttribute(name)] *)
Definition attr_missing (name : string) (a : attributes) : bool :=
  match getAttribute name a with
  | Some EmptyString => true
  | Some _ => false
  | None => true
  end.

(** [el.id] *)
Definition id_of (n : node) : string :=
  match n with
  | Elem _ a _ => match getAttribute "id" a with Some v => v | None => EmptyString end
  | Text _ => EmptyString
  end.

Definition set_attrs (f : attributes -> attributes) (n : node) : node :=
  match n with
  | Elem t a k => Elem t (f a) k
  | Text s => Text s
  end.

Definition set_children (k : list node) (n : node) : node :=
  match n with
  | Elem t a _ => Elem t a k
  | Text s => Text s
  end.

(** The element [id] names: an element whose [id] attribute is [id]. *)
Definition has_id (id : string) (n : node) : bool :=
  match n with
  | Elem _ a _ =>
      match getAttribute "id" a with
      | Some v => String.eqb v id
      | None => false
      end
  | Text _ => false
  end.

Definition has_tag (t : string) (n : node) : bool :=
  match n with
  | Elem t' _ _ => String.eqb t' t
  | Text _ => false
  end.

(** The first node of a forest, in document (pre-)order, that satisfies
    [p]: what [querySelector] and [getElementById] return. *)
Fixpoint find_in (p : node -> bool) (n : node) : option node :=
  if p n then Some n
  else match n with
       | Elem _ _ k =>
           (fix go (l : list node) : option node :=
              match l with
              | [] => None
              | c :: rest =>
                  match find_in p c with
                  | Some x => Some x
                  | None => go rest
                  end
              end) k
       | Text _ => None
       end.

Fixpoint find_first (p : node -> bool) (l : list node) : option node :=
  match l with
  | [] => None
  | c :: rest =>
      match find_in p c with
      | Some x => Some x
      | None => find_first p rest
      end
  end.

(** An edit at the first node of a forest that satisfies [p]: [k]
    receives the siblings before the node, the node, and the siblings
    after it, and returns the sibling list that replaces them.  [None]
    when no node satisfies [p]. *)
Fixpoint edit_in (p : node -> bool)
    (k : list node -> node -> list node -> list node)
    (n : node) : option node :=
  match n with
  | Elem t a kids =>
      option_map (Elem t a)
        ((fix go (before l : list node) : option (list node) :=
            match l with
            | [] => None
            | c :: rest =>
                if p c then Some (k before c rest)
                else match edit_in p k c with
                     | Some c' => Some (before ++ c' :: rest)
                     | None => go (before ++ [c]) rest
                     end
            end) [] kids)
  | Text _ => None
  end.

Fixpoint edit_from (p : node -> bool)
    (k : list node -> node -> list node -> list node)
    (before l : list node) : option (list node) :=
  match l with
  | [] => None
  | c :: rest =>
      if p c then Some (k before c rest)
      else match edit_in p k c with
           | Some c' => Some (before ++ c' :: rest)
           | None => edit_from p k (before ++ [c]) rest
           end
  end.

Definition edit_first (p : node -> bool)
    (k : list node -> node -> list node -> list node)
    (l : list node) : option (list node) :=
  edit_from p k [] l.

(** Replace the first node that satisfies [p] by [f] of it. *)
Definition update_first (p : node -> bool) (f : node -> node)
    (l : list node) : option (list node) :=
  edit_first p (fun before c after => before ++ f c :: after) l.

(** All elements of a tree in document order, the root first:
    [querySelectorAll('*')] together with the root. *)
Fixpoint elements (n : node) : list node :=
  match n with
  | Elem _ _ k => n :: flat_map elements k
  | Text _ => []
  end.

(** [f] applied to every node of a tree, children first. *)
Fixpoint map_nodes (f : node -> node) (n : node) : node :=
  match n with
  | Elem t a k => f (Elem t a (map (map_nodes f) k))
  | Text s => f (Text s)
  end.

(** [el.textContent]: the text of all descendants, in order. *)
Fixpoint textContent (n : node) : string :=
  match n with
  | Elem _ _ k => String.concat EmptyString (map textContent k)
  | Text s => s
  end.

(** [el.textContent = s]: the children are replaced by one text node,
    by none when [s] is empty. *)
Definition set_textContent (s : string) (n : node) : node :=
  match s with
  | EmptyString => set_children [] n
  | _ => set_children [Text s] n
  end.

(** [el.nextElementSibling] and [el.previousElementSibling] splits:
    the text nodes passed over, the element sibling, the rest. *)
Fixpoint split_at_element (l : list node) : option (list node * node * list node) :=
  match l with
  | [] => None
  | c :: rest =>
      if is_element c then Some ([], c, rest)
      else match split_at_element rest with
           | Some (skipped, e, r) => Some (c :: skipped, e, r)
           | None => None
           end
  end.

(** The elements of a tree in document order, each as a selector sees
    it: its tag and its attributes. *)
Definition outline (n : node) : list (string * attributes) :=
  map (fun x => (tagName x, attrs_of x)) (elements n).

Definition outline_of (l : list node) : list (string * attributes) :=
  flat_map outline l.

(** A tree without its attributes: the tags, the nesting and the text. *)
Definition skeleton (n : node) : node := map_nodes (set_attrs (fun _ => [])) n.


(** The edit that rewrites the attributes of the node it is given. *)
Definition in_place (F : attributes -> attributes)
    : list node -> node -> list node -> list node :=
  fun pre el post => pre ++ set_attrs F el :: post.




End Dom.

(* ================================================================== *)
(** * The transform and filter strings written into [style]            *)
(* ================================================================== *)

Module Style.
Import Str.

Definition newline : string := String (ascii_of_nat 10) EmptyString.
Definition indent : string := "                ".

(** The tail both writers append after the transform functions. *)
Definition transform_tail : string :=
  "; transform-box: fill-box; transform-origin: center;".

(** [TransformOverlay.handleMove]: the template literal with its line
    breaks, then [.replace(/\s+/g, ' ').trim()].  The rotation is
    printed as it is, the scales with three decimals, the skews with
    one. *)
Definition transformStr (t : Gesture.transform) : string :=
  trim (collapse_spaces false
    (newline +++ indent +++
     "rotate(" +++ Num.toString (Num.Fin (Gesture.rotate t)) +++ "deg) " +++
     newline +++ indent +++
     "scale(" +++ Num.toFixed 3 (Num.Fin (Gesture.scaleX t)) +++ ", " +++
                  Num.toFixed 3 (Num.Fin (Gesture.scaleY t)) +++ ") " +++
     newline +++ indent +++
     "skewX(" +++ Num.toFixed 1 (Num.Fin (Gesture.skewX t)) +++ "deg) " +++
     newline +++ indent +++
     "skewY(" +++ Num.toFixed 1 (Num.Fin (Gesture.skewY t)) +++ "deg)" +++
     newline +++ "            ")).

(** [handleMove]: the style written to the node during a drag, from
    the node's current [style] attribute (or [''] when it has none). *)
Definition drag_style (currentStyle : string) (t : Gesture.transform) : string :=
  trim (remove_decl "transform" currentStyle) +++
  " transform: " +++ transformStr t +++ transform_tail.

(** [updateStyle], keys [rotate], [scale], [flipX], [flipY]: the style
    written by the panel from its own state: the rotation text [r], the
    scale magnitude [s] and the two flip flags. *)
Definition panel_transform (r : string) (s : Num.number) (flipX flipY : bool) : string :=
  let scaleX := if flipX then Num.neg s else s in
  let scaleY := if flipY then Num.neg s else s in
  "transform: rotate(" +++ r +++ "deg) scale(" +++ Num.toString scaleX +++
  ", " +++ Num.toString scaleY +++ ")" +++ transform_tail.

Definition panel_style (currentStyle r : string) (s : Num.number)
    (flipX flipY : bool) : string :=
  trim (remove_decl "transform" currentStyle) +++ " " +++
  panel_transform r s flipX flipY.

Definition is_letter (c : ascii) : bool :=
  let k := nat_of_ascii c in
  ((65 <=? k) && (k <=? 90)) || ((97 <=? k) && (k <=? 122)).

(** The names of the functions applied in a transform value: every
    maximal run of letters that an opening parenthesis follows. *)
Fixpoint function_names (word : string) (s : string) : list string :=
  match s with
  | EmptyString => []
  | String c rest =>
      if is_letter c then function_names (word +++ String c EmptyString) rest
      else if Ascii.eqb c "(" then
        match word with
        | EmptyString => function_names EmptyString rest
        | _ => word :: function_names EmptyString rest
        end
      else function_names EmptyString rest
  end.

(** The transform functions a style applies, as a reader of the inline
    style sees them: those of its [transform] declaration. *)
Definition transform_functions (style : string) : list string :=
  match style_match "transform" style with
  | Some v => function_names EmptyString v
  | None => []
  end.

(** How many [transform] declarations a style holds. *)
Definition transform_declarations (style : string) : nat :=
  List.length (filter (fun seg =>
                  match match_decl "transform" seg with
                  | Some _ => true
                  | None => false
                  end) (split_on ";" style)).

End Style.

(* ================================================================== *)
(** * The editor panel ([EditorTools]) and the keyboard commands       *)
(* ================================================================== *)

Module Editor.
Import Dom.

(** ** What the handlers see and emit *)

(** The second argument of [updateStyle]: [string | boolean]. *)
Inductive value : Type :=
| VStr (s : string)
| VBool (b : bool).

(** A value spliced into a template or passed to [parseFloat]. *)
Definition as_string (v : value) : string :=
  match v with
  | VStr s => s
  | VBool true => "true"
  | VBool false => "false"
  end.

(** A value in a condition. *)
Definition truthy (v : value) : bool :=
  match v with
  | VStr EmptyString => false
  | VStr _ => true
  | VBool b => b
  end.

(** The fields of the panel's [styleProps] that [updateStyle] reads back
    from [newProps] when it rebuilds a transform or a filter. *)
Record styleProps : Type := mkStyleProps {
  rotate : string;
  scale : string;
  flipX : bool;
  flipY : bool;
  blur : string;
  grayscale : string;
  sepia : string;
  invert : string;
  saturate : string;
  hueRotate : string
}.

(** The initial [useState] values of those fields. *)
Definition defaultStyleProps : styleProps :=
  mkStyleProps "0" "1" false false "0" "0" "0" "0" "1" "0".

(** [{ ...styleProps, [key]: value }] on those fields. *)
Definition set_key (key : string) (v : value) (p : styleProps) : styleProps :=
  let s := as_string v in
  if String.eqb key "rotate" then
    mkStyleProps s (scale p) (flipX p) (flipY p) (blur p) (grayscale p)
      (sepia p) (invert p) (saturate p) (hueRotate p)
  else if String.eqb key "scale" then
    mkStyleProps (rotate p) s (flipX p) (flipY p) (blur p) (grayscale p)
      (sepia p) (invert p) (saturate p) (hueRotate p)
  else if String.eqb key "flipX" then
    mkStyleProps (rotate p) (scale p) (truthy v) (flipY p) (blur p)
      (grayscale p) (sepia p) (invert p) (saturate p) (hueRotate p)
  else if String.eqb key "flipY" then
    mkStyleProps (rotate p) (scale p) (flipX p) (truthy v) (blur p)
      (grayscale p) (sepia p) (invert p) (saturate p) (hueRotate p)
  else if String.eqb key "blur" then
    mkStyleProps (rotate p) (scale p) (flipX p) (flipY p) s (grayscale p)
      (sepia p) (invert p) (saturate p) (hueRotate p)
  else if String.eqb key "grayscale" then
    mkStyleProps (rotate p) (scale p) (flipX p) (flipY p) (blur p) s
      (sepia p) (invert p) (saturate p) (hueRotate p)
  else if String.eqb key "sepia" then
    mkStyleProps (rotate p) (scale p) (flipX p) (flipY p) (blur p)
      (grayscale p) s (invert p) (saturate p) (hueRotate p)
  else if String.eqb key "invert" then
    mkStyleProps (rotate p) (scale p) (flipX p) (flipY p) (blur p)
      (grayscale p) (sepia p) s (saturate p) (hueRotate p)
  else if String.eqb key "saturate" then
    mkStyleProps (rotate p) (scale p) (flipX p) (flipY p) (blur p)
      (grayscale p) (sepia p) (invert p) s (hueRotate p)
  else if String.eqb key "hueRotate" then
    mkStyleProps (rotate p) (scale p) (flipX p) (flipY p) (blur p)
      (grayscale p) (sepia p) (invert p) (saturate p) s
  else p.

(** The panel's [shadowProps]. *)
Record shadowProps : Type := mkShadowProps {
  enabled : bool;
  shadowX : Num.number;
  shadowY : Num.number;
  shadowBlur : Num.number;
  color : string;
  opacity : Num.number
}.

Definition defaultShadowProps : shadowProps :=
  mkShadowProps false (Num.of_Z 2) (Num.of_Z 2) (Num.of_Z 2) "#000000"
    (Num.Fin (1 # 2)).

(** What a handler does to its surroundings: the document-update
    callback [onUpdate], the selection callback [onSelectLayer] called at
    once, and the one scheduled with [setTimeout]. *)
Inductive effect : Type :=
| OnUpdate (newContent : string)
| OnSelectLayer (id : option string)
| SelectLater (id : string).

(** How the callback handed to [modifySvg] ends: normally, with the
    [svg] element still the document element ([Attached]) or taken out
    of the document ([Detached]); or with an exception ([Raised]). *)
Inductive completion : Type :=
| Attached (svg : node)
| Detached (svg : node)
| Raised.

(** How a handler ends: the effects it had, and whether it returned or
    an exception left it. *)
Inductive outcome : Type :=
| Completed (trace : list effect)
| Threw (trace : list effect).

Definition trace_of (o : outcome) : list effect :=
  match o with Completed t => t | Threw t => t end.

Definition is_update (e : effect) : bool :=
  match e with OnUpdate _ => true | _ => false end.

Definition updates (o : outcome) : list effect := filter is_update (trace_of o).

(** ** Locating and editing the target *)

(** [doc.getElementById(id)] matches an element by its [id] attribute;
    the empty string names no element. *)
Definition target (id : string) (n : node) : bool :=
  negb (String.eqb id EmptyString) && has_id id n.

Definition getElementById (id : string) (svg : node) : option node :=
  find_first (target id) [svg].

(** An edit of the element [id] names.  The document element is looked
    at first ([at_root]); below it the edit [k] rewrites the sibling list
    around the element.  [None] when no element has the id. *)
Definition edit_by_id (id : string) (at_root : node -> completion)
    (k : list node -> node -> list node -> list node)
    (svg : node) : option completion :=
  if target id svg then Some (at_root svg)
  else option_map Attached (edit_in (target id) k svg).

(** An edit that changes the element in place. *)
Definition update_by_id (id : string) (f : node -> node) (svg : node) : option node :=
  if target id svg then Some (f svg)
  else edit_in (target id) (fun before el after => before ++ f el :: after) svg.

(** ** The clean-up of [modifySvg] *)

(** The class tokens of an element, as [classList] holds them: split at
    white space, without repetitions. *)
Definition class_tokens (a : attributes) : list string :=
  nodup string_dec
    (filter (fun t => negb (String.eqb t EmptyString))
            (Str.split_space (attr_or "class" EmptyString a))).

Definition has_class (c : string) (n : node) : bool :=
  match n with
  | Elem _ a _ => existsb (String.eqb c) (class_tokens a)
  | Text _ => false
  end.

(** [el.classList.remove(c)]: the attribute is rewritten from the
    remaining tokens. *)
Definition classList_remove (c : string) (a : attributes) : attributes :=
  match getAttribute "class" a with
  | Some _ =>
      setAttribute "class"
        (Str.join " " (filter (fun t => negb (String.eqb c t)) (class_tokens a))) a
  | None => a
  end.

(** [el.style.outline = '']: the shorthand and its longhands leave the
    inline style. *)
Definition clear_outline (a : attributes) : attributes :=
  match getAttribute "style" a with
  | Some s =>
      let s' := fold_left (fun acc p => Css.removeProperty p acc)
                  ["outline"; "outline-color"; "outline-style"; "outline-width"] s in
      setAttribute "style" s' a
  | None => a
  end.

Definition clean_node (n : node) : node :=
  if has_class "selected-outline" n
  then set_attrs (fun a => clear_outline (classList_remove "selected-outline" a)) n
  else n.

(** What the clean-up does to the attributes of an element. *)
Definition clean_attrs (a : attributes) : attributes :=
  if existsb (String.eqb "selected-outline") (class_tokens a)
  then clear_outline (classList_remove "selected-outline" a)
  else a.

(** [doc.querySelectorAll('.selected-outline').forEach(..)] *)
Definition cleanup (svg : node) : node := map_nodes clean_node svg.

(** No element of the document carries the selection artefact. *)
Definition unmarked (svg : node) : bool :=
  forallb (fun n => negb (has_class "selected-outline" n)) (elements svg).

(** ** The body of [updateStyle]'s callback *)

Definition paint_keys : list string :=
  ["fill"; "fill-opacity"; "stroke"; "stroke-width"; "stroke-opacity";
   "stroke-linecap"; "stroke-linejoin"; "stroke-dasharray"; "opacity";
   "font-family"; "font-size"; "font-weight"].

Definition transform_keys : list string := ["rotate"; "scale"; "flipX"; "flipY"].
Definition filter_keys : list string :=
  ["blur"; "grayscale"; "sepia"; "invert"; "saturate"; "hueRotate"].

Definition mem (k : string) (l : list string) : bool := existsb (String.eqb k) l.

(** [el.style.setProperty] / [removeProperty] on the attribute list. *)
Definition style_setProperty (p v : string) (a : attributes) : attributes :=
  match getAttribute "style" a with
  | Some s => setAttribute "style" (Css.setProperty p v s) a
  | None =>
      if String.eqb v EmptyString then a
      else setAttribute "style" (Css.setProperty p v EmptyString) a
  end.

Definition style_removeProperty (p : string) (a : attributes) : attributes :=
  match getAttribute "style" a with
  | Some s => setAttribute "style" (Css.removeProperty p s) a
  | None => a
  end.

(** The filter list of the filter branch. *)
Definition filter_list (newProps : styleProps) (shadow : shadowProps) : list string :=
  let f := Num.parseFloat in
  let zero := Num.of_Z 0 in
  (if Num.gt (f (blur newProps)) zero then ["blur(" +++ blur newProps +++ "px)"] else []) ++
  (if Num.gt (f (grayscale newProps)) zero then ["grayscale(" +++ grayscale newProps +++ ")"] else []) ++
  (if Num.gt (f (sepia newProps)) zero then ["sepia(" +++ sepia newProps +++ ")"] else []) ++
  (if Num.gt (f (invert newProps)) zero then ["invert(" +++ invert newProps +++ ")"] else []) ++
  (if Num.neq (f (saturate newProps)) (Num.of_Z 1) then ["saturate(" +++ saturate newProps +++ ")"] else []) ++
  (if Num.gt (f (hueRotate newProps)) zero then ["hue-rotate(" +++ hueRotate newProps +++ "deg)"] else []) ++
  (if enabled shadow then
     let c := color shadow in
     let c' :=
       if Str.startsWith "#" c then
         "rgba(" +++ Num.toString (Num.parseInt16 (String.substring 1 2 c)) +++ "," +++
                     Num.toString (Num.parseInt16 (String.substring 3 2 c)) +++ "," +++
                     Num.toString (Num.parseInt16 (String.substring 5 2 c)) +++ "," +++
                     Num.toString (opacity shadow) +++ ")"
       else c in
     ["drop-shadow(" +++ Num.toString (shadowX shadow) +++ "px " +++
        Num.toString (shadowY shadow) +++ "px " +++
        Num.toString (shadowBlur shadow) +++ "px " +++ c' +++ ")"]
   else []).

(** The statements under [if (el) { .. }]: what one property change
    does to the element.  The paint branch is the one taken where
    [el.style] is there ([if (el.style)]); without it the code writes
    the attribute alone. *)
Definition update_element (key : string) (v : value) (newProps : styleProps)
    (shadow : shadowProps) (el : node) : node :=
  let tag := Str.toLowerCase (tagName el) in
  let s := as_string v in
  if String.eqb key "textContent" then set_textContent s el
  else if String.eqb key "x" || String.eqb key "y" then
    if String.eqb tag "circle" || String.eqb tag "ellipse"
    then set_attrs (setAttribute (if String.eqb key "x" then "cx" else "cy") s) el
    else set_attrs (setAttribute key s) el
  else if String.eqb key "rx" then
    let el1 := set_attrs (setAttribute "rx" s) el in
    if String.eqb tag "rect" then set_attrs (setAttribute "ry" s) el1 else el1
  else if mem key paint_keys then
    let el1 :=
      if String.eqb s "none" && String.eqb key "stroke-dasharray"
      then set_attrs (removeAttribute key) el
      else set_attrs (setAttribute key s) el in
    if String.eqb s "none" &&
       (String.eqb key "stroke-dasharray" || String.eqb key "stroke")
    then set_attrs (style_removeProperty key) el1
    else set_attrs (style_setProperty key s) el1
  else
    let currentStyle := attr_or "style" EmptyString (attrs_of el) in
    if mem key transform_keys then
      set_attrs (setAttribute "style"
        (Style.panel_style currentStyle (rotate newProps)
           (Num.parseFloat (scale newProps)) (flipX newProps) (flipY newProps))) el
    else if mem key filter_keys then
      let currentStyle := Str.trim (Str.remove_decl "filter" currentStyle) in
      let filters := filter_list newProps shadow in
      match filters with
      | [] => set_attrs (setAttribute "style" currentStyle) el
      | _ => set_attrs (setAttribute "style"
               (currentStyle +++ " filter: " +++ Str.join " " filters +++ ";")) el
      end
    else if String.eqb key "blendMode" then
      let currentStyle := Str.trim (Str.remove_decl "mix-blend-mode" currentStyle) in
      match v with
      | VStr "normal" => set_attrs (setAttribute "style" currentStyle) el
      | _ => set_attrs (setAttribute "style"
               (currentStyle +++ " mix-blend-mode: " +++ s +++ ";")) el
      end
    else el.

(** ** The other callbacks *)

(** [toggleVisibility]: [display] flips between ['none'] and ['']. *)
Definition toggle_display (el : node) : node :=
  let currentDisplay := getAttribute "display" (attrs_of el) in
  set_attrs (setAttribute "display"
    (match currentDisplay with
     | Some "none" => EmptyString
     | _ => "none"
     end)) el.

(** [el.cloneNode(true)] followed by [clone.id = newId]. *)
Definition clone_with_id (newId : string) (el : node) : node :=
  set_attrs (setAttribute "id" newId) el.

(** [next.after(el)]: the element moves behind its next element
    sibling; the text nodes between the two stay in front. *)
Definition move_up (before : list node) (el : node) (after : list node) : list node :=
  match split_at_element after with
  | Some (skipped, next, rest) => before ++ skipped ++ next :: el :: rest
  | None => before ++ el :: after
  end.

(** [prev.before(el)]: the element moves in front of its previous
    element sibling. *)
Definition move_down (before : list node) (el : node) (after : list node) : list node :=
  match split_at_element (rev before) with
  | Some (skipped, prev, rest) => rev rest ++ el :: prev :: rev skipped ++ after
  | None => before ++ el :: after
  end.

Inductive direction : Type := up | down.

(** The six arguments of [alignLayer]: ['left'], ['center'], ['right'],
    ['top'], ['middle'], ['bottom']. *)
Inductive alignment : Type :=
| to_left | to_center | to_right | to_top | to_middle | to_bottom.

(** [svg.getAttribute('viewBox')?.split(' ').map(Number) || [0, 0, 100, 100]] *)
Definition viewBox_numbers (svg : node) : list Num.number :=
  match getAttribute "viewBox" (attrs_of svg) with
  | Some v => map Num.Number (Str.split_on " " v)
  | None => [Num.of_Z 0; Num.of_Z 0; Num.of_Z 100; Num.of_Z 100]
  end.

(** [viewBox[i]] in arithmetic: a missing entry counts as [NaN]. *)
Definition entry (l : list Num.number) (i : nat) : Num.number := nth i l Num.NaN.

(** The body of [alignLayer]'s callback on the element found. *)
Definition align_element (a : alignment) (vbW vbH : Num.number) (el : node) : node :=
  let tagName := Str.toLowerCase (tagName el) in
  let attr := fun name => Num.parseFloat (attr_or name "0" (attrs_of el)) in
  let two := Num.of_Z 2 in
  let zero := Num.of_Z 0 in
  let '(x, y, w, h) :=
    if String.eqb tagName "circle" then
      let w := Num.mul (attr "r") two in
      (Num.sub (attr "cx") (Num.div w two), Num.sub (attr "cy") (Num.div w two), w, w)
    else if String.eqb tagName "rect" || String.eqb tagName "image" then
      (attr "x", attr "y", attr "width", attr "height")
    else (zero, zero, zero, zero) in
  let newX :=
    match a with
    | to_left => zero
    | to_center => Num.div (Num.sub vbW w) two
    | to_right => Num.sub vbW w
    | _ => x
    end in
  let newY :=
    match a with
    | to_top => zero
    | to_middle => Num.div (Num.sub vbH h) two
    | to_bottom => Num.sub vbH h
    | _ => y
    end in
  if String.eqb tagName "circle" then
    set_attrs (fun at_ =>
      setAttribute "cy" (Num.toString (Num.add newY (Num.div h two)))
        (setAttribute "cx" (Num.toString (Num.add newX (Num.div w two))) at_)) el
  else if String.eqb tagName "rect" || String.eqb tagName "image" then
    set_attrs (fun at_ =>
      setAttribute "y" (Num.toString newY)
        (setAttribute "x" (Num.toString newX) at_)) el
  else if String.eqb tagName "text" then
    match a with
    | to_center =>
        set_attrs (fun at_ =>
          setAttribute "text-anchor" "middle"
            (setAttribute "x" (Num.toString (Num.div vbW two)) at_)) el
    | _ => el
    end
  else el.

(** The shapes of [addShape]. *)
Inductive shape : Type :=
| rect | circle | triangle | text | ellipse | star | heart | arrow | bubble.

Definition shape_tag (s : shape) : string :=
  match s with
  | rect => "rect"
  | circle => "circle"
  | ellipse => "ellipse"
  | triangle | star => "polygon"
  | heart | arrow | bubble => "path"
  | text => "text"
  end.

Definition shape_fill (s : shape) : string :=
  match s with
  | rect => "#6366f1"
  | circle => "#ec4899"
  | ellipse => "#8b5cf6"
  | triangle => "#f59e0b"
  | star => "#eab308"
  | heart => "#ef4444"
  | arrow => "#3b82f6"
  | bubble => "#10b981"
  | text => "#ffffff"
  end.

(** The attributes [addShape] sets before the id, in order.  The
    geometry of the polygon and path shapes is computed with square
    roots, sines and cosines and printed as floating point; its text is
    the argument [geometry] (for the star, the printed vertices of
    [Star.star_points]). *)
Definition shape_attributes (s : shape) (geometry : string)
    (centerX centerY size : Num.number) : attributes :=
  let str := Num.toString in
  let two := Num.of_Z 2 in
  match s with
  | rect =>
      [("x", str (Num.sub centerX (Num.div size two)));
       ("y", str (Num.sub centerY (Num.div size two)));
       ("width", str size); ("height", str size); ("fill", shape_fill s)]
  | circle =>
      [("cx", str centerX); ("cy", str centerY);
       ("r", str (Num.div size two)); ("fill", shape_fill s)]
  | ellipse =>
      [("cx", str centerX); ("cy", str centerY);
       ("rx", str (Num.div size (Num.Fin (3 # 2))));
       ("ry", str (Num.div size (Num.of_Z 3))); ("fill", shape_fill s)]
  | triangle | star => [("points", geometry); ("fill", shape_fill s)]
  | heart | arrow | bubble => [("d", geometry); ("fill", shape_fill s)]
  | text =>
      [("x", str centerX); ("y", str centerY); ("text-anchor", "middle");
       ("dominant-baseline", "middle"); ("fill", shape_fill s);
       ("font-size", str (Num.div size two))]
  end.

Definition number_min (a b : Num.number) : Num.number :=
  match a, b with
  | Num.Fin x, Num.Fin y => Num.Fin (if Qle_bool x y then x else y)
  | _, _ => Num.NaN
  end.

(** The element [addShape] appends. *)
Definition new_shape (s : shape) (geometry id : string) (svg : node) : node :=
  let viewBox := viewBox_numbers svg in
  let width := Num.or_else (entry viewBox 2) (Num.of_Z 100) in
  let height := Num.or_else (entry viewBox 3) (Num.of_Z 100) in
  let centerX := Num.div width (Num.of_Z 2) in
  let centerY := Num.div height (Num.of_Z 2) in
  let size := Num.div (number_min width height) (Num.of_Z 5) in
  Elem (shape_tag s)
    (shape_attributes s geometry centerX centerY size ++ [("id", id)])
    (match s with text => [Text "Text"] | _ => [] end).

(** [svg.appendChild(n)] and [svg.prepend(n)]. *)
Definition appendChild (n : node) (parent : node) : node :=
  set_children (children_of parent ++ [n]) parent.
Definition prepend (n : node) (parent : node) : node :=
  set_children (n :: children_of parent) parent.

Inductive gradient_type : Type := linear | radial.

Definition gradient_tag (t : gradient_type) : string :=
  match t with linear => "linearGradient" | radial => "radialGradient" end.

(** The gradient element with its two stops. *)
Definition gradient_element (t : gradient_type) (newId start stop : string) : node :=
  Elem (gradient_tag t) [("id", newId)]
    [Elem "stop" [("offset", "0%"); ("stop-color", start)] [];
     Elem "stop" [("offset", "100%"); ("stop-color", stop)] []].

(** [svg.querySelector('defs')], creating the element as the first
    child when there is none. *)
Definition ensure_defs (svg : node) : node :=
  match find_first (has_tag "defs") (children_of svg) with
  | Some _ => svg
  | None => prepend (Elem "defs" [] []) svg
  end.

(** [defs.appendChild(gradEl)] on the first [defs] below the root. *)
Definition append_to_defs (gradEl : node) (svg : node) : node :=
  match edit_in (has_tag "defs")
          (fun before defs after => before ++ appendChild gradEl defs :: after) svg with
  | Some svg' => svg'
  | None => svg
  end.

(** What [applyGradient] does to the selected element: the inline fill
    is removed, the fill attribute points at the gradient. *)
Definition fill_pointed (newId : string) (a : attributes) : attributes :=
  setAttribute "fill" ("url(#" +++ newId +++ ")") (style_removeProperty "fill" a).

Definition point_fill_at (newId : string) (el : node) : node :=
  set_attrs (fill_pointed newId) el.

(** The callback of [applyGradient].  The code calls
    [el.style.removeProperty] without a test for [el.style]; this is
    its behaviour on a selected element that has a [style] object. *)
Definition gradient_callback (selectedElementId : string) (t : gradient_type)
    (start stop newId : string) (svg : node) : node :=
  let svg1 := ensure_defs svg in
  match update_by_id selectedElementId (point_fill_at newId) svg1 with
  | None => svg1
  | Some svg2 => append_to_defs (gradient_element t newId start stop) svg2
  end.

(** ** The panel's reading of the selected element's fill *)









(** ** The handlers, over the browser's parser and serializer *)

Section Handlers.

(** [new DOMParser().parseFromString(text, 'image/svg+xml')] followed by
    [doc.querySelector('svg')]: the [svg] document element, or [None]
    when the text has none; and [svg.outerHTML]. *)
Variable parse : string -> option node.
Variable serialize : node -> string.

(** [modifySvg]: parse, run the callback, strip the selection
    artefacts, hand the serialized document to [onUpdate].  The
    clean-up assigns to [el.style.outline] on every element that
    carries the marker; this is the code's behaviour where such an
    element has a [style] object, and nothing is done at all where no
    element carries the marker ([unmarked]). *)
Definition modifySvg (svgContent : string)
    (callback : node -> completion * list effect) : outcome :=
  match parse svgContent with
  | None => Completed []
  | Some svg =>
      match callback svg with
      | (Attached svg', effects) =>
          Completed (effects ++ [OnUpdate (serialize (cleanup svg'))])
      | (Detached svg', effects) =>
          Completed (effects ++ [OnUpdate (serialize svg')])
      | (Raised, effects) => Threw effects
      end
  end.

(** The props and state of the panel that the handlers close over. *)
Record panel : Type := mkPanel {
  svgContent : string;
  selectedElementId : option string;
  props : styleProps;
  shadow : shadowProps
}.

(** [if (selectedElementId)]: [null] and the empty string are falsy. *)
Definition selection (p : panel) : option string :=
  match selectedElementId p with
  | Some EmptyString => None
  | Some id => Some id
  | None => None
  end.

Definition unchanged (svg : node) : completion * list effect := (Attached svg, []).

Definition updateStyle (p : panel) (key : string) (v : value) : outcome :=
  let newProps := set_key key v (props p) in
  match selection p with
  | Some id =>
      modifySvg (svgContent p) (fun svg =>
        match update_by_id id (update_element key v newProps (shadow p)) svg with
        | Some svg' => (Attached svg', [])
        | None => unchanged svg
        end)
  | None => Completed []
  end.

(** [Date.now()] is the argument [now] of the handlers that read the
    clock. *)
Definition stamp (prefix : string) (now : N) : string :=
  prefix +++ Num.string_of_N now.

Definition applyGradient (p : panel) (now : N) (t : gradient_type)
    (start stop : string) : outcome :=
  match selection p with
  | Some id =>
      modifySvg (svgContent p) (fun svg =>
        (Attached (gradient_callback id t start stop (stamp "grad-" now) svg), []))
  | None => Completed []
  end.

Definition toggleVisibility (p : panel) (id : string) : outcome :=
  modifySvg (svgContent p) (fun svg =>
    match update_by_id id toggle_display svg with
    | Some svg' => (Attached svg', [])
    | None => unchanged svg
    end).

(** [el.remove()]; on the document element it leaves [svg] detached. *)
Definition deleteLayer (p : panel) (id : string) : outcome :=
  modifySvg (svgContent p) (fun svg =>
    match edit_by_id id Detached (fun before _ after => before ++ after) svg with
    | Some c =>
        (c, match selectedElementId p with
            | Some sel => if String.eqb sel id then [OnSelectLayer None] else []
            | None => []
            end)
    | None => unchanged svg
    end).

(** [el.insertAdjacentElement('afterend', clone)]; a document has one
    element child, so next to the document element the insertion
    raises (HierarchyRequestError) and the handler is left. *)
Definition duplicateLayer (p : panel) (now : N) (id : string) : outcome :=
  let newId := stamp "copy-" now in
  modifySvg (svgContent p) (fun svg =>
    match edit_by_id id (fun _ => Raised)
            (fun before el after => before ++ el :: clone_with_id newId el :: after) svg with
    | Some Raised => (Raised, [])
    | Some c => (c, [SelectLater newId])
    | None => unchanged svg
    end).

(** The document element has no element sibling. *)
Definition moveLayer (p : panel) (id : string) (d : direction) : outcome :=
  modifySvg (svgContent p) (fun svg =>
    match edit_by_id id Attached
            (match d with up => move_up | down => move_down end) svg with
    | Some c => (c, [])
    | None => unchanged svg
    end).

Definition alignLayer (p : panel) (a : alignment) : outcome :=
  match selection p with
  | Some id =>
      modifySvg (svgContent p) (fun svg =>
        let viewBox := viewBox_numbers svg in
        match update_by_id id
                (align_element a (entry viewBox 2) (entry viewBox 3)) svg with
        | Some svg' => (Attached svg', [])
        | None => unchanged svg
        end)
  | None => Completed []
  end.

Definition addShape (p : panel) (now : N) (s : shape) (geometry : string) : outcome :=
  let id := stamp "shape-" now in
  modifySvg (svgContent p) (fun svg =>
    (Attached (appendChild (new_shape s geometry id svg) svg), [SelectLater id])).



(** The operations of the panel that go through [modifySvg]. *)
Inductive operation : Type :=
| UpdateStyle (key : string) (v : value)
| ApplyGradient (now : N) (t : gradient_type) (start stop : string)
| ToggleVisibility (id : string)
| DeleteLayer (id : string)
| DuplicateLayer (now : N) (id : string)
| MoveLayer (id : string) (d : direction)
| AlignLayer (a : alignment)
| AddShape (now : N) (s : shape) (geometry : string).

Definition run (p : panel) (op : operation) : outcome :=
  match op with
  | UpdateStyle key v => updateStyle p key v
  | ApplyGradient now t start stop => applyGradient p now t start stop
  | ToggleVisibility id => toggleVisibility p id
  | DeleteLayer id => deleteLayer p id
  | DuplicateLayer now id => duplicateLayer p now id
  | MoveLayer id d => moveLayer p id d
  | AlignLayer a => alignLayer p a
  | AddShape now s geometry => addShape p now s geometry
  end.

(** An operation reaches [modifySvg] unless it needs a selection and
    there is none. *)
Definition routed (p : panel) (op : operation) : bool :=
  match op with
  | UpdateStyle _ _ | ApplyGradient _ _ _ _ | AlignLayer _ =>
      match selection p with Some _ => true | None => false end
  | _ => true
  end.

(** The history after the [onUpdate] calls of a trace have run
    ([onUpdate] is [handleUpdate]). *)
Definition commit_trace (t : list effect) (h : History.state) : History.state :=
  fold_left (fun st e =>
               match e with
               | OnUpdate txt => History.handleUpdate st txt
               | _ => st
               end) t h.

End Handlers.

End Editor.

(* ================================================================== *)
(** * The preview ([SvgPreview]): keyboard duplicate and normalizer    *)
(* ================================================================== *)

Module Preview.
Import Dom.

(** [(parseFloat(el.getAttribute(name) || '0') + 10).toString()] *)
Definition plus_ten (name : string) (a : attributes) : attributes :=
  setAttribute name
    (Num.toString (Num.add (Num.parseFloat (attr_or name "0" a)) (Num.of_Z 10))) a.

(** The "offset logic" of duplicate and paste. *)
Definition offset (el : node) : node :=
  let tagName := Str.toLowerCase (tagName el) in
  if Editor.mem tagName ["rect"; "image"; "text"; "use"] then
    set_attrs (fun a => plus_ten "y" (plus_ten "x" a)) el
  else if Editor.mem tagName ["circle"; "ellipse"] then
    set_attrs (fun a => plus_ten "cy" (plus_ten "cx" a)) el
  else
    set_attrs (fun a =>
      setAttribute "transform"
        (attr_or "transform" EmptyString a +++ " translate(10, 10)") a) el.

(** The clone Ctrl+D inserts. *)
Definition duplicate_of (newId : string) (el : node) : node :=
  offset (Editor.clone_with_id newId el).

(** The tags the editor treats as layers: the selector
    ['g, path, rect, circle, ellipse, text, image, line, polygon,
    polyline']. *)
Definition layer_tags : list string :=
  ["g"; "path"; "rect"; "circle"; "ellipse"; "text"; "image"; "line";
   "polygon"; "polyline"].

Definition is_layer (t : string) : bool := Editor.mem t layer_tags.

(** The id given to the [index]-th layer when it has none;
    [suffix index] stands for [Date.now().toString(36).slice(-5)] as
    read for that layer. *)
Definition fresh_id (suffix : nat -> string) (tag : string) (index : nat) : string :=
  Str.toLowerCase tag +++ "_" +++ Num.string_of_N (N.of_nat index) +++ "_" +++ suffix index.

(** [elements.forEach((el, index) => { if (!el.id) el.id = .. })] over
    the layers below a node, in document order: [index] counts the
    layers met so far. *)
Fixpoint assign_ids (suffix : nat -> string) (index : nat) (n : node) : nat * node :=
  match n with
  | Text _ => (index, n)
  | Elem t a k =>
      let layer := is_layer t in
      let a' :=
        if layer && String.eqb (id_of n) EmptyString
        then setAttribute "id" (fresh_id suffix t index) a
        else a in
      let index1 := if layer then S index else index in
      let '(index2, k') :=
        (fix go (i : nat) (l : list node) : nat * list node :=
           match l with
           | [] => (i, [])
           | c :: rest =>
               let '(j, c') := assign_ids suffix i c in
               let '(j', rest') := go j rest in
               (j', c' :: rest')
           end) index1 k in
      (index2, Elem t a' k')
  end.

Fixpoint assign_ids_list (suffix : nat -> string) (index : nat) (l : list node)
    : nat * list node :=
  match l with
  | [] => (index, [])
  | c :: rest =>
      let '(j, c') := assign_ids suffix index c in
      let '(j', rest') := assign_ids_list suffix j rest in
      (j', c' :: rest')
  end.

(** What the id step leaves of an element [x] in the element [y] it
    makes of it: the tag always, and the attributes too unless [x] is a
    layer without an id. *)
Definition kept (x y : node) : Prop :=
  tagName y = tagName x /\
  (is_layer (tagName x) = false \/ id_of x <> EmptyString ->
   attrs_of y = attrs_of x).

(** Step 1 of [normalizeSvg]: the namespace. *)
Definition ensure_namespace (a : attributes) : attributes :=
  if attr_missing "xmlns" a
  then setAttribute "xmlns" "http://www.w3.org/2000/svg" a
  else a.

(** [width === '100%' ? null : width] as a truthy string or nothing. *)
Definition dimension (name : string) (a : attributes) : option string :=
  match getAttribute name a with
  | Some "100%" => None
  | Some EmptyString => None
  | other => other
  end.

Definition has_percent (s : string) : bool := Str.includes "%" s.

(** Step 2 of [normalizeSvg], first half: the viewBox the document has,
    or the one made from its width and height, or the 512 by 512 box;
    the second component is the attribute list with the viewBox set. *)
Definition default_viewBox (width height : option string) : string :=
  match width, height with
  | Some w, Some h =>
      if negb (has_percent w) && negb (has_percent h)
      then "0 0 " +++ Num.toString (Num.parseFloat w) +++ " " +++
           Num.toString (Num.parseFloat h)
      else "0 0 512 512"
  | _, _ => "0 0 512 512"
  end.

Definition ensure_viewBox (a : attributes) : string * attributes :=
  match getAttribute "viewBox" a with
  | Some (String c v) => (String c v, a)
  | _ =>
      let vb := default_viewBox (dimension "width" a) (dimension "height" a) in
      (vb, setAttribute "viewBox" vb a)
  end.

(** [!width || width.includes('%')] *)
Definition needs_pixels (d : option string) : bool :=
  match d with Some v => has_percent v | None => true end.

Definition ensure_size (name : string) (d : option string) (v : Num.number)
    (a : attributes) : attributes :=
  if needs_pixels d then setAttribute name (Num.toString v) a else a.

(** Step 2 of [normalizeSvg]: the viewBox and the pixel sizes. *)
Definition ensure_dimensions (a : attributes) : attributes :=
  let width := dimension "width" a in
  let height := dimension "height" a in
  let '(viewBox, a1) := ensure_viewBox a in
  let vbParts := map Num.parseFloat (Str.split_space_comma viewBox) in
  if 4 <=? List.length vbParts then
    ensure_size "height" height (nth 3 vbParts Num.NaN)
      (ensure_size "width" width (nth 2 vbParts Num.NaN) a1)
  else a1.

(** The three steps on the parsed [svg] element. *)
Definition normalize_tree (suffix : nat -> string) (svg : node) : node :=
  match svg with
  | Elem t a k =>
      Elem t (ensure_dimensions (ensure_namespace a))
           (snd (assign_ids_list suffix 0 k))
  | Text _ => svg
  end.

Section Browser.

Variable parse : string -> option node.
Variable serialize : node -> string.

(** [normalizeSvg]: the empty string stays empty; a text that does not
    parse, or has no [svg] element, is returned as it is. *)
Definition normalizeSvg (suffix : nat -> string) (svgString : string) : string :=
  match svgString with
  | EmptyString => EmptyString
  | _ =>
      match parse svgString with
      | None => svgString
      | Some svg => serialize (normalize_tree suffix svg)
      end
  end.

(** Ctrl+D in [handleKeyDown]: clone the selected element, give it the
    id [dup-<now>], offset it, insert it after the original, commit and
    select it.  Next to the document element the insertion raises. *)
Definition duplicate_key (currentContent : string)
    (selectedElementId : option string) (now : N) : Editor.outcome :=
  match selectedElementId with
  | None | Some EmptyString => Editor.Completed []
  | Some id =>
      match parse currentContent with
      | None => Editor.Completed []
      | Some svg =>
          let newId := Editor.stamp "dup-" now in
          match Editor.edit_by_id id (fun _ => Editor.Raised)
                  (fun before el after =>
                     before ++ el :: duplicate_of newId el :: after) svg with
          | None => Editor.Completed []
          | Some (Editor.Attached svg') =>
              Editor.Completed
                [Editor.OnUpdate (serialize svg'); Editor.OnSelectLayer (Some newId)]
          | Some _ => Editor.Threw []
          end
      end
  end.

(** The drag of a transform handle on the displayed document: every
    move writes the style of the target, the release commits once. *)
Definition write_drag_style (t : Gesture.transform) (el : node) : node :=
  set_attrs (fun a =>
    setAttribute "style"
      (Style.drag_style (attr_or "style" EmptyString a) t) a) el.

Definition drag_gesture (displayed : node) (targetId : string)
    (type : Gesture.handle) (box : option Gesture.bbox)
    (startTransform : Gesture.transform) (moves : list Gesture.move)
    : node * list Editor.effect :=
  let final :=
    fold_left (fun doc m =>
                 match Editor.update_by_id targetId
                         (write_drag_style (Gesture.handleMove type box startTransform m))
                         doc with
                 | Some doc' => doc'
                 | None => doc
                 end) moves displayed in
  (final, [Editor.OnUpdate (serialize final)]).

End Browser.

End Preview.

(* ================================================================== *)
(** * A reader and a writer of document text                           *)
(* ================================================================== *)

(** The browser's parser and serializer are parameters of the handlers
    above.  To run the handlers on document text, this module gives a
    small writer in the manner of [outerHTML] and a reader for what it
    writes: elements, attributes in double quotes and text, without
    entities, comments or declarations. *)
Module Xml.
Import Dom.

Definition quote : string := String (ascii_of_nat 34) EmptyString.

Definition write_attribute (p : string * string) : string :=
  " " +++ fst p +++ "=" +++ quote +++ snd p +++ quote.

Fixpoint write (n : node) : string :=
  match n with
  | Text s => s
  | Elem t a k =>
      "<" +++ t +++ String.concat EmptyString (map write_attribute a) +++
      match k with
      | [] => "/>"
      | _ => ">" +++ String.concat EmptyString (map write k) +++ "</" +++ t +++ ">"
      end
  end.

Definition is_name_char (c : ascii) : bool :=
  negb (Str.is_space c || Ascii.eqb c "<" || Ascii.eqb c ">" ||
        Ascii.eqb c "/" || Ascii.eqb c "=" || Ascii.eqb c (ascii_of_nat 34)).

(** The longest prefix of characters satisfying [p], and the rest. *)
Fixpoint span (p : ascii -> bool) (s : string) : string * string :=
  match s with
  | String c rest =>
      if p c then let '(h, t) := span p rest in (String c h, t)
      else (EmptyString, s)
  | EmptyString => (EmptyString, EmptyString)
  end.

(** Attributes up to the end of the tag: the attributes, whether the
    tag closes itself, and what follows the tag. *)
Fixpoint read_attributes (fuel : nat) (s : string)
    : option (attributes * bool * string) :=
  match fuel with
  | O => None
  | S f =>
      match Str.trimStart s with
      | String ">" rest => Some ([], false, rest)
      | String "/" (String ">" rest) => Some ([], true, rest)
      | s1 =>
          let '(name, s2) := span is_name_char s1 in
          match name, s2 with
          | String _ _, String "=" (String q s3) =>
              if Ascii.eqb q (ascii_of_nat 34) then
                let '(v, s4) := span (fun c => negb (Ascii.eqb c (ascii_of_nat 34))) s3 in
                match s4 with
                | String _ s5 =>
                    match read_attributes f s5 with
                    | Some (a, closed, rest) => Some ((name, v) :: a, closed, rest)
                    | None => None
                    end
                | EmptyString => None
                end
              else None
          | _, _ => None
          end
      end
  end.

(** The nodes up to the closing tag of [parent] (or to the end of the
    text when [parent] is empty), and what follows that tag. *)
Fixpoint read_nodes (fuel : nat) (parent : string) (s : string)
    : option (list node * string) :=
  match fuel with
  | O => None
  | S f =>
      match s with
      | EmptyString =>
          match parent with EmptyString => Some ([], EmptyString) | _ => None end
      | String "<" (String "/" rest) =>
          let '(name, s1) := span is_name_char rest in
          match Str.trimStart s1 with
          | String ">" s2 =>
              if String.eqb name parent then Some ([], s2) else None
          | _ => None
          end
      | String "<" rest =>
          let '(name, s1) := span is_name_char rest in
          match name with
          | EmptyString => None
          | _ =>
              match read_attributes f s1 with
              | Some (a, true, s2) =>
                  match read_nodes f parent s2 with
                  | Some (siblings, s3) => Some (Elem name a [] :: siblings, s3)
                  | None => None
                  end
              | Some (a, false, s2) =>
                  match read_nodes f name s2 with
                  | Some (kids, s3) =>
                      match read_nodes f parent s3 with
                      | Some (siblings, s4) => Some (Elem name a kids :: siblings, s4)
                      | None => None
                      end
                  | None => None
                  end
              | None => None
              end
          end
      | _ =>
          let '(txt, s1) := span (fun c => negb (Ascii.eqb c "<")) s in
          match read_nodes f parent s1 with
          | Some (siblings, s2) => Some (Text txt :: siblings, s2)
          | None => None
          end
      end
  end.

(** The document element of a text when it is an [svg] element. *)
Definition read (s : string) : option node :=
  match read_nodes (S (String.length s)) EmptyString (Str.trim s) with
  | Some ([Elem "svg" a k], _) => Some (Elem "svg" a k)
  | _ => None
  end.


End Xml.

(* ================================================================== *)
(** * The preview: zoom, keyboard shortcuts and paste ([SvgPreview])   *)
(* ================================================================== *)

Module Studio.
Import Dom.
Local Open Scope Q_scope.

(** [Math.min] and [Math.max] on numbers that are not [NaN]. *)
Definition q_min (a b : Q) : Q := if Qle_bool a b then a else b.
Definition q_max (a b : Q) : Q := if Qle_bool a b then b else a.

(** [setZoom(z => Math.min(5, z + 0.1))] and
    [setZoom(z => Math.max(0.1, z - 0.1))]: the zoom keys and the two
    zoom buttons. *)
Definition zoom_in (z : Q) : Q := q_min 5 (z + (1 # 10)).
Definition zoom_out (z : Q) : Q := q_max (1 # 10) (z - (1 # 10)).

(** [if (isNaN(w) || w <= 0) w = 100] *)
Definition positive_or_100 (v : Num.number) : Q :=
  match v with
  | Num.Fin q => if Qle_bool q 0 then 100 else q
  | Num.NaN => 100
  end.

(** The width and height [handleFitToScreen] reads: the third and
    fourth number of a viewBox with at least four, the [width] and
    [height] attributes (or 100) otherwise. *)
Definition fit_size (svg : node) : Num.number * Num.number :=
  let from_attributes :=
    (Num.parseFloat (attr_or "width" "100" (attrs_of svg)),
     Num.parseFloat (attr_or "height" "100" (attrs_of svg))) in
  match getAttribute "viewBox" (attrs_of svg) with
  | Some v =>
      let viewBox := map Num.Number (Str.split_space_comma v) in
      if (4 <=? List.length viewBox)%nat
      then (nth 2 viewBox Num.NaN, nth 3 viewBox Num.NaN)
      else from_attributes
  | None => from_attributes
  end.

(** The zoom [handleFitToScreen] computes for a document in a
    container of [clientWidth] by [clientHeight] pixels. *)
Definition fit_zoom (clientWidth clientHeight : Z) (svg : node) : Q :=
  let '(w0, h0) := fit_size svg in
  let w := positive_or_100 w0 in
  let h := positive_or_100 h0 in
  let scale :=
    q_min ((inject_Z clientWidth - 80) / w) ((inject_Z clientHeight - 80) / h) in
  q_max (1 # 10) (q_min 5 scale).

(** A key event as the listeners read it. *)
Record key_event : Type := mkKey {
  key : string;
  ctrlKey : bool;
  metaKey : bool;
  shiftKey : bool
}.

(** The state of the preview the keyboard acts on: the history with the
    current document, the zoom, the selection and the clipboard
    ([clipboardRef.current]). *)
Record studio : Type := mkStudio {
  log : History.state;
  zoom : Q;
  selectedElementId : option string;
  clipboard : option string
}.

(** [useState(1)], [useState<string | null>(null)], [useRef(null)]. *)
Definition initial : studio := mkStudio History.initial 1 None None.

(** The "Init Data" effect for a normalized document. *)
Definition loaded (normalizedContent : string) (st : studio) : studio :=
  mkStudio (History.load normalizedContent) (4 # 5) None (clipboard st).

Definition with_log (l : History.state) (st : studio) : studio :=
  mkStudio l (zoom st) (selectedElementId st) (clipboard st).
Definition with_zoom (z : Q) (st : studio) : studio :=
  mkStudio (log st) z (selectedElementId st) (clipboard st).
Definition with_selection (s : option string) (st : studio) : studio :=
  mkStudio (log st) (zoom st) s (clipboard st).
Definition with_clipboard (c : option string) (st : studio) : studio :=
  mkStudio (log st) (zoom st) (selectedElementId st) c.

(** [if (!selectedElementId) return]: [null] and [''] are falsy. *)
Definition selected (st : studio) : option string :=
  match selectedElementId st with
  | Some EmptyString => None
  | other => other
  end.

(** The arrow keys: [step] is 10 with Shift and 1 without. *)
Definition arrow (e : key_event) : option (Z * Z) :=
  let step := if shiftKey e then 10%Z else 1%Z in
  if String.eqb (key e) "ArrowLeft" then Some ((- step)%Z, 0%Z)
  else if String.eqb (key e) "ArrowRight" then Some (step, 0%Z)
  else if String.eqb (key e) "ArrowUp" then Some (0%Z, (- step)%Z)
  else if String.eqb (key e) "ArrowDown" then Some (0%Z, step)
  else None.

(** The nudge of the two position attributes: both are read, then both
    are written. *)
Definition nudge_attrs (nx ny : string) (dx dy : Z) (a : attributes) : attributes :=
  let x := Num.parseFloat (attr_or nx "0" a) in
  let y := Num.parseFloat (attr_or ny "0" a) in
  setAttribute ny (Num.toString (Num.add y (Num.of_Z dy)))
    (setAttribute nx (Num.toString (Num.add x (Num.of_Z dx))) a).

(** What an arrow key does to the selected element; [None] for the
    tags the nudge leaves alone (no commit happens then). *)
Definition nudge (dx dy : Z) (el : node) : option node :=
  let tagName := Str.toLowerCase (tagName el) in
  if Editor.mem tagName ["rect"; "image"; "text"; "use"]
  then Some (set_attrs (nudge_attrs "x" "y" dx dy) el)
  else if Editor.mem tagName ["circle"; "ellipse"]
  then Some (set_attrs (nudge_attrs "cx" "cy" dx dy) el)
  else None.

(** The state is sound when the zoom is between 0.1 and 5 and the
    history is either still empty, as before the first document, or
    consistent. *)
Definition sound (st : studio) : Prop :=
  ((1 # 10) <= zoom st /\ zoom st <= 5) /\
  (log st = History.initial \/ History.consistent (log st)).

Section Browser.

(** The XML parser followed by [querySelector('svg')], [outerHTML], and
    the HTML parser behind [temp.innerHTML = ..] followed by
    [temp.firstElementChild]. *)
Variable parse : string -> option node.
Variable serialize : node -> string.
Variable parse_fragment : string -> option node.

(** [handleFitToScreen], for the [currentContent] its closure holds:
    nothing happens without a container, without a document, without an
    [svg] element, or in a container without extent. *)
Definition handleFitToScreen (container : option (Z * Z))
    (currentContent : option string) (st : studio) : studio :=
  match container, currentContent with
  | Some (clientWidth, clientHeight), Some (String c rest) =>
      match parse (String c rest) with
      | Some svg =>
          if (clientWidth =? 0)%Z || (clientHeight =? 0)%Z then st
          else with_zoom (fit_zoom clientWidth clientHeight svg) st
      | None => st
      end
  | _, _ => st
  end.

(** [handleUpdate(svg.outerHTML)] *)
Definition commit (svg : node) (st : studio) : studio :=
  with_log (History.handleUpdate (log st) (serialize svg)) st.

(** The document the key handlers parse: the current content. *)
Definition current_document (st : studio) : option node :=
  match History.currentContent (log st) with
  | Some content => parse content
  | None => None
  end.

(** [el.remove(); handleUpdate(svg.outerHTML); setSelectedElementId(null)]:
    the document element, once removed, is still what [svg.outerHTML]
    serializes. *)
Definition remove_selected (id : string) (svg : node) (st : studio) : studio :=
  match Editor.edit_by_id id Editor.Detached (fun before _ after => before ++ after) svg with
  | Some (Editor.Attached svg') | Some (Editor.Detached svg') =>
      with_selection None (commit svg' st)
  | _ => st
  end.

(** [handleKeyDown].  [typing] says that the focus is in an input, a
    text area or an editable element; [container] is the size of the
    preview container, if it is mounted; [now] is [Date.now()].  An
    exception raised by the DOM (Ctrl+D on the document element) leaves
    the handler before any state is set. *)
Definition handleKeyDown (typing : bool) (container : option (Z * Z))
    (now : N) (e : key_event) (st : studio) : studio :=
  if typing then st
  else
    let isCmd := ctrlKey e || metaKey e in
    let k := Str.toLowerCase (key e) in
    if isCmd && String.eqb k "z" && negb (shiftKey e) then
      with_log (History.undo (log st)) st
    else if (isCmd && String.eqb k "z" && shiftKey e) || (isCmd && String.eqb k "y") then
      with_log (History.redo (log st)) st
    else if String.eqb (key e) "Escape" then with_selection None st
    else if isCmd && String.eqb (key e) "0" then
      handleFitToScreen container (History.currentContent (log st)) st
    else if (isCmd && (String.eqb (key e) "=" || String.eqb (key e) "+"))
            || String.eqb (key e) "+" then
      with_zoom (zoom_in (zoom st)) st
    else if (isCmd && String.eqb (key e) "-") || String.eqb (key e) "-" then
      with_zoom (zoom_out (zoom st)) st
    else
      match selected st with
      | None => st
      | Some id =>
          match current_document st with
          | None => st
          | Some svg =>
              match Editor.getElementById id svg with
              | None => st
              | Some el =>
                  if String.eqb (key e) "Delete" || String.eqb (key e) "Backspace" then
                    remove_selected id svg st
                  else if isCmd && String.eqb k "c" then
                    with_clipboard (Some (serialize el)) st
                  else if isCmd && String.eqb k "x" then
                    remove_selected id svg (with_clipboard (Some (serialize el)) st)
                  else if isCmd && String.eqb k "d" then
                    let newId := Editor.stamp "dup-" now in
                    match Editor.edit_by_id id (fun _ => Editor.Raised)
                            (fun before x after =>
                               before ++ x :: Preview.duplicate_of newId x :: after)
                            svg with
                    | Some (Editor.Attached svg') =>
                        with_selection (Some newId) (commit svg' st)
                    | _ => st
                    end
                  else
                    match arrow e with
                    | Some (dx, dy) =>
                        match nudge dx dy el with
                        | Some _ =>
                            match Editor.update_by_id id
                                    (fun x => match nudge dx dy x with
                                              | Some x' => x'
                                              | None => x
                                              end) svg with
                            | Some svg' => commit svg' st
                            | None => st
                            end
                        | None => st
                        end
                    | None => st
                    end
              end
          end
      end.

(** [handlePaste], the second listener of [keydown].  [parse_fragment]
    is the HTML parser behind [temp.innerHTML] followed by
    [firstElementChild]; the element it makes is in the XHTML namespace,
    which the tree does not record, so the text committed here is the
    code's up to the [xmlns] the serializer writes on that element. *)
Definition handlePaste (typing : bool) (now : N) (e : key_event)
    (st : studio) : studio :=
  if typing then st
  else
    let isCmd := ctrlKey e || metaKey e in
    if isCmd && String.eqb (Str.toLowerCase (key e)) "v" then
      match clipboard st with
      | Some (String c rest) =>
          match current_document st with
          | Some svg =>
              match parse_fragment (String c rest) with
              | Some newEl =>
                  let newId := Editor.stamp "paste-" now in
                  let pasted := Preview.duplicate_of newId newEl in
                  with_selection (Some newId)
                    (commit (Editor.appendChild pasted svg) st)
              | None => st
              end
          | None => st
          end
      | _ => st
      end
    else st.

(** One [keydown] event: both listeners run on the state the event
    found. *)
Definition keydown (typing : bool) (container : option (Z * Z)) (now : N)
    (e : key_event) (st : studio) : studio :=
  handlePaste typing now e (handleKeyDown typing container now e st).

(** What the preview goes through: a document is loaded; a key is
    pressed; the panel, a drag or a click commits a document; the panel
    or a click changes the selection; a button of the toolbar is
    clicked.  The fit is also called from a timer set at load time,
    with the [currentContent] of that time. *)
Inductive event : Type :=
| Load (normalizedContent : string)
| KeyDown (typing : bool) (container : option (Z * Z)) (now : N) (e : key_event)
| Update (newContent : string)
| Select (id : option string)
| UndoButton
| RedoButton
| ZoomInButton
| ZoomOutButton
| Fit (container : option (Z * Z)) (currentContent : option string).

Definition react (st : studio) (ev : event) : studio :=
  match ev with
  | Load normalizedContent => loaded normalizedContent st
  | KeyDown typing container now e => keydown typing container now e st
  | Update newContent => with_log (History.handleUpdate (log st) newContent) st
  | Select id => with_selection id st
  | UndoButton => with_log (History.undo (log st)) st
  | RedoButton => with_log (History.redo (log st)) st
  | ZoomInButton => with_zoom (zoom_in (zoom st)) st
  | ZoomOutButton => with_zoom (zoom_out (zoom st)) st
  | Fit container currentContent => handleFitToScreen container currentContent st
  end.

Definition run (evs : list event) (st : studio) : studio := fold_left react evs st.

End Browser.

End Studio.

(* ================================================================== *)
(** * The canvas settings ([EditorTools]: [updateCanvas])              *)
(* ================================================================== *)

Module Canvas.
Import Dom Editor.

(** The keys of [updateCanvas]: ['width'], ['height'], ['bg']. *)
Inductive key : Type := width | height | bg.

(** A size in [canvasProps]: the number the panel's effect stored, or
    the text [updateCanvas] stored as it was typed, which stays until
    the effect runs again. *)
Inductive size : Type :=
| Measured (n : Num.number)
| Typed (s : string).

(** [`${w}`] and [w.toString()] *)
Definition print (d : size) : string :=
  match d with
  | Measured n => Num.toString n
  | Typed s => s
  end.

Record canvasProps : Type := mkCanvas {
  c_width : size;
  c_height : size;
  c_bg : string
}.

(** [useState({ width: 100, height: 100, bg: 'none' })] *)
Definition initialCanvas : canvasProps :=
  mkCanvas (Measured (Num.of_Z 100)) (Measured (Num.of_Z 100)) "none".

(** [setCanvasProps(prev => ({ ...prev, [key]: value }))] *)
Definition setCanvasProps (c : canvasProps) (k : key) (value : string) : canvasProps :=
  match k with
  | width => mkCanvas (Typed value) (c_height c) (c_bg c)
  | height => mkCanvas (c_width c) (Typed value) (c_bg c)
  | bg => mkCanvas (c_width c) (c_height c) value
  end.

(** The id of the rectangle that paints the background. *)
Definition background_id : string := "editor-background".

(** The three attributes a change of size writes on the [svg]
    element. *)
Definition resize (w h : string) (a : attributes) : attributes :=
  setAttribute "height" h
    (setAttribute "width" w
       (setAttribute "viewBox" ("0 0 " +++ w +++ " " +++ h) a)).

(** The five attributes a background colour writes on the background
    rectangle: it covers the view box with a margin of 1000 on every
    side. *)
Definition paint (viewBox : list Num.number) (value : string)
    (a : attributes) : attributes :=
  let str := Num.toString in
  setAttribute "fill" value
    (setAttribute "height" (str (Num.add (entry viewBox 3) (Num.of_Z 2000)))
       (setAttribute "width" (str (Num.add (entry viewBox 2) (Num.of_Z 2000)))
          (setAttribute "y" (str (Num.sub (entry viewBox 1) (Num.of_Z 1000)))
             (setAttribute "x" (str (Num.sub (entry viewBox 0) (Num.of_Z 1000))) a)))).

(** The callback of [updateCanvas].  Removing the background detaches
    the document element when that is the element with the id. *)
Definition callback (c : canvasProps) (k : key) (value : string)
    (svg : node) : completion :=
  match k with
  | width =>
      Attached (set_attrs (resize (Num.toString (Num.parseFloat value))
                             (print (c_height c))) svg)
  | height =>
      Attached (set_attrs (resize (print (c_width c))
                             (Num.toString (Num.parseFloat value))) svg)
  | bg =>
      if String.eqb value "none" then
        match edit_by_id background_id Detached
                (fun before _ after => before ++ after) svg with
        | Some done => done
        | None => Attached svg
        end
      else
        let viewBox := viewBox_numbers svg in
        match update_by_id background_id (set_attrs (paint viewBox value)) svg with
        | Some svg' => Attached svg'
        | None =>
            Attached (prepend (Elem "rect"
                                 (paint viewBox value [("id", background_id)]) [])
                        svg)
        end
  end.

(** The canvas part of the panel's effect: the size from a view box of
    at least four numbers, from the [width] and [height] attributes (or
    100) otherwise; the background from the fill of the background
    rectangle. *)
Definition read_canvas (svg : node) : canvasProps :=
  let fallback :=
    (Num.parseFloat (attr_or "width" "100" (attrs_of svg)),
     Num.parseFloat (attr_or "height" "100" (attrs_of svg))) in
  let '(w, h) :=
    match getAttribute "viewBox" (attrs_of svg) with
    | Some v =>
        let viewBox := map Num.Number (Str.split_space_comma v) in
        if 4 <=? List.length viewBox then (entry viewBox 2, entry viewBox 3)
        else fallback
    | None => fallback
    end in
  mkCanvas (Measured w) (Measured h)
    match getElementById background_id svg with
    | Some bgRect => attr_or "fill" "#ffffff" (attrs_of bgRect)
    | None => "none"
    end.

Section Handlers.

Variable parse : string -> option node.
Variable serialize : node -> string.

(** [updateCanvas]: the state it stores and what [modifySvg] does. *)
Definition updateCanvas (p : panel) (c : canvasProps) (k : key)
    (value : string) : canvasProps * outcome :=
  (setCanvasProps c k value,
   modifySvg parse serialize (svgContent p)
     (fun svg => (callback c k value svg, []))).

End Handlers.

End Canvas.

(* ================================================================== *)
(** * Identifiers of generated drawings ([App]: [generateUUID])        *)
(* ================================================================== *)

Module Uuid.

(** The bitwise operators work on their operands as 32-bit integers
    ([ToInt32]). *)
Definition to_int32 (z : Z) : Z := ((z + 2 ^ 31) mod 2 ^ 32 - 2 ^ 31)%Z.

(** [Math.random() * 16 | 0] for the value [random] of
    [Math.random()]. *)
Definition sixteenth (random : Q) : Z :=
  to_int32 (Gesture.trunc (random * 16)%Q).

(** [v.toString(16)] on an integer. *)
Definition toString16 (v : Z) : string :=
  let digits := fun n => HexadecimalString.NilZero.string_of_uint (N.to_hex_uint n) in
  match v with
  | Z0 => "0"
  | Zpos p => digits (Npos p)
  | Zneg p => "-" +++ digits (Npos p)
  end.

(** The replacement callback: [c === 'x' ? r : (r & 0x3 | 0x8)]. *)
Definition replacement (c : ascii) (random : Q) : string :=
  let r := sixteenth random in
  let v := if Ascii.eqb c "x" then r else Z.lor (Z.land r 3) 8 in
  toString16 v.

(** [template.replace(/[xy]/g, callback)]: the callback runs once for
    every [x] and [y], from left to right, and draws a fresh random
    number each time; [calls] counts the draws made so far and
    [random k] is the value of draw [k]. *)
Fixpoint fill (random : nat -> Q) (calls : nat) (template : string) : string :=
  match template with
  | EmptyString => EmptyString
  | String c rest =>
      if Ascii.eqb c "x" || Ascii.eqb c "y"
      then replacement c (random calls) +++ fill random (S calls) rest
      else String c (fill random calls rest)
  end.

Definition generateUUID (random : nat -> Q) : string :=
  fill random 0 "xxxxxxxx-xxxx-4xxx-yxxx-xxxxxxxxxxxx".

End Uuid.

(* ================================================================== *)
(** * Colours for the colour inputs ([EditorTools]: [toHex])           *)
(* ================================================================== *)

Module Colour.

(** [[0-9A-F]] under the [i] flag. *)
Definition is_hex (c : ascii) : bool :=
  match Num.hex_digit_of c with Some _ => true | None => false end.

Fixpoint all_hex (s : string) : bool :=
  match s with
  | EmptyString => true
  | String c rest => is_hex c && all_hex rest
  end.

(** [/^#[0-9A-F]{6}$/i.test(color)] and [/^#[0-9A-F]{3}$/i.test(color)] *)
Definition hex_of_length (n : nat) (color : string) : bool :=
  match color with
  | String "#" digits => (String.length digits =? n) && all_hex digits
  | _ => false
  end.

(** [toHex].  The canvas is the browser's: [canvas] is [None] when no
    2d context is to be had, and otherwise what reading [fillStyle]
    back gives after a colour was assigned to it. *)
Definition toHex (canvas : option (string -> string)) (color : string) : string :=
  if String.eqb color EmptyString || String.eqb color "none"
     || Str.startsWith "url(" color
  then "#000000"
  else if hex_of_length 6 color then color
  else if hex_of_length 3 color then
    match color with
    | String _ (String r (String g (String b _))) =>
        String "#" (String r (String r (String g (String g (String b (String b EmptyString))))))
    | _ => color
    end
  else
    match canvas with
    | None => "#000000"
    | Some fillStyle => fillStyle color
    end.

End Colour.

(* ================================================================== *)
(** * The answer of the model ([geminiService]: [cleanSvgResponse])    *)
(* ================================================================== *)

Module Answer.

(** Every character is an ASCII character.  The functions of this
    module follow the source on such text: lower case and white space
    are those of ASCII. *)
Fixpoint is_ascii (s : string) : bool :=
  match s with
  | EmptyString => true
  | String c rest => (nat_of_ascii c <? 128) && is_ascii rest
  end.

(** The literal [pat] is at the start of [s]; under the [i] flag
    letters are compared without case. *)
Definition at_start (ci : bool) (pat s : string) : bool :=
  if ci then String.prefix (Str.toLowerCase pat) (Str.toLowerCase s)
  else String.prefix pat s.

(** [s.replace(/pat/g, '')] for a literal pattern that is not empty:
    the matches are taken from left to right and do not overlap.
    [skip] is the number of characters of the current match that are
    still to be dropped. *)
Fixpoint remove_all (ci : bool) (pat : string) (skip : nat) (s : string) : string :=
  match s with
  | EmptyString => EmptyString
  | String c rest =>
      match skip with
      | S k => remove_all ci pat k rest
      | O =>
          if at_start ci pat s
          then remove_all ci pat (String.length pat - 1) rest
          else String c (remove_all ci pat 0 rest)
      end
  end.

Definition fence : string := "```".

(** Step 1: the three replacements. *)
Definition strip_fences (rawText : string) : string :=
  remove_all false fence 0
    (remove_all true (fence +++ "svg") 0
       (remove_all true (fence +++ "xml") 0 rawText)).

(** [s.search(/pat/i)] for a literal pattern; [None] is [-1]. *)
Fixpoint search (pat s : string) : option nat :=
  if at_start true pat s then Some 0
  else match s with
       | EmptyString => None
       | String _ rest => option_map S (search pat rest)
       end.

(** [s.lastIndexOf(pat)]; [None] is [-1]. *)
Fixpoint lastIndexOf (pat s : string) : option nat :=
  match s with
  | EmptyString => if String.prefix pat EmptyString then Some 0 else None
  | String _ rest =>
      match lastIndexOf pat rest with
      | Some i => Some (S i)
      | None => if String.prefix pat s then Some 0 else None
      end
  end.

(** [s.substring(0, n)] *)
Fixpoint take (n : nat) (s : string) : string :=
  match n, s with
  | S k, String c rest => String c (take k rest)
  | _, _ => EmptyString
  end.

(** [s.substring(a, b)]: the arguments are swapped when [a > b]. *)
Definition substring (a b : nat) (s : string) : string :=
  if a <=? b then take (b - a) (Str.drop a s) else take (a - b) (Str.drop b s).

(** [cleanSvgResponse]; [None] is [undefined]. *)
Definition cleanSvgResponse (rawText : option string) : string :=
  match rawText with
  | None => EmptyString
  | Some EmptyString => EmptyString
  | Some raw =>
      let text := strip_fences raw in
      match search "<svg" text with
      | Some start =>
          match lastIndexOf "</svg>" (Str.toLowerCase text) with
          | Some lastEnd =>
              if start <? lastEnd
              then Str.trim (substring start (lastEnd + 6) text)
              else Str.trim (Str.drop start text)
          | None => Str.trim (Str.drop start text)
          end
      | None => Str.trim text
      end
  end.

End Answer.

(* ================================================================== *)
(** * What the panel shows of the selection ([EditorTools]: the effect) *)
(* ================================================================== *)

Module Panel.
Import Dom.

(** The position fields: [cx] and [cy] of a circle or an ellipse, [x]
    and [y] of a rect, a text or an image, 0 for every other element;
    each shown as [parseFloat(xVal).toFixed(1)]. *)
Definition read_position (el : node) : string * string :=
  let tag := Str.toLowerCase (tagName el) in
  let a := attrs_of el in
  let '(xVal, yVal) :=
    if String.eqb tag "circle" || String.eqb tag "ellipse"
    then (attr_or "cx" "0" a, attr_or "cy" "0" a)
    else if String.eqb tag "rect" || String.eqb tag "text" || String.eqb tag "image"
    then (attr_or "x" "0" a, attr_or "y" "0" a)
    else ("0", "0") in
  (Num.toFixed 1 (Num.parseFloat xVal), Num.toFixed 1 (Num.parseFloat yVal)).

End Panel.

(* ================================================================== *)
(** * Places in a document, and the namespace of its elements          *)
(* ================================================================== *)

Module Place.
Import Dom.

(** A document with one sibling list left open: the element that owns
    the list ([Hole]), or an element one of whose children contains it,
    with the children before and after that child. *)
Inductive context : Type :=
| Hole (t : string) (a : attributes)
| Inside (t : string) (a : attributes) (before : list node) (c : context)
         (after : list node).

(** The document with [kids] as the open sibling list. *)
Fixpoint fill (c : context) (kids : list node) : node :=
  match c with
  | Hole t a => Elem t a kids
  | Inside t a before c' after => Elem t a (before ++ fill c' kids :: after)
  end.

(** What document order puts in front of the open list: the start tags
    of the elements around it (each as an element without children) and
    the subtrees of their earlier children. *)
Fixpoint ahead (c : context) : list node :=
  match c with
  | Hole t a => [Elem t a []]
  | Inside t a before c' _ => Elem t a [] :: before ++ ahead c'
  end.

Definition is_text (n : node) : bool := negb (is_element n).

End Place.

Module Namespace.
Import Dom.

Definition svg_namespace : string := "http://www.w3.org/2000/svg".

(** A qualified name with a prefix. *)
Definition prefixed (name : string) : bool := Str.has_char ":" name.

(** An element that takes the default namespace in scope and declares
    none for what is below it. *)
Definition inherits (n : node) : bool :=
  match n with
  | Elem t a _ =>
      negb (prefixed t) &&
      match getAttribute "xmlns" a with Some _ => false | None => true end
  | Text _ => true
  end.

(** Every element of the document is an element of the SVG namespace
    (an [SVGElement], with [style]): the document element declares the
    namespace as the default one, as the preview's [normalizeSvg]
    leaves it, no element below declares another default, and no tag
    has a prefix. *)
Definition in_svg_namespace (svg : node) : bool :=
  match svg with
  | Elem t a k =>
      negb (prefixed t) &&
      match getAttribute "xmlns" a with
      | Some ns => String.eqb ns svg_namespace
      | None => false
      end &&
      forallb inherits (flat_map elements k)
  | Text _ => false
  end.

End Namespace.

(* ================================================================== *)
(** * Part II: properties                                              *)
(* ================================================================== *)

(* ------------------------------------------------------------------ *)
(** ** Properties of the history manager                               *)
(* ------------------------------------------------------------------ *)

Module HistoryFacts.
Import History.

Lemma handleUpdate_consistent st txt : consistent (handleUpdate st txt).
Proof.
  unfold consistent, handleUpdate; cbn [history historyIndex currentContent].
  rewrite length_app; cbn [List.length]. split; [lia|].
  replace (List.length (firstn (historyIndex st + 1) (history st)) + 1 - 1)
    with (List.length (firstn (historyIndex st + 1) (history st)) + 0) by lia.
  rewrite nth_error_app2 by lia.
  now replace (_ + 0 - _) with 0 by lia.
Qed.

Lemma undo_history st : history (undo st) = history st.
Proof. unfold undo; now destruct (0 <? historyIndex st). Qed.

Lemma redo_history st : history (redo st) = history st.
Proof. unfold redo; now destruct (historyIndex st <? _). Qed.

Lemma step_history st n : history (step st n) = history st.
Proof. destruct n; [apply undo_history | apply redo_history]. Qed.

Lemma undo_consistent st : consistent st -> consistent (undo st).
Proof.
  unfold consistent, undo; intros [Hlt Hcur].
  destruct (Nat.ltb_spec 0 (historyIndex st)); cbn [history historyIndex currentContent].
  - split; [lia | reflexivity].
  - now split.
Qed.

Lemma redo_consistent st : consistent st -> consistent (redo st).
Proof.
  unfold consistent, redo; intros [Hlt Hcur].
  destruct (Nat.ltb_spec (historyIndex st) (List.length (history st) - 1));
    cbn [history historyIndex currentContent].
  - split; [lia | reflexivity].
  - now split.
Qed.

Lemma step_consistent st n : consistent st -> consistent (step st n).
Proof. destruct n; [apply undo_consistent | apply redo_consistent]. Qed.

Lemma navigate_history ops : forall st, history (navigate ops st) = history st.
Proof.
  induction ops as [|n ops IH]; intro st; cbn; [reflexivity|].
  unfold navigate in IH. now rewrite IH, step_history.
Qed.

Lemma navigate_consistent ops :
  forall st, consistent st -> consistent (navigate ops st).
Proof.
  induction ops as [|n ops IH]; intros st H; cbn; [assumption|].
  apply IH, step_consistent, H.
Qed.

Lemma commits_snoc docs txt st :
  commits (docs ++ [txt]) st = handleUpdate (commits docs st) txt.
Proof. unfold commits. now rewrite fold_left_app. Qed.

(** Starting from the empty log, committing [docs] leaves exactly
    [docs] in the log with the index on the last entry. *)
Lemma commits_initial docs :
  history (commits docs initial) = docs /\
  (docs <> [] -> historyIndex (commits docs initial) = List.length docs - 1).
Proof.
  induction docs as [|txt docs IH] using rev_ind.
  - split; [reflexivity | congruence].
  - rewrite commits_snoc. destruct IH as [Hh Hi].
    unfold handleUpdate; cbn [history historyIndex].
    rewrite Hh. destruct docs as [|d docs'].
    + cbn. split; [reflexivity | reflexivity].
    + rewrite Hi by congruence.
      replace (List.length (d :: docs') - 1 + 1) with (List.length (d :: docs'))
        by (cbn; lia).
      rewrite firstn_all. split; [reflexivity|intros _].
      now rewrite !length_app.
Qed.

Lemma commits_consistent docs st :
  docs <> [] -> consistent (commits docs st).
Proof.
  destruct docs as [|txt docs] using rev_ind; [congruence|intros _].
  rewrite commits_snoc. apply handleUpdate_consistent.
Qed.

(** An undo that moves the index is reverted by the redo after it. *)
Lemma redo_undo st :
  consistent st -> 0 < historyIndex st -> redo (undo st) = st.
Proof.
  intros [Hlt Hcur] Hpos. unfold undo.
  destruct (Nat.ltb_spec 0 (historyIndex st)); [|lia].
  unfold redo; cbn [history historyIndex currentContent].
  destruct (Nat.ltb_spec (historyIndex st - 1) (List.length (history st) - 1)); [|lia].
  replace (historyIndex st - 1 + 1) with (historyIndex st) by lia.
  rewrite <- Hcur. now destruct st.
Qed.

Lemma undo_at_zero st : historyIndex st = 0 -> undo st = st.
Proof. intro H. unfold undo. now rewrite H. Qed.

Lemma redo_at_last st :
  historyIndex st = List.length (history st) - 1 -> redo st = st.
Proof. intro H. unfold redo. rewrite H. now rewrite Nat.ltb_irrefl. Qed.

(** C2, as stated, fails on the code: after the commits [a], [b] and one
    undo the index is 0 and the current document is [a]; a further undo
    is a no-op, and the redo after it moves forward to [b], so "undo then
    redo" does not give back the document that was current before. *)
Lemma undo_noop_then_redo_moves_forward :
  let st := navigate [Undo] (commits ["a"; "b"] initial) in
  historyIndex st = 0 /\
  currentContent st = Some "a" /\
  currentContent (redo (undo st)) = Some "b" /\
  currentContent (redo (undo st)) <> currentContent st.
Proof. cbv. repeat split; discriminate. Qed.

(** C2 (amended): after N >= 1 commits from the empty log and any
    sequence of undo/redo calls, the log still holds exactly the N
    committed documents, the index lies in [0, N-1], undo at index 0 and
    redo at the last index leave the state as it is, and an undo that
    moves the index (index > 0) followed by redo restores the state, in
    particular the current document text. *)
Theorem history_index_within_bounds (docs : list string) (ops : list nav) :
  docs <> [] ->
  let st := navigate ops (commits docs initial) in
  history st = docs /\
  historyIndex st <= List.length docs - 1 /\
  currentContent st = nth_error docs (historyIndex st) /\
  (historyIndex st = 0 -> undo st = st) /\
  (historyIndex st = List.length docs - 1 -> redo st = st) /\
  (0 < historyIndex st ->
     redo (undo st) = st /\
     currentContent (redo (undo st)) = currentContent st).
Proof.
  intros Hne st.
  assert (Hh : history st = docs).
  { unfold st. rewrite navigate_history. apply commits_initial. }
  assert (Hc : consistent st).
  { unfold st. apply navigate_consistent, commits_consistent, Hne. }
  destruct Hc as [Hlt Hcur]. rewrite Hh in Hlt, Hcur.
  split; [exact Hh|]. split; [lia|]. split; [exact Hcur|].
  split; [apply undo_at_zero|].
  split.
  - intro Hlast. apply redo_at_last. now rewrite Hh.
  - intro Hpos.
    assert (E : redo (undo st) = st).
    { apply redo_undo; [|exact Hpos]. split; rewrite Hh; assumption. }
    split; [exact E | now rewrite E].
Qed.

Lemma history_index_within_bounds_witness :
  ["a"; "b"; "c"] <> [] /\
  let st := navigate [Undo; Undo; Redo] (commits ["a"; "b"; "c"] initial) in
  history st = ["a"; "b"; "c"] /\
  historyIndex st <= 2 /\
  currentContent st = nth_error ["a"; "b"; "c"] (historyIndex st) /\
  (historyIndex st = 0 -> undo st = st) /\
  (historyIndex st = 2 -> redo st = st) /\
  (0 < historyIndex st ->
     redo (undo st) = st /\
     currentContent (redo (undo st)) = currentContent st).
Proof.
  split; [discriminate|].
  apply (history_index_within_bounds ["a"; "b"; "c"] [Undo; Undo; Redo]).
  discriminate.
Defined.

(** The same bound for a session that starts from a loaded document:
    the load stores the first snapshot, so after it every state is
    consistent whatever commits and undo/redo calls follow. *)
Lemma loaded_session_consistent (doc : string) (docs : list string)
    (ops : list nav) :
  consistent (navigate ops (commits docs (load doc))).
Proof.
  apply navigate_consistent.
  destruct docs as [|d docs].
  - cbn. unfold consistent, load; cbn. split; [lia | reflexivity].
  - apply commits_consistent. discriminate.
Qed.

(** C3: a commit keeps the entries up to the current index, drops every
    entry after it, appends the new document and moves the index to it;
    the redo that follows changes nothing. *)
Theorem commit_truncates_redo_branch (st : state) (txt : string) :
  let st' := handleUpdate st txt in
  history st' = firstn (historyIndex st + 1) (history st) ++ [txt] /\
  List.length (history st') <= historyIndex st + 2 /\
  historyIndex st' = List.length (history st') - 1 /\
  currentContent st' = Some txt /\
  redo st' = st'.
Proof.
  intro st'. unfold st', handleUpdate; cbn [history historyIndex currentContent].
  split; [reflexivity|]. split.
  - rewrite length_app, length_firstn; cbn [List.length]. lia.
  - split; [reflexivity|]. split; [reflexivity|].
    apply redo_at_last. reflexivity.
Qed.

(** After undos, the entries a redo could have reached are gone: the
    snapshot that used to follow the current index is no longer in the
    log at that position. *)
Lemma commit_after_undo_overwrites (st : state) (txt : string) :
  nth_error (history (handleUpdate st txt)) (historyIndex st + 1) =
    (if historyIndex st <? List.length (history st) then Some txt else None)
  \/ List.length (history st) <= historyIndex st.
Proof.
  destruct (Nat.ltb_spec (historyIndex st) (List.length (history st))) as [H|H];
    [left | right; exact H].
  unfold handleUpdate; cbn [history].
  rewrite nth_error_app2; rewrite length_firstn.
  - replace (_ - _) with 0 by lia. reflexivity.
  - lia.
Qed.

End HistoryFacts.


(* ------------------------------------------------------------------ *)
(** ** Properties of the rotate handle                                 *)
(* ------------------------------------------------------------------ *)

Module GestureFacts.
Import Gesture.
Local Open Scope Q_scope.

(** Truncation leaves a fractional part of absolute value below one
    that has the sign of the number. *)
Lemma trunc_fraction (x : Q) :
  exists f : Q, x == inject_Z (trunc x) + f /\ -1 < f /\ f < 1 /\ 0 <= f * x.
Proof.
  destruct x as [n d]. unfold trunc; cbn [Qnum Qden].
  exists (Z.rem n (Z.pos d) # d).
  pose proof (Z.quot_rem' n (Z.pos d)) as E.
  assert (Hd : (0 < Z.pos d)%Z) by lia.
  assert (Hr : (Z.abs (Z.rem n (Z.pos d)) < Z.pos d)%Z).
  { pose proof (Z.rem_bound_abs n (Z.pos d) ltac:(lia)) as Ha. lia. }
  assert (Hs : (0 <= Z.rem n (Z.pos d) * n)%Z).
  { pose proof (Z.rem_sign_mul n (Z.pos d) ltac:(lia)) as Hm. lia. }
  repeat split.
  - unfold Qeq, Qplus, inject_Z; cbn [Qnum Qden]. nia.
  - unfold Qlt; cbn [Qnum Qden]. lia.
  - unfold Qlt; cbn [Qnum Qden]. lia.
  - unfold Qle, Qmult; cbn [Qnum Qden]. nia.
Qed.

(** JavaScript's remainder by 360: it differs from the dividend by a
    multiple of 360, lies strictly between -360 and 360, and never has
    the sign opposite to the dividend's. *)
Lemma js_rem_360 (a : Q) :
  (exists k : Z, js_rem a 360 == a - 360 * inject_Z k) /\
  -360 < js_rem a 360 /\ js_rem a 360 < 360 /\ 0 <= js_rem a 360 * a.
Proof.
  unfold js_rem. split; [now exists (trunc (a / 360))|].
  destruct (trunc_fraction (a / 360)) as (f & Ef & Hlo & Hhi & Hs).
  assert (Ea : a == 360 * (a / 360)) by (field).
  assert (Er : a - 360 * inject_Z (trunc (a / 360)) == 360 * f).
  { rewrite Ea at 1. rewrite Ef at 1. ring. }
  rewrite Er. repeat split.
  - clear - Hlo. lra.
  - clear - Hhi. lra.
  - assert (E2 : 360 * f * a == 360 * 360 * (f * (a / 360))) by field.
    rewrite E2. apply Qmult_le_0_compat; [lra | exact Hs].
Qed.

(** C5, as stated, fails on the code.  First, a pointer that has not
    moved (both angles -90, the top handle) already rotates a node whose
    start rotation is 0 to 90, where the claim says 0.  Second, with the
    drag started below the centre (angle 90) and the pointer now above it
    (angle -90) the result is -90, outside [0, 360). *)
Lemma rotate_drag_offset_and_sign :
  (let m := mkMove (-90) (-90) 0 0 false in
   let t := handleMove rotate_handle None identity m in
   rotate t == 90 /\ spec_rotation identity m == 0 /\
   ~ rotate t == spec_rotation identity m) /\
  (let m := mkMove (-90) 90 0 0 false in
   let t := handleMove rotate_handle None identity m in
   rotate t == -90 /\ ~ 0 <= rotate t).
Proof.
  split; cbv zeta.
  - repeat split; try reflexivity. vm_compute. discriminate.
  - split; [reflexivity|]. vm_compute. intro H. apply H. reflexivity.
Qed.

(** C5 (amended): on the rotate handle the live rotation is the start
    rotation plus the angular difference plus a fixed 90 degrees, reduced
    by JavaScript's remainder of the division by 360: it differs from
    that sum by a whole number of turns, lies strictly between -360 and
    360, has the sign of the sum (so it is in [0, 360) when the sum is
    not negative), and the other four channels keep their start
    values. *)
Theorem rotate_drag_rotation (box : option bbox) (startTransform : transform)
    (m : move) :
  let t := handleMove rotate_handle box startTransform m in
  let sum := spec_rotation startTransform m + 90 in
  (exists k : Z, rotate t == sum - 360 * inject_Z k) /\
  -360 < rotate t /\ rotate t < 360 /\
  0 <= rotate t * sum /\
  (0 <= sum -> 0 <= rotate t) /\
  scaleX t = scaleX startTransform /\ scaleY t = scaleY startTransform /\
  skewX t = skewX startTransform /\ skewY t = skewY startTransform.
Proof.
  intros t sum.
  assert (Et : rotate t = js_rem sum 360).
  { unfold t, sum, spec_rotation, handleMove; cbn [rotate set_rotate].
    f_equal. }
  assert (Ech : scaleX t = scaleX startTransform /\
                scaleY t = scaleY startTransform /\
                skewX t = skewX startTransform /\
                skewY t = skewY startTransform) by now cbn.
  clearbody t sum.
  destruct (js_rem_360 sum) as (Hk & Hlo & Hhi & Hs).
  rewrite Et. split; [exact Hk|]. split; [exact Hlo|]. split; [exact Hhi|].
  split; [exact Hs|]. split; [|exact Ech].
  intro Hsum.
  destruct (Qlt_le_dec (js_rem sum 360) 0) as [Hneg|Hge]; [|exact Hge].
  destruct (Qeq_dec sum 0) as [Hz|Hnz].
  - destruct Hk as [k Hk]. remember (js_rem sum 360) as r eqn:Hr.
    assert (Hk1 : inject_Z k < 1) by (clear - Hk Hlo Hz; lra).
    assert (Hk2 : -1 < inject_Z k) by (clear - Hk Hhi Hz; lra).
    assert (k = 0%Z) as ->.
    { clear - Hk1 Hk2. unfold Qlt, inject_Z in *. cbn in *. lia. }
    clear - Hk Hz. change (inject_Z 0) with 0 in Hk. lra.
  - exfalso. assert (0 < sum) by (apply Qle_lteq in Hsum;
      destruct Hsum as [Hp|Hq]; [exact Hp | now symmetry in Hq]).
    assert (js_rem sum 360 * sum < 0); [|lra].
    setoid_replace 0 with (0 * sum) by ring.
    apply Qmult_lt_compat_r; assumption.
Qed.

End GestureFacts.

(* ------------------------------------------------------------------ *)
(** ** Properties of the star polygon                                  *)
(* ------------------------------------------------------------------ *)

Module StarFacts.
Import Star.
Local Open Scope R_scope.













End StarFacts.

(* ------------------------------------------------------------------ *)
(** ** Searching and editing the document tree                         *)
(* ------------------------------------------------------------------ *)

Module DomFacts.
Import Dom.

Lemma find_in_Elem p t a k :
  find_in p (Elem t a k) =
    if p (Elem t a k) then Some (Elem t a k) else find_first p k.
Proof.
  cbn [find_in]. destruct (p (Elem t a k)); [reflexivity|].
  induction k as [|c rest IH]; cbn [find_first]; [reflexivity|].
  destruct (find_in p c); [reflexivity | exact IH].
Qed.

Lemma edit_in_Elem p k t a kids :
  edit_in p k (Elem t a kids) = option_map (Elem t a) (edit_from p k [] kids).
Proof.
  cbn [edit_in]. f_equal.
  match goal with
  | |- ?F [] kids = _ =>
      enough (H : forall pre, F pre kids = edit_from p k pre kids) by apply H
  end.
  induction kids as [|c rest IH]; intro pre; cbn [edit_from]; [reflexivity|].
  destruct (p c); [reflexivity|].
  destruct (edit_in p k c); [reflexivity | apply IH].
Qed.

Lemma elements_Elem t a k :
  elements (Elem t a k) = Elem t a k :: flat_map elements k.
Proof. reflexivity. Qed.

Lemma map_nodes_Elem f t a k :
  map_nodes f (Elem t a k) = f (Elem t a (map (map_nodes f) k)).
Proof. reflexivity. Qed.

(** Where the search finds nothing an edit has nothing to edit. *)
Lemma edit_absent p k :
  forall n, find_in p n = None -> edit_in p k n = None.
Proof.
  intro n.
  apply (node_rect'
           (fun n => find_in p n = None -> edit_in p k n = None)
           (fun l => find_first p l = None ->
                     forall pre, edit_from p k pre l = None)).
  - intros t a kids IH H. rewrite find_in_Elem in H.
    destruct (p (Elem t a kids)); [discriminate|].
    rewrite edit_in_Elem, (IH H). reflexivity.
  - reflexivity.
  - reflexivity.
  - intros c l IHc IHl H pre. cbn [find_first] in H.
    destruct (find_in p c) eqn:Hc; [discriminate|].
    cbn [edit_from].
    assert (Hp : p c = false).
    { destruct c as [t a kids|s]; cbn [find_in] in Hc;
        destruct (p _); [discriminate | reflexivity | discriminate | reflexivity]. }
    rewrite Hp, (IHc eq_refl). apply IHl, H.
Qed.

(** A search that fails at a node fails at the node itself. *)
Lemma find_in_none_root p n : find_in p n = None -> p n = false.
Proof.
  destruct n as [t a kids|s]; cbn [find_in];
    destruct (p _); [discriminate | reflexivity | discriminate | reflexivity].
Qed.

(** A function that changes no node of a tree leaves the tree as it
    is. *)
Lemma map_nodes_id f :
  forall n, (forall x, In x (elements n) -> f x = x) ->
            (forall s, f (Text s) = Text s) ->
            map_nodes f n = n.
Proof.
  intros n Hf Ht. revert Hf.
  apply (node_rect'
           (fun n => (forall x, In x (elements n) -> f x = x) -> map_nodes f n = n)
           (fun l => (forall x, In x (flat_map elements l) -> f x = x) ->
                     map (map_nodes f) l = l)).
  - intros t a k IH Hf. rewrite map_nodes_Elem, IH.
    + apply Hf. now left.
    + intros x Hx. apply Hf. now right.
  - intros s _. apply Ht.
  - reflexivity.
  - intros c l IHc IHl Hf. cbn [map]. f_equal.
    + apply IHc. intros x Hx. apply Hf. cbn [flat_map]. apply in_or_app. now left.
    + apply IHl. intros x Hx. apply Hf. cbn [flat_map]. apply in_or_app. now right.
Qed.

Lemma getAttribute_setAttribute_other name name' v a :
  name <> name' ->
  getAttribute name (setAttribute name' v a) = getAttribute name a.
Proof.
  intro Hne. induction a as [|[n x] rest IH]; cbn [setAttribute getAttribute].
  - destruct (String.eqb_spec name' name); [congruence | reflexivity].
  - destruct (String.eqb_spec n name') as [->|Hn]; cbn [getAttribute].
    + destruct (String.eqb_spec name' name); [congruence | reflexivity].
    + destruct (String.eqb_spec n name); [reflexivity | exact IH].
Qed.

Lemma getAttribute_setAttribute_same name v a :
  getAttribute name (setAttribute name v a) = Some v.
Proof.
  induction a as [|[n x] rest IH]; cbn [setAttribute getAttribute].
  - now rewrite String.eqb_refl.
  - destruct (String.eqb_spec n name) as [->|Hn]; cbn [getAttribute].
    + now rewrite String.eqb_refl.
    + destruct (String.eqb_spec n name); [congruence | exact IH].
Qed.

End DomFacts.

(* ------------------------------------------------------------------ *)
(** ** The editor panel                                                *)
(* ------------------------------------------------------------------ *)

Module EditorFacts.
Import Dom Editor DomFacts.

(** The clean-up changes nothing in a document without the artefact. *)
Lemma cleanup_unmarked svg : unmarked svg = true -> cleanup svg = svg.
Proof.
  intro H. unfold cleanup. apply map_nodes_id; [|reflexivity].
  intros x Hx. unfold unmarked in H. rewrite forallb_forall in H.
  specialize (H x Hx). unfold clean_node.
  now destruct (has_class "selected-outline" x).
Qed.

(** An id that names no element gives an edit nothing to do. *)
Lemma update_by_id_absent id f svg :
  getElementById id svg = None -> update_by_id id f svg = None.
Proof.
  unfold getElementById, update_by_id; cbn [find_first]. intro H.
  destruct (find_in (target id) svg) eqn:Hf; [discriminate|].
  rewrite (find_in_none_root _ _ Hf). now apply edit_absent.
Qed.

Lemma edit_by_id_absent id r k svg :
  getElementById id svg = None -> edit_by_id id r k svg = None.
Proof.
  unfold getElementById, edit_by_id; cbn [find_first]. intro H.
  destruct (find_in (target id) svg) eqn:Hf; [discriminate|].
  rewrite (find_in_none_root _ _ Hf). now rewrite edit_absent.
Qed.

(** The copy made by the layer panel differs from the original in its
    id only: every other attribute, the position among them, is kept. *)
Lemma clone_keeps_attribute newId el name :
  name <> "id" ->
  getAttribute name (attrs_of (clone_with_id newId el)) =
  getAttribute name (attrs_of el).
Proof.
  intro Hne. destruct el as [t a k|s]; cbn; [|reflexivity].
  now apply getAttribute_setAttribute_other.
Qed.

Section Handlers.

Variable parse : string -> option node.
Variable serialize : node -> string.

(** C4 (amended): on a document none of whose elements carries the
    selection marker (the class [selected-outline]), a property change
    aimed at an id that names no element completes without an
    exception, edits nothing, and hands [onUpdate] the serialization of
    the document as it was parsed. *)
Theorem stale_update_leaves_tree (p : panel) (key : string) (v : value)
    (svg : node) (id : string) :
  parse (svgContent p) = Some svg ->
  unmarked svg = true ->
  selection p = Some id ->
  getElementById id svg = None ->
  updateStyle parse serialize p key v = Completed [OnUpdate (serialize svg)].
Proof.
  intros Hparse Hclean Hsel Habs.
  unfold updateStyle, modifySvg. rewrite Hsel, Hparse.
  rewrite update_by_id_absent by exact Habs. cbn [unchanged app].
  now rewrite cleanup_unmarked.
Qed.

(** What [modifySvg] emits, by the way its callback ends. *)
Lemma modifySvg_trace content callback svg :
  parse content = Some svg ->
  modifySvg parse serialize content callback =
    match callback svg with
    | (Attached svg', effects) =>
        Completed (effects ++ [OnUpdate (serialize (cleanup svg'))])
    | (Detached svg', effects) =>
        Completed (effects ++ [OnUpdate (serialize svg')])
    | (Raised, effects) => Threw effects
    end.
Proof. intro H. unfold modifySvg. now rewrite H. Qed.

Lemma updates_snoc sync txt :
  forallb (fun e => negb (is_update e)) sync = true ->
  updates (Completed (sync ++ [OnUpdate txt])) = [OnUpdate txt].
Proof.
  intro H. unfold updates; cbn [trace_of]. rewrite filter_app; cbn.
  replace (filter is_update sync) with (@nil effect); [reflexivity|].
  induction sync as [|e rest IH]; [reflexivity|].
  cbn in H. apply andb_prop in H as [He Hr]. cbn.
  destruct (is_update e); [discriminate | now apply IH].
Qed.

Lemma commit_trace_snoc sync txt h :
  forallb (fun e => negb (is_update e)) sync = true ->
  commit_trace (sync ++ [OnUpdate txt]) h = History.handleUpdate h txt.
Proof.
  intro H. unfold commit_trace. rewrite fold_left_app. cbn. f_equal.
  revert h. induction sync as [|e rest IH]; intro h; [reflexivity|].
  cbn in H. apply andb_prop in H as [He Hr]. cbn.
  destruct e; cbn in He; [discriminate| |]; now apply IH.
Qed.

Lemma completed_once (o : outcome) sync txt :
  forallb (fun e => negb (is_update e)) sync = true ->
  o = Completed (sync ++ [OnUpdate txt]) ->
  exists sync txt,
    o = Completed (sync ++ [OnUpdate txt]) /\
    updates o = [OnUpdate txt] /\
    forall h,
      History.history (commit_trace (trace_of o) h) =
      firstn (History.historyIndex h + 1) (History.history h) ++ [txt].
Proof.
  intros Hs E. exists sync, txt. rewrite E. split; [reflexivity|].
  split; [now apply updates_snoc|]. intro h. cbn [trace_of].
  now rewrite commit_trace_snoc.
Qed.

(** Every operation that reaches [modifySvg] on a document that parses
    either is the duplication of the document element, which raises
    before [onUpdate] is reached, or calls [onUpdate] exactly once, as
    its last effect, which appends one snapshot to the history. *)
Lemma routed_operation_outcome (p : panel) (op : operation) (svg : node) :
  parse (svgContent p) = Some svg ->
  routed p op = true ->
  (exists now id, op = DuplicateLayer now id /\ target id svg = true /\
                  run parse serialize p op = Threw []) \/
  (exists sync txt,
     run parse serialize p op = Completed (sync ++ [OnUpdate txt]) /\
     updates (run parse serialize p op) = [OnUpdate txt] /\
     forall h,
       History.history (commit_trace (trace_of (run parse serialize p op)) h) =
       firstn (History.historyIndex h + 1) (History.history h) ++ [txt]).
Proof.
  intros Hparse Hrouted.
  destruct op as [key v|now t start stop|id|id|now id|id d|a|now s geometry];
    cbn [run routed] in *.
  - right. unfold updateStyle. destruct (selection p) as [id|]; [|discriminate].
    rewrite (modifySvg_trace _ _ _ Hparse).
    destruct (update_by_id id _ svg); eapply (completed_once _ []); reflexivity.
  - right. unfold applyGradient. destruct (selection p) as [id|]; [|discriminate].
    rewrite (modifySvg_trace _ _ _ Hparse). eapply (completed_once _ []); reflexivity.
  - right. unfold toggleVisibility. rewrite (modifySvg_trace _ _ _ Hparse).
    destruct (update_by_id id _ svg); eapply (completed_once _ []); reflexivity.
  - right. unfold deleteLayer. rewrite (modifySvg_trace _ _ _ Hparse).
    destruct (edit_by_id id _ _ svg) as [c|] eqn:He.
    + assert (Hc : c <> Raised).
      { unfold edit_by_id in He. destruct (target id svg); [congruence|].
        destruct (edit_in _ _ svg); cbn in He; congruence. }
      destruct c as [svg'|svg'|]; [| |congruence];
        (destruct (selectedElementId p) as [sel|];
         [destruct (String.eqb sel id)|]);
        first [ eapply (completed_once _ [OnSelectLayer None]); reflexivity
              | eapply (completed_once _ []); reflexivity ].
    + eapply (completed_once _ []); reflexivity.
  - unfold duplicateLayer. rewrite (modifySvg_trace _ _ _ Hparse).
    unfold edit_by_id. destruct (target id svg) eqn:Ht.
    + left. exists now, id. split; [reflexivity|]. split; [exact Ht | reflexivity].
    + right. destruct (edit_in _ _ svg); cbn [option_map].
      * eapply (completed_once _ [SelectLater _]); reflexivity.
      * eapply (completed_once _ []); reflexivity.
  - right. unfold moveLayer. rewrite (modifySvg_trace _ _ _ Hparse).
    unfold edit_by_id. destruct (target id svg).
    + eapply (completed_once _ []); reflexivity.
    + destruct (edit_in _ _ svg); cbn [option_map]; eapply (completed_once _ []); reflexivity.
  - right. unfold alignLayer. destruct (selection p) as [id|]; [|discriminate].
    rewrite (modifySvg_trace _ _ _ Hparse).
    destruct (update_by_id id _ svg); eapply (completed_once _ []); reflexivity.
  - right. unfold addShape. rewrite (modifySvg_trace _ _ _ Hparse).
    eapply (completed_once _ [SelectLater _]); reflexivity.
Qed.

End Handlers.

(** *** The handlers on document text *)

(** C4, as stated, fails on the code: the document, in the SVG
    namespace, holds one rectangle that carries the class
    [selected-outline]; a fill change aimed at the id [gone], which
    names no element, completes, and the document it hands to
    [onUpdate] has lost the class value: it is not the document it was
    given. *)
Lemma stale_update_strips_marker :
  let svg :=
    Elem "svg" [("xmlns", "http://www.w3.org/2000/svg"); ("viewBox", "0 0 100 100")]
      [Elem "rect" [("id", "a"); ("class", "selected-outline")] []] in
  let svg' :=
    Elem "svg" [("xmlns", "http://www.w3.org/2000/svg"); ("viewBox", "0 0 100 100")]
      [Elem "rect" [("id", "a"); ("class", "")] []] in
  let p := mkPanel (Xml.write svg) (Some "gone") defaultStyleProps
             defaultShadowProps in
  Xml.read (svgContent p) = Some svg /\
  Namespace.in_svg_namespace svg = true /\
  getElementById "gone" svg = None /\
  updateStyle Xml.read Xml.write p "fill" (VStr "#ff0000") =
    Completed [OnUpdate (Xml.write svg')] /\
  Xml.write svg' <> svgContent p.
Proof.
  cbv zeta. split; [reflexivity|]. split; [reflexivity|].
  split; [reflexivity|]. split; [reflexivity|]. vm_compute. discriminate.
Qed.

Lemma stale_update_leaves_tree_witness :
  let svg :=
    Elem "svg" [("xmlns", "http://www.w3.org/2000/svg"); ("viewBox", "0 0 100 100")]
      [Elem "rect" [("id", "a"); ("x", "10"); ("y", "10")] []] in
  let p := mkPanel (Xml.write svg) (Some "gone") defaultStyleProps
             defaultShadowProps in
  (Xml.read (svgContent p) = Some svg /\
   unmarked svg = true /\
   selection p = Some "gone" /\
   getElementById "gone" svg = None) /\
  updateStyle Xml.read Xml.write p "stroke-width" (VStr "3") =
    Completed [OnUpdate (Xml.write svg)].
Proof.
  cbv zeta. split; [repeat split|].
  apply (stale_update_leaves_tree Xml.read Xml.write _ "stroke-width"
           (VStr "3") _ "gone"); reflexivity.
Defined.

(** C10 at its failing input: the document element and a rectangle
    below it share the id [a]; the layer list offers the rectangle, its
    Duplicate button calls [duplicateLayer("a")], [getElementById] finds
    the document element first, and the insertion of the clone next to
    it raises: the handler is left before [onUpdate], which is not
    called. *)
Theorem duplicate_of_document_element_raises :
  let svg :=
    Elem "svg" [("id", "a"); ("viewBox", "0 0 100 100")]
      [Elem "rect" [("id", "a"); ("x", "10"); ("y", "10")] []] in
  let p := mkPanel (Xml.write svg) None defaultStyleProps defaultShadowProps in
  Xml.read (svgContent p) = Some svg /\
  routed p (DuplicateLayer 1700000000000 "a") = true /\
  getElementById "a" svg = Some svg /\
  run Xml.read Xml.write p (DuplicateLayer 1700000000000 "a") = Threw [] /\
  updates (run Xml.read Xml.write p (DuplicateLayer 1700000000000 "a")) = [].
Proof.
  cbv zeta. split; [reflexivity|]. split; [reflexivity|].
  split; [reflexivity|]. split; reflexivity.
Qed.

(** C8 at its failing input: the Duplicate button of the layer panel
    copies a rectangle at (10, 10) to a rectangle at (10, 10): the copy
    follows the original and has a new id, but no offset. *)
Theorem layer_duplicate_keeps_position :
  let original :=
    Elem "rect" [("id", "r"); ("x", "10"); ("y", "10"); ("width", "5");
                 ("height", "5")] [] in
  let copy :=
    Elem "rect" [("id", "copy-1700000000000"); ("x", "10"); ("y", "10");
                 ("width", "5"); ("height", "5")] [] in
  let svg := Elem "svg" [("viewBox", "0 0 100 100")] [original] in
  let p := mkPanel (Xml.write svg) None defaultStyleProps defaultShadowProps in
  Xml.read (svgContent p) = Some svg /\
  duplicateLayer Xml.read Xml.write p 1700000000000 "r" =
    Completed
      [SelectLater "copy-1700000000000";
       OnUpdate (Xml.write (Elem "svg" [("viewBox", "0 0 100 100")]
                              [original; copy]))].
Proof. cbv zeta. split; reflexivity. Qed.

(** The same rectangle duplicated with Ctrl+D: the copy is at (20, 20),
    follows the original and has a new id. *)
Lemma keyboard_duplicate_offsets :
  let original :=
    Elem "rect" [("id", "r"); ("x", "10"); ("y", "10"); ("width", "5");
                 ("height", "5")] [] in
  let copy :=
    Elem "rect" [("id", "dup-1700000000000"); ("x", "20"); ("y", "20");
                 ("width", "5"); ("height", "5")] [] in
  let svg := Elem "svg" [("viewBox", "0 0 100 100")] [original] in
  Preview.duplicate_key Xml.read Xml.write (Xml.write svg) (Some "r")
    1700000000000 =
    Completed
      [OnUpdate (Xml.write (Elem "svg" [("viewBox", "0 0 100 100")]
                              [original; copy]));
       OnSelectLayer (Some "dup-1700000000000")].
Proof. cbv zeta. reflexivity. Qed.

(** Whatever else a rectangle at (10, 10) carries, its Ctrl+D copy is at
    (20, 20) and has the new id. *)
Lemma duplicate_of_rect_offsets (newId : string) (a : attributes)
    (k : list node) :
  getAttribute "x" a = Some "10" ->
  getAttribute "y" a = Some "10" ->
  let copy := Preview.duplicate_of newId (Elem "rect" a k) in
  getAttribute "x" (attrs_of copy) = Some "20" /\
  getAttribute "y" (attrs_of copy) = Some "20" /\
  getAttribute "id" (attrs_of copy) = Some newId /\
  children_of copy = k.
Proof.
  intros Hx Hy copy.
  assert (Hx' : getAttribute "x" (setAttribute "id" newId a) = Some "10")
    by (rewrite getAttribute_setAttribute_other; [exact Hx | discriminate]).
  assert (Hy' : getAttribute "y" (setAttribute "id" newId a) = Some "10")
    by (rewrite getAttribute_setAttribute_other; [exact Hy | discriminate]).
  unfold copy, Preview.duplicate_of, Preview.offset, clone_with_id.
  cbn [set_attrs tagName].
  match goal with
  | |- context [mem ?x ?l] => change (mem x l) with true
  end.
  cbn [set_attrs attrs_of children_of]. unfold Preview.plus_ten.
  set (a1 := setAttribute "id" newId a) in *.
  assert (E1 : attr_or "x" "0" a1 = "10") by (unfold attr_or; now rewrite Hx').
  rewrite E1.
  set (a2 := setAttribute "x" _ a1).
  assert (Hy2 : getAttribute "y" a2 = Some "10")
    by (unfold a2; rewrite getAttribute_setAttribute_other;
        [exact Hy' | discriminate]).
  assert (E2 : attr_or "y" "0" a2 = "10") by (unfold attr_or; now rewrite Hy2).
  rewrite E2. repeat split.
  - rewrite getAttribute_setAttribute_other by discriminate.
    unfold a2. now rewrite getAttribute_setAttribute_same.
  - now rewrite getAttribute_setAttribute_same.
  - rewrite getAttribute_setAttribute_other by discriminate.
    unfold a2. rewrite getAttribute_setAttribute_other by discriminate.
    unfold a1. apply getAttribute_setAttribute_same.
Qed.

(** C1 at its failing input: a Ctrl+drag of the north handle by 20
    units skews a node by 10 degrees, and the style the drag writes
    lists rotate, scale, skewX, skewY; the panel then changes the
    rotation to 45 (its state being what it reads from that style:
    rotation 0, scale 1, no flip) and the style it writes lists rotate
    and scale only: the skew of 10 degrees is gone. *)
Theorem panel_edit_drops_skew :
  let dragged :=
    Gesture.handleMove Gesture.n None Gesture.identity
      (Gesture.mkMove 0 0 20 0 true) in
  let style1 := Style.drag_style "fill: red;" dragged in
  let newProps := set_key "rotate" (VStr "45") defaultStyleProps in
  let style2 :=
    attr_or "style" ""
      (attrs_of (update_element "rotate" (VStr "45") newProps
                   defaultShadowProps
                   (Elem "rect" [("id", "r"); ("style", style1)] []))) in
  Qeq (Gesture.skewX dragged) 10 /\
  style1 =
    "fill: red; transform: rotate(0deg) scale(1.000, 1.000) skewX(10.0deg) skewY(0.0deg); transform-box: fill-box; transform-origin: center;" /\
  Style.transform_functions style1 = ["rotate"; "scale"; "skewX"; "skewY"] /\
  style2 =
    "fill: red;  transform-box: fill-box; transform-origin: center; transform: rotate(45deg) scale(1, 1); transform-box: fill-box; transform-origin: center;" /\
  Style.transform_functions style2 = ["rotate"; "scale"] /\
  Str.includes "skew" style2 = false.
Proof.
  cbv zeta. split; [reflexivity|].
  split; [vm_compute; reflexivity|].
  split; [vm_compute; reflexivity|].
  split; [vm_compute; reflexivity|].
  split; vm_compute; reflexivity.
Qed.

End EditorFacts.

(* ------------------------------------------------------------------ *)
(** ** Printed numbers                                                 *)
(* ------------------------------------------------------------------ *)

Module NumFacts.
Import Str Num.

Lemma has_char_app c a b : has_char c (a +++ b) = has_char c a || has_char c b.
Proof.
  induction a as [|d a IH]; cbn [String.append has_char]; [reflexivity|].
  now rewrite IH, orb_assoc.
Qed.

Lemma includes_char c s : includes (String c EmptyString) s = has_char c s.
Proof.
  induction s as [|d s IH]; [reflexivity|].
  cbn [includes has_char String.prefix]. rewrite IH.
  destruct (Ascii.ascii_dec c d) as [->|Hne].
  - rewrite Ascii.eqb_refl. now destruct s.
  - destruct (Ascii.eqb_spec d c); [congruence | reflexivity].
Qed.

(** Decimal digits only. *)
Lemma uint_digits_no_percent u :
  has_char "%" (NilEmpty.string_of_uint u) = false.
Proof. induction u; cbn [NilEmpty.string_of_uint has_char]; auto. Qed.

Lemma string_of_N_no_percent n : has_char "%" (string_of_N n) = false.
Proof.
  unfold string_of_N, NilZero.string_of_uint.
  destruct (N.to_uint n) eqn:E; try reflexivity;
    rewrite <- E; apply uint_digits_no_percent.
Qed.

Lemma uint_digits_only c u :
  has_char c "0123456789" = false ->
  has_char c (NilEmpty.string_of_uint u) = false.
Proof.
  intro H. cbn [has_char] in H.
  repeat match type of H with
         | (_ || _) = false => apply orb_false_elim in H as [? H]
         end.
  induction u; cbn [NilEmpty.string_of_uint has_char]; [reflexivity|..];
    rewrite IHu, orb_false_r; assumption.
Qed.

Lemma string_of_N_digits_only c n :
  has_char c "0123456789" = false -> has_char c (string_of_N n) = false.
Proof.
  intro H. unfold string_of_N, NilZero.string_of_uint.
  destruct (N.to_uint n) eqn:E;
    try (rewrite <- E; now apply uint_digits_only).
  cbn [has_char] in H |- *.
  apply orb_false_elim in H as [H _]. now rewrite H.
Qed.

Lemma uint_nonempty u : u <> Decimal.Nil -> NilEmpty.string_of_uint u <> EmptyString.
Proof. destruct u; cbn; congruence. Qed.

Lemma string_of_N_nonempty n : string_of_N n <> EmptyString.
Proof.
  unfold string_of_N, NilZero.string_of_uint.
  destruct (N.to_uint n); cbn; congruence.
Qed.

Lemma fraction_digits_no_percent fuel num den :
  has_char "%" (fraction_digits fuel num den) = false.
Proof.
  revert num. induction fuel as [|f IH]; intro num; cbn [fraction_digits];
    [reflexivity|].
  destruct (num =? 0)%N; [reflexivity|].
  now rewrite has_char_app, string_of_N_no_percent, IH.
Qed.

Lemma unsigned_string_no_percent num den :
  has_char "%" (unsigned_string num den) = false.
Proof.
  unfold unsigned_string. destruct (_ =? 0)%N.
  - apply string_of_N_no_percent.
  - rewrite !has_char_app, string_of_N_no_percent, fraction_digits_no_percent.
    reflexivity.
Qed.

Lemma append_nonempty_l a b : a <> EmptyString -> a +++ b <> EmptyString.
Proof. destruct a; cbn; congruence. Qed.

Lemma unsigned_string_nonempty num den : unsigned_string num den <> EmptyString.
Proof.
  unfold unsigned_string. destruct (_ =? 0)%N.
  - apply string_of_N_nonempty.
  - apply append_nonempty_l, string_of_N_nonempty.
Qed.

(** A printed number holds no percent sign and is not empty. *)
Lemma toString_no_percent x : has_char "%" (toString x) = false.
Proof.
  destruct x as [q|]; [|reflexivity]. unfold toString.
  destruct (Qnum q); [reflexivity | apply unsigned_string_no_percent |].
  rewrite has_char_app, unsigned_string_no_percent. reflexivity.
Qed.

Lemma toString_nonempty x : toString x <> EmptyString.
Proof.
  destruct x as [q|]; [|discriminate]. unfold toString.
  destruct (Qnum q); [discriminate | apply unsigned_string_nonempty |].
  discriminate.
Qed.

End NumFacts.

(* ------------------------------------------------------------------ *)
(** ** The scene normalizer                                            *)
(* ------------------------------------------------------------------ *)

Module NormalizerFacts.
Import Dom Preview DomFacts NumFacts.

Lemma attr_missing_setAttribute_other name name' v a :
  name <> name' ->
  attr_missing name (setAttribute name' v a) = attr_missing name a.
Proof.
  intro H. unfold attr_missing. now rewrite getAttribute_setAttribute_other.
Qed.

Lemma dimension_setAttribute_other name name' v a :
  name <> name' ->
  dimension name (setAttribute name' v a) = dimension name a.
Proof.
  intro H. unfold dimension. now rewrite getAttribute_setAttribute_other.
Qed.

Lemma has_percent_100 : forall s, has_percent s = false -> s <> "100%".
Proof. intros s H ->. discriminate. Qed.

(** A printed number stored as a size is read back as that size and
    needs no further pixels. *)
Lemma dimension_printed name x a :
  dimension name (setAttribute name (Num.toString x) a) = Some (Num.toString x).
Proof.
  unfold dimension. rewrite getAttribute_setAttribute_same.
  pose proof (toString_nonempty x) as Hne.
  pose proof (toString_no_percent x) as Hp.
  destruct (Num.toString x) as [|c s] eqn:E; [congruence|].
  destruct (string_dec (String c s) "100%") as [E1|E1].
  - rewrite E1 in Hp. discriminate.
  - destruct c as [[] [] [] [] [] [] [] []]; try reflexivity.
    destruct s as [|[[] [] [] [] [] [] [] []] s]; try reflexivity.
    destruct s as [|[[] [] [] [] [] [] [] []] s]; try reflexivity.
    destruct s as [|[[] [] [] [] [] [] [] []] s]; try reflexivity.
    destruct s; [congruence | reflexivity].
Qed.

Lemma needs_pixels_printed x : needs_pixels (Some (Num.toString x)) = false.
Proof.
  cbn [needs_pixels]. unfold has_percent. rewrite includes_char.
  apply toString_no_percent.
Qed.

(** The size step, once done, asks for nothing more. *)
Lemma ensure_size_settled name x a :
  needs_pixels (dimension name (ensure_size name (dimension name a) x a)) = false.
Proof.
  unfold ensure_size. destruct (needs_pixels (dimension name a)) eqn:E.
  - rewrite dimension_printed. apply needs_pixels_printed.
  - exact E.
Qed.

Lemma ensure_size_other name name' d x a :
  name <> name' ->
  dimension name (ensure_size name' d x a) = dimension name a.
Proof.
  intro H. unfold ensure_size. destruct (needs_pixels d); [|reflexivity].
  now apply dimension_setAttribute_other.
Qed.

Lemma ensure_size_viewBox name d x a :
  name <> "viewBox" ->
  getAttribute "viewBox" (ensure_size name d x a) = getAttribute "viewBox" a.
Proof.
  intro H. unfold ensure_size. destruct (needs_pixels d); [|reflexivity].
  apply getAttribute_setAttribute_other. congruence.
Qed.

Lemma default_viewBox_nonempty w h : default_viewBox w h <> EmptyString.
Proof.
  unfold default_viewBox. destruct w, h; try discriminate.
  destruct (_ && _); discriminate.
Qed.

(** The viewBox step leaves a non-empty viewBox behind, and the sizes
    as they were. *)
Lemma ensure_viewBox_spec a :
  let '(vb, a1) := ensure_viewBox a in
  vb <> EmptyString /\ getAttribute "viewBox" a1 = Some vb /\
  dimension "width" a1 = dimension "width" a /\
  dimension "height" a1 = dimension "height" a.
Proof.
  unfold ensure_viewBox.
  destruct (getAttribute "viewBox" a) as [[|c v]|] eqn:E.
  - split; [apply default_viewBox_nonempty|].
    rewrite getAttribute_setAttribute_same.
    rewrite !dimension_setAttribute_other by discriminate. auto.
  - repeat split; [discriminate | exact E].
  - split; [apply default_viewBox_nonempty|].
    rewrite getAttribute_setAttribute_same.
    rewrite !dimension_setAttribute_other by discriminate. auto.
Qed.

Lemma ensure_viewBox_present a vb :
  vb <> EmptyString -> getAttribute "viewBox" a = Some vb ->
  ensure_viewBox a = (vb, a).
Proof.
  intros Hne E. unfold ensure_viewBox. rewrite E.
  destruct vb; [congruence | reflexivity].
Qed.

Lemma ensure_size_done name d x a :
  needs_pixels d = false -> ensure_size name d x a = a.
Proof. intro H. unfold ensure_size. now rewrite H. Qed.

(** Step 2 is idempotent. *)
Lemma ensure_dimensions_idempotent a :
  ensure_dimensions (ensure_dimensions a) = ensure_dimensions a.
Proof.
  remember (ensure_dimensions a) as r eqn:Er.
  unfold ensure_dimensions in Er.
  pose proof (ensure_viewBox_spec a) as Hspec.
  destruct (ensure_viewBox a) as [vb a1].
  destruct Hspec as (Hne & Hvb & Hw & Hh).
  set (parts := map Num.parseFloat (Str.split_space_comma vb)) in *.
  destruct (4 <=? List.length parts) eqn:Hlen.
  - set (a2 := ensure_size "width" (dimension "width" a) (nth 2 parts Num.NaN) a1) in *.
    assert (Hvb3 : getAttribute "viewBox" r = Some vb).
    { rewrite Er. unfold a2. rewrite !ensure_size_viewBox by discriminate. exact Hvb. }
    assert (Hw3 : needs_pixels (dimension "width" r) = false).
    { rewrite Er. rewrite ensure_size_other by discriminate.
      unfold a2. rewrite <- Hw. apply ensure_size_settled. }
    assert (Hh3 : needs_pixels (dimension "height" r) = false).
    { rewrite Er. replace (dimension "height" a) with (dimension "height" a2).
      - apply ensure_size_settled.
      - unfold a2. rewrite ensure_size_other by discriminate. exact Hh. }
    clear Er. unfold ensure_dimensions.
    rewrite (ensure_viewBox_present r vb Hne Hvb3).
    fold parts. rewrite Hlen.
    rewrite (ensure_size_done "width") by exact Hw3.
    now rewrite (ensure_size_done "height") by exact Hh3.
  - rewrite Er. unfold ensure_dimensions.
    rewrite (ensure_viewBox_present a1 vb Hne Hvb).
    fold parts. now rewrite Hlen.
Qed.

Lemma ensure_namespace_present a : attr_missing "xmlns" (ensure_namespace a) = false.
Proof.
  unfold ensure_namespace. destruct (attr_missing "xmlns" a) eqn:E; [|exact E].
  unfold attr_missing. now rewrite getAttribute_setAttribute_same.
Qed.

Lemma ensure_dimensions_keeps_namespace a :
  attr_missing "xmlns" (ensure_dimensions a) = attr_missing "xmlns" a.
Proof.
  unfold ensure_dimensions, ensure_viewBox, ensure_size.
  destruct (getAttribute "viewBox" a) as [[|c v]|];
    repeat match goal with
           | |- context [if ?b then _ else _] => destruct b
           end;
    rewrite ?attr_missing_setAttribute_other by discriminate; reflexivity.
Qed.

(** Steps 1 and 2 together are idempotent on the attributes of the
    root. *)
Lemma root_attributes_idempotent a :
  ensure_dimensions (ensure_namespace (ensure_dimensions (ensure_namespace a))) =
  ensure_dimensions (ensure_namespace a).
Proof.
  set (b := ensure_dimensions (ensure_namespace a)).
  assert (H : attr_missing "xmlns" b = false).
  { unfold b. rewrite ensure_dimensions_keeps_namespace.
    apply ensure_namespace_present. }
  unfold ensure_namespace at 1. rewrite H. apply ensure_dimensions_idempotent.
Qed.

Lemma assign_ids_Elem suffix i t a k :
  assign_ids suffix i (Elem t a k) =
    let layer := is_layer t in
    let a' :=
      if layer && String.eqb (id_of (Elem t a k)) EmptyString
      then setAttribute "id" (fresh_id suffix t i) a
      else a in
    let '(i2, k') := assign_ids_list suffix (if layer then S i else i) k in
    (i2, Elem t a' k').
Proof.
  cbn [assign_ids]. cbv zeta.
  match goal with
  | |- (let '(_, _) := ?F ?start k in _) = _ =>
      enough (H : forall l m, F m l = assign_ids_list suffix m l) by now rewrite H
  end.
  induction l as [|c rest IH]; intro m; cbn [assign_ids_list]; [reflexivity|].
  destruct (assign_ids suffix m c) as [m1 c']. now rewrite IH.
Qed.

Lemma fresh_id_nonempty suffix t i : fresh_id suffix t i <> EmptyString.
Proof. unfold fresh_id. destruct (Str.toLowerCase t); discriminate. Qed.

(** A second pass over a tree whose layers have ids changes nothing,
    whatever the clock reads. *)
Lemma assign_ids_idempotent suffix suffix' :
  forall n i,
    assign_ids suffix' i (snd (assign_ids suffix i n)) = assign_ids suffix i n.
Proof.
  intro n.
  apply (node_rect'
           (fun n => forall i,
                assign_ids suffix' i (snd (assign_ids suffix i n)) =
                assign_ids suffix i n)
           (fun l => forall i,
                assign_ids_list suffix' i (snd (assign_ids_list suffix i l)) =
                assign_ids_list suffix i l)).
  - intros t a k IH i. rewrite (assign_ids_Elem suffix). cbv zeta.
    specialize (IH (if is_layer t then S i else i)).
    destruct (assign_ids_list suffix (if is_layer t then S i else i) k)
      as [j k'] eqn:Ek.
    cbn [snd] in *. rewrite assign_ids_Elem. cbv zeta. rewrite IH.
    f_equal. f_equal.
    destruct (is_layer t); cbn [andb]; [|reflexivity].
    cbn [id_of].
    destruct (getAttribute "id" a) as [v|] eqn:Eid; cbn [id_of].
    + destruct (String.eqb_spec v EmptyString) as [->|Hv].
      * rewrite getAttribute_setAttribute_same.
        destruct (String.eqb_spec (fresh_id suffix t i) EmptyString) as [E|_];
          [now apply fresh_id_nonempty in E | reflexivity].
      * rewrite Eid. now destruct (String.eqb_spec v EmptyString).
    + cbn. rewrite getAttribute_setAttribute_same.
      destruct (String.eqb_spec (fresh_id suffix t i) EmptyString) as [E|_];
        [now apply fresh_id_nonempty in E | reflexivity].
  - reflexivity.
  - reflexivity.
  - intros c l IHc IHl i. cbn [assign_ids_list].
    specialize (IHc i). destruct (assign_ids suffix i c) as [j c'] eqn:Ec.
    specialize (IHl j). destruct (assign_ids_list suffix j l) as [j' l'] eqn:El.
    cbn [snd] in *. cbn [assign_ids_list]. now rewrite IHc, IHl.
Qed.

Lemma assign_ids_list_idempotent suffix suffix' l i :
  assign_ids_list suffix' i (snd (assign_ids_list suffix i l)) =
  assign_ids_list suffix i l.
Proof.
  revert i. induction l as [|c l IH]; intro i; [reflexivity|].
  cbn [assign_ids_list].
  pose proof (assign_ids_idempotent suffix suffix' c i) as Hc.
  destruct (assign_ids suffix i c) as [j c'].
  specialize (IH j). destruct (assign_ids_list suffix j l) as [j' l'].
  cbn [snd] in *. cbn [assign_ids_list]. now rewrite Hc, IH.
Qed.

(** The three steps on the tree are idempotent, whatever the clock
    reads at either pass. *)
Lemma normalize_tree_idempotent suffix suffix' svg :
  normalize_tree suffix' (normalize_tree suffix svg) = normalize_tree suffix svg.
Proof.
  destruct svg as [t a k|s]; [|reflexivity]. cbn [normalize_tree].
  rewrite root_attributes_idempotent, assign_ids_list_idempotent. reflexivity.
Qed.

(** After normalization every layer below the root has an id. *)
Lemma assign_ids_all_named suffix :
  forall n i x, In x (elements (snd (assign_ids suffix i n))) ->
                is_layer (tagName x) = true -> id_of x <> EmptyString.
Proof.
  intro n.
  apply (node_rect'
           (fun n => forall i x,
                In x (elements (snd (assign_ids suffix i n))) ->
                is_layer (tagName x) = true -> id_of x <> EmptyString)
           (fun l => forall i x,
                In x (flat_map elements (snd (assign_ids_list suffix i l))) ->
                is_layer (tagName x) = true -> id_of x <> EmptyString)).
  - intros t a k IH i x. rewrite assign_ids_Elem. cbv zeta.
    specialize (IH (if is_layer t then S i else i) x).
    destruct (assign_ids_list suffix _ k) as [j k']. cbn [snd] in *.
    rewrite elements_Elem. intros [<-|Hin] Hl; [|now apply IH].
    cbn [tagName] in Hl. rewrite Hl. cbn [andb id_of].
    destruct (getAttribute "id" a) as [v|] eqn:Eid.
    + destruct (String.eqb_spec v EmptyString) as [->|Hv].
      * rewrite getAttribute_setAttribute_same. apply fresh_id_nonempty.
      * now rewrite Eid.
    + cbn. rewrite getAttribute_setAttribute_same. apply fresh_id_nonempty.
  - intros s i x [].
  - intros i x [].
  - intros c l IHc IHl i x. cbn [assign_ids_list].
    specialize (IHc i x). destruct (assign_ids suffix i c) as [j c'].
    specialize (IHl j x). destruct (assign_ids_list suffix j l) as [j' l'].
    cbn [snd flat_map] in *. intros Hin Hl.
    apply in_app_or in Hin as [H|H]; [now apply IHc | now apply IHl].
Qed.

Section Browser.

Variable parse : string -> option node.
Variable serialize : node -> string.

(** C9: normalizing a normalized document gives the same text again,
    whatever the clock reads at either pass, provided the browser reads
    back what it wrote: parsing the serialization of the normalized tree
    gives that tree. *)
Theorem normalizeSvg_idempotent (suffix suffix' : nat -> string) (s : string) :
  (forall svg, parse s = Some svg ->
               parse (serialize (normalize_tree suffix svg)) =
               Some (normalize_tree suffix svg)) ->
  normalizeSvg parse serialize suffix' (normalizeSvg parse serialize suffix s) =
  normalizeSvg parse serialize suffix s.
Proof.
  intro Hround. destruct s as [|c s]; [reflexivity|].
  remember (normalizeSvg parse serialize suffix (String c s)) as r eqn:Er.
  unfold normalizeSvg in Er.
  destruct (parse (String c s)) as [svg|] eqn:Hp.
  - specialize (Hround svg eq_refl). rewrite <- Er in Hround.
    unfold normalizeSvg. destruct r as [|c' s']; [reflexivity|].
    rewrite Hround, normalize_tree_idempotent. now rewrite <- Er.
  - rewrite Er. unfold normalizeSvg. now rewrite Hp.
Qed.

End Browser.

Lemma normalizeSvg_idempotent_witness :
  let svg :=
    Elem "svg" [("width", "100%"); ("height", "64")]
      [Elem "g" [] [Elem "circle" [("cx", "5"); ("cy", "5"); ("r", "2")] []];
       Elem "rect" [("id", "r"); ("x", "10"); ("y", "10")] []] in
  let first := fun _ : nat => "k3x9a" in
  let second := fun _ : nat => "k3x9b" in
  (forall d, Xml.read (Xml.write svg) = Some d ->
             Xml.read (Xml.write (normalize_tree first d)) =
             Some (normalize_tree first d)) /\
  normalizeSvg Xml.read Xml.write second
    (normalizeSvg Xml.read Xml.write first (Xml.write svg)) =
  normalizeSvg Xml.read Xml.write first (Xml.write svg).
Proof.
  cbv zeta.
  assert (H : forall d,
             Xml.read (Xml.write
               (Elem "svg" [("width", "100%"); ("height", "64")]
                  [Elem "g" [] [Elem "circle" [("cx", "5"); ("cy", "5"); ("r", "2")] []];
                   Elem "rect" [("id", "r"); ("x", "10"); ("y", "10")] []])) = Some d ->
             Xml.read (Xml.write (normalize_tree (fun _ : nat => "k3x9a") d)) =
             Some (normalize_tree (fun _ : nat => "k3x9a") d)).
  { intros d Hd. vm_compute in Hd. injection Hd as <-. vm_compute. reflexivity. }
  split; [exact H|].
  apply (normalizeSvg_idempotent Xml.read Xml.write). exact H.
Defined.

End NormalizerFacts.

(* ------------------------------------------------------------------ *)
(** ** Searches after edits                                            *)
(* ------------------------------------------------------------------ *)

Module SearchFacts.
Import Dom DomFacts.

Lemma find_first_app p l1 l2 :
  find_first p (l1 ++ l2) =
    match find_first p l1 with
    | Some x => Some x
    | None => find_first p l2
    end.
Proof.
  induction l1 as [|c l1 IH]; cbn [app find_first]; [reflexivity|].
  destruct (find_in p c); [reflexivity | exact IH].
Qed.

(** What a search returns satisfies the predicate. *)
Lemma find_in_sat p :
  forall n x, find_in p n = Some x -> p x = true.
Proof.
  intro n.
  apply (node_rect'
           (fun n => forall x, find_in p n = Some x -> p x = true)
           (fun l => forall x, find_first p l = Some x -> p x = true)).
  - intros t a k IH x. rewrite find_in_Elem.
    destruct (p (Elem t a k)) eqn:E; [intro H; injection H as <-; exact E|].
    apply IH.
  - intros s x. cbn [find_in]. destruct (p (Text s)) eqn:E; [|discriminate].
    intro H; injection H as <-; exact E.
  - discriminate.
  - intros c l IHc IHl x. cbn [find_first].
    destruct (find_in p c) eqn:E; [|apply IHl].
    intro H; injection H as <-. now apply IHc.
Qed.


(** An edit whose result starts with the siblings it was handed can be
    run with none and given them afterwards. *)
Lemma edit_from_pre p k :
  (forall b c a, k b c a = b ++ k [] c a) ->
  forall l pre,
    edit_from p k pre l = option_map (app pre) (edit_from p k [] l).
Proof.
  intros Hk. induction l as [|c rest IH]; intro pre; cbn [edit_from];
    [reflexivity|].
  destruct (p c); [cbn; now rewrite Hk|].
  destruct (edit_in p k c); [reflexivity|].
  rewrite (IH (pre ++ [c])), (IH ([] ++ [c])).
  destruct (edit_from p k [] rest); cbn; [|reflexivity].
  now rewrite <- app_assoc.
Qed.

(** Where the search finds a node the edit takes place. *)
Lemma edit_present p k :
  forall n x, find_in p n = Some x -> p n = false ->
              exists n', edit_in p k n = Some n'.
Proof.
  intro n.
  apply (node_rect'
           (fun n => forall x, find_in p n = Some x -> p n = false ->
                               exists n', edit_in p k n = Some n')
           (fun l => forall x pre, find_first p l = Some x ->
                                   exists l', edit_from p k pre l = Some l')).
  - intros t a kids IH x H Hp. rewrite find_in_Elem, Hp in H.
    destruct (IH x [] H) as [l' E]. rewrite edit_in_Elem, E. now eexists.
  - intros s x H Hp. cbn [find_in] in H. rewrite Hp in H. discriminate.
  - discriminate.
  - intros c l IHc IHl x pre H. cbn [find_first] in H. cbn [edit_from].
    destruct (p c) eqn:Hp; [now eexists|].
    destruct (find_in p c) as [y|] eqn:Hc.
    + destruct (IHc y eq_refl eq_refl) as [c' E]. rewrite E. now eexists.
    + rewrite (edit_absent p k c Hc). now apply (IHl x).
Qed.

Section Shallow.

(** A predicate that looks at the tag and the attributes of an element
    only, and holds of no text node: [target id], [has_tag t]. *)
Variable q : node -> bool.
Hypothesis q_shallow : forall t a k k', q (Elem t a k) = q (Elem t a k').
Hypothesis q_text : forall s, q (Text s) = false.





End Shallow.

End SearchFacts.

(* ------------------------------------------------------------------ *)
(** ** The gradient callback on the tree                               *)
(* ------------------------------------------------------------------ *)

Module GradientFacts.
Import Dom Editor DomFacts SearchFacts.

Lemma target_shallow id t a k k' :
  target id (Elem t a k) = target id (Elem t a k').
Proof. reflexivity. Qed.

Lemma target_text id s : target id (Text s) = false.
Proof. unfold target. cbn. apply andb_false_r. Qed.



Section InPlace.

(** An edit that rewrites the attributes of the first node satisfying
    [q]. *)
Variable q : node -> bool.
Hypothesis q_shallow : forall t a k k', q (Elem t a k) = q (Elem t a k').
Hypothesis q_text : forall s, q (Text s) = false.
Variable F : attributes -> attributes.
Hypothesis q_kept : forall t a k, q (Elem t (F a) k) = q (Elem t a k).

Lemma in_place_pre b c a : in_place F b c a = b ++ in_place F [] c a.
Proof. reflexivity. Qed.

Lemma q_set_attrs x : q (set_attrs F x) = q x.
Proof. destruct x as [t a k|s]; [apply q_kept | reflexivity]. Qed.

(** After the edit the search returns the rewritten node. *)
Lemma update_found :
  forall l x, find_first q l = Some x ->
              exists l', edit_from q (in_place F) [] l = Some l' /\
                         find_first q l' = Some (set_attrs F x).
Proof.
  intro l.
  apply (forest_rect'
           (fun n => forall x, find_in q n = Some x -> q n = false ->
                      exists n', edit_in q (in_place F) n = Some n' /\
                                 find_in q n' = Some (set_attrs F x))
           (fun l => forall x, find_first q l = Some x ->
                      exists l', edit_from q (in_place F) [] l = Some l' /\
                                 find_first q l' = Some (set_attrs F x))).
  - intros t a kids IH x H Hq. rewrite find_in_Elem, Hq in H.
    destruct (IH x H) as (kids' & E & Hf). exists (Elem t a kids').
    rewrite edit_in_Elem, E. split; [reflexivity|].
    rewrite find_in_Elem, (q_shallow t a kids' kids), Hq. exact Hf.
  - intros s x H. cbn [find_in] in H. rewrite q_text in H. discriminate.
  - discriminate.
  - intros c rest IHc IHr x H. cbn [find_first] in H. cbn [edit_from].
    destruct (q c) eqn:Hq.
    + assert (Hc : find_in q c = Some c)
        by (destruct c; cbn [find_in]; now rewrite Hq).
      rewrite Hc in H. injection H as <-.
      exists (in_place F [] c rest). split; [reflexivity|].
      unfold in_place. cbn [app find_first].
      assert (Hq' : q (set_attrs F c) = true) by now rewrite q_set_attrs.
      destruct (set_attrs F c); cbn [find_in]; now rewrite Hq'.
    + destruct (find_in q c) as [y|] eqn:Hc.
      * injection H as <-. destruct (IHc y eq_refl eq_refl) as (c' & E & Hf).
        rewrite E. exists ([] ++ c' :: rest). split; [reflexivity|].
        cbn [app find_first]. now rewrite Hf.
      * rewrite (edit_absent q (in_place F) c Hc).
        destruct (IHr x H) as (rest' & E & Hf).
        rewrite (edit_from_pre q (in_place F) in_place_pre), E.
        exists (c :: rest'). split; [reflexivity|].
        cbn [find_first]. now rewrite Hc.
Qed.


End InPlace.

Section Append.

(** An edit that appends the subtree [g] to the first node satisfying
    [p]. *)
Variable p : node -> bool.
Hypothesis p_text : forall s, p (Text s) = false.
Variable g : node.





End Append.


Lemma style_removeProperty_other name prop a :
  name <> "style" ->
  getAttribute name (style_removeProperty prop a) = getAttribute name a.
Proof.
  intro H. unfold style_removeProperty.
  destruct (getAttribute "style" a); [|reflexivity].
  now apply getAttribute_setAttribute_other.
Qed.







Lemma find_singleton p n : find_first p [n] = find_in p n.
Proof. cbn [find_first]. now destruct (find_in p n). Qed.


End GradientFacts.

(* ------------------------------------------------------------------ *)
(** ** Strings: trimming, cutting and splitting                        *)
(* ------------------------------------------------------------------ *)

Module StrFacts.
Import Str NumFacts.

Lemma append_assoc (a b c : string) : (a +++ b) +++ c = a +++ (b +++ c).
Proof. induction a as [|x a IH]; cbn; [reflexivity | now rewrite IH]. Qed.

Lemma append_empty_r (a : string) : a +++ EmptyString = a.
Proof. induction a as [|x a IH]; cbn; [reflexivity | now rewrite IH]. Qed.

Lemma lower_char_space c : is_space (lower_char c) = is_space c.
Proof. destruct c as [[] [] [] [] [] [] [] []]; reflexivity. Qed.



Lemma toLowerCase_empty s : toLowerCase s = EmptyString -> s = EmptyString.
Proof. destruct s; [reflexivity | discriminate]. Qed.



(** *** Trimming *)




Lemma trimStart_clean s : starts_clean (trimStart s) = true.
Proof.
  induction s as [|c s IH]; [reflexivity|]. cbn [trimStart].
  destruct (is_space c) eqn:E; [exact IH|]. cbn. now rewrite E.
Qed.

Lemma trimStart_of_clean s : starts_clean s = true -> trimStart s = s.
Proof.
  destruct s as [|c s]; [reflexivity|]. cbn.
  now destruct (is_space c).
Qed.

Lemma trimEnd_clean s : starts_clean s = true -> starts_clean (trimEnd s) = true.
Proof.
  destruct s as [|c s]; [reflexivity|]. cbn [trimEnd starts_clean].
  destruct (is_space c) eqn:E; [discriminate|]. intros _.
  destruct (trimEnd s); cbn; now rewrite E.
Qed.

Lemma trimEnd_idem s : trimEnd (trimEnd s) = trimEnd s.
Proof.
  induction s as [|c s IH]; [reflexivity|]. cbn [trimEnd].
  destruct (trimEnd s) as [|d r] eqn:E.
  - destruct (is_space c) eqn:Ec; [reflexivity|]. cbn [trimEnd]. now rewrite Ec.
  - cbn [trimEnd]. cbn [trimEnd] in IH. now rewrite IH.
Qed.



Lemma trimEnd_lower s : trimEnd (toLowerCase s) = toLowerCase (trimEnd s).
Proof.
  induction s as [|c s IH]; [reflexivity|]. cbn [toLowerCase trimEnd].
  rewrite IH, lower_char_space.
  destruct (trimEnd s); cbn [toLowerCase]; [|reflexivity].
  now destruct (is_space c).
Qed.



Lemma trimEnd_blank w : Css.blank w = true -> trimEnd w = EmptyString.
Proof.
  induction w as [|c w IH]; [reflexivity|]. cbn [Css.blank trimEnd].
  intro H. apply andb_prop in H as [Hc Hw]. now rewrite (IH Hw), Hc.
Qed.

Lemma trimEnd_app_blank s w :
  Css.blank w = true -> trimEnd (s +++ w) = trimEnd s.
Proof.
  intro H. induction s as [|c s IH]; cbn [String.append trimEnd].
  - now apply trimEnd_blank.
  - now rewrite IH.
Qed.

(** The white space in front of a string, and what follows. *)
Lemma trimStart_split s :
  exists w, Css.blank w = true /\ s = w +++ trimStart s.
Proof.
  induction s as [|c s (w & Hw & E)].
  - now exists EmptyString.
  - cbn [trimStart]. destruct (is_space c) eqn:Ec.
    + exists (String c w). cbn. rewrite Ec, Hw. split; [reflexivity|].
      now rewrite <- E.
    + now exists EmptyString.
Qed.


(** *** Prefixes, cuts and splits *)

Lemma prefix_split p s :
  String.prefix p s = true -> s = p +++ drop (String.length p) s.
Proof.
  revert s. induction p as [|c p IH]; intro s; [reflexivity|].
  destruct s as [|d s]; cbn [String.prefix]; [discriminate|].
  destruct (Ascii.ascii_dec c d) as [->|]; [|discriminate].
  intro H. cbn. f_equal. now apply IH.
Qed.





End StrFacts.

(* ------------------------------------------------------------------ *)
(** ** The inline style after [removeProperty]                         *)
(* ------------------------------------------------------------------ *)

Module CssFacts.
Import Str Css NumFacts StrFacts.





















End CssFacts.

(* ------------------------------------------------------------------ *)
(** ** Reading the fill back after [applyGradient]                     *)
(* ------------------------------------------------------------------ *)

Module ReadBackFacts.
Import Dom Editor DomFacts SearchFacts GradientFacts NumFacts StrFacts.

Lemma map_nodes_ext f g :
  (forall n, f n = g n) -> forall n, map_nodes f n = map_nodes g n.
Proof.
  intros H n.
  apply (node_rect'
           (fun n => map_nodes f n = map_nodes g n)
           (fun l => map (map_nodes f) l = map (map_nodes g) l)).
  - intros t a k IH. now rewrite !map_nodes_Elem, IH, H.
  - intro s. apply H.
  - reflexivity.
  - intros c l IHc IHl. cbn [map]. now rewrite IHc, IHl.
Qed.

Lemma clean_node_attrs n : clean_node n = set_attrs clean_attrs n.
Proof.
  destruct n as [t a k|s]; [|reflexivity].
  unfold clean_node, clean_attrs. cbn [has_class set_attrs].
  now destruct (existsb (String.eqb "selected-outline") (class_tokens a)).
Qed.

Lemma cleanup_attrs svg : cleanup svg = map_nodes (set_attrs clean_attrs) svg.
Proof. unfold cleanup. apply map_nodes_ext, clean_node_attrs. Qed.

Section Mapped.

(** A search after the attributes of every element were rewritten by
    [F], for a predicate that [F] does not affect. *)
Variable q : node -> bool.
Hypothesis q_shallow : forall t a k k', q (Elem t a k) = q (Elem t a k').
Hypothesis q_text : forall s, q (Text s) = false.
Variable F : attributes -> attributes.
Hypothesis q_kept : forall t a k, q (Elem t (F a) k) = q (Elem t a k).

Lemma find_first_mapped :
  forall l, find_first q (map (map_nodes (set_attrs F)) l) =
            option_map (map_nodes (set_attrs F)) (find_first q l).
Proof.
  intro l.
  apply (forest_rect'
           (fun n => find_in q (map_nodes (set_attrs F) n) =
                     option_map (map_nodes (set_attrs F)) (find_in q n))
           (fun l => find_first q (map (map_nodes (set_attrs F)) l) =
                     option_map (map_nodes (set_attrs F)) (find_first q l))).
  - intros t a k IH. rewrite map_nodes_Elem. cbn [set_attrs].
    rewrite !find_in_Elem, q_kept,
      (q_shallow t a (map (map_nodes (set_attrs F)) k) k).
    destruct (q (Elem t a k)); [reflexivity | exact IH].
  - intro s. cbn [map_nodes set_attrs find_in]. now rewrite q_text.
  - reflexivity.
  - intros c rest IHc IHr. cbn [map find_first]. rewrite IHc.
    destruct (find_in q c); [reflexivity | exact IHr].
Qed.

End Mapped.

(** *** Attributes through the clean-up *)

Lemma classList_remove_other name c a :
  name <> "class" ->
  getAttribute name (classList_remove c a) = getAttribute name a.
Proof.
  intro H. unfold classList_remove.
  destruct (getAttribute "class" a); [|reflexivity].
  now apply getAttribute_setAttribute_other.
Qed.

Lemma clear_outline_other name a :
  name <> "style" -> getAttribute name (clear_outline a) = getAttribute name a.
Proof.
  intro H. unfold clear_outline.
  destruct (getAttribute "style" a); [|reflexivity].
  now apply getAttribute_setAttribute_other.
Qed.

Lemma clean_attrs_other name a :
  name <> "class" -> name <> "style" ->
  getAttribute name (clean_attrs a) = getAttribute name a.
Proof.
  intros Hc Hs. unfold clean_attrs.
  destruct (existsb _ _); [|reflexivity].
  now rewrite clear_outline_other, classList_remove_other.
Qed.

Lemma target_clean_attrs id t a k :
  target id (Elem t (clean_attrs a) k) = target id (Elem t a k).
Proof.
  unfold target, has_id. now rewrite clean_attrs_other by discriminate.
Qed.







(** *** The id in the reference *)



Lemma stamp_nonempty prefix now : stamp prefix now <> EmptyString.
Proof.
  unfold stamp. pose proof (string_of_N_nonempty now) as H.
  destruct prefix; [exact H | discriminate].
Qed.




Section Handlers.

Variable parse : string -> option node.
Variable serialize : node -> string.


End Handlers.


End ReadBackFacts.

(* ================================================================== *)
(** * Part III: further properties of the engine                       *)
(* ================================================================== *)

(* ------------------------------------------------------------------ *)
(** ** The history over a whole session                                *)
(* ------------------------------------------------------------------ *)

Module SessionFacts.
Import History HistoryFacts.

Lemma act_consistent st a : consistent st -> consistent (act st a).
Proof.
  destruct a as [c|n]; cbn [act]; intro H.
  - apply handleUpdate_consistent.
  - now apply step_consistent.
Qed.

Lemma load_consistent doc : consistent (load doc).
Proof. unfold consistent, load; cbn. split; [lia | reflexivity]. Qed.

Lemma session_consistent acts :
  forall st, consistent st -> consistent (session acts st).
Proof.
  induction acts as [|a acts IH]; intros st H; [exact H|].
  cbn [session fold_left]. apply IH. now apply act_consistent.
Qed.

Lemma act_first doc st a :
  consistent st -> hd_error (history st) = Some doc ->
  hd_error (history (act st a)) = Some doc.
Proof.
  intros [Hidx _] Hhd. destruct a as [c|n]; cbn [act].
  - unfold handleUpdate; cbn [history].
    destruct (history st) as [|d rest]; [discriminate|].
    rewrite Nat.add_1_r. cbn [firstn app hd_error]. exact Hhd.
  - now rewrite step_history.
Qed.

Lemma session_first doc acts :
  forall st, consistent st -> hd_error (history st) = Some doc ->
             hd_error (history (session acts st)) = Some doc.
Proof.
  induction acts as [|a acts IH]; intros st Hc Hhd; [exact Hhd|].
  cbn [session fold_left]. apply IH.
  - now apply act_consistent.
  - now apply act_first.
Qed.

(** Undoing as often as the index says ends at the first entry. *)
Lemma undo_to_start :
  forall k st, consistent st -> historyIndex st = k ->
    let st' := navigate (repeat Undo k) st in
    historyIndex st' = 0 /\ history st' = history st /\
    currentContent st' = hd_error (history st).
Proof.
  induction k as [|k IH]; intros st Hc Hk; cbv zeta.
  - cbn [repeat navigate fold_left]. repeat split; [exact Hk|].
    destruct Hc as [Hlt Hcur]. rewrite Hcur, Hk.
    now destruct (history st).
  - cbn [repeat navigate fold_left step].
    assert (Hu : historyIndex (undo st) = k).
    { unfold undo. rewrite Hk. cbn [Nat.ltb Nat.leb historyIndex]. lia. }
    destruct (IH (undo st) (undo_consistent st Hc) Hu) as (H1 & H2 & H3).
    rewrite undo_history in H2, H3. now repeat split.
Qed.

(** X1. Whatever a session does after a document was loaded (commits,
    undos and redos in any order), the index addresses an entry of the
    history, the current document is that entry (never [undefined]),
    the first entry is still the loaded document, and undoing as often
    as the index says brings the loaded document back. *)
Theorem session_keeps_history_consistent (doc : string) (acts : list action) :
  let st := session acts (load doc) in
  historyIndex st < List.length (history st) /\
  currentContent st = nth_error (history st) (historyIndex st) /\
  (exists c, currentContent st = Some c) /\
  hd_error (history st) = Some doc /\
  currentContent (navigate (repeat Undo (historyIndex st)) st) = Some doc.
Proof.
  intro st.
  assert (Hc : consistent st)
    by (apply session_consistent, load_consistent).
  assert (Hhd : hd_error (history st) = Some doc)
    by (apply session_first; [apply load_consistent | reflexivity]).
  destruct Hc as [Hlt Hcur]. split; [exact Hlt|]. split; [exact Hcur|].
  split.
  - rewrite Hcur. destruct (nth_error (history st) (historyIndex st)) eqn:E.
    + now eexists.
    + apply nth_error_None in E. lia.
  - split; [exact Hhd|].
    destruct (undo_to_start (historyIndex st) st (conj Hlt Hcur) eq_refl)
      as (_ & _ & H3).
    now rewrite H3.
Qed.

(** An undo right after a commit, in a consistent history. *)
Lemma undo_handleUpdate st txt :
  consistent st ->
  undo (handleUpdate st txt) =
    mkState (history (handleUpdate st txt)) (historyIndex st) (currentContent st).
Proof.
  intros [Hlt Hcur].
  assert (Hlen : List.length (firstn (historyIndex st + 1) (history st)) =
                 historyIndex st + 1)
    by (rewrite length_firstn; lia).
  assert (Hidx : historyIndex (handleUpdate st txt) = historyIndex st + 1).
  { unfold handleUpdate; cbn [historyIndex].
    rewrite length_app, Hlen; cbn [List.length]. lia. }
  unfold undo. rewrite Hidx.
  replace (0 <? historyIndex st + 1) with true
    by (symmetry; apply Nat.ltb_lt; lia).
  replace (historyIndex st + 1 - 1) with (historyIndex st) by lia.
  f_equal. unfold handleUpdate; cbn [history].
  rewrite nth_error_app1 by lia.
  rewrite nth_error_firstn.
  replace (historyIndex st <? historyIndex st + 1) with true
    by (symmetry; apply Nat.ltb_lt; lia).
  now rewrite Hcur.
Qed.

(** X2. In a session, an undo right after a commit shows the document
    that was current before the commit, and the redo after that undo
    restores the committed state exactly. *)
Theorem undo_reverts_last_commit (doc : string) (acts : list action)
    (newContent : string) :
  let st := session acts (load doc) in
  let committed := handleUpdate st newContent in
  currentContent (undo committed) = currentContent st /\
  historyIndex (undo committed) = historyIndex st /\
  redo (undo committed) = committed.
Proof.
  intros st committed.
  assert (Hc : consistent st)
    by (apply session_consistent, load_consistent).
  destruct Hc as [Hlt Hcur].
  assert (Hlen : List.length (firstn (historyIndex st + 1) (history st)) =
                 historyIndex st + 1)
    by (rewrite length_firstn; lia).
  assert (Hidx : historyIndex committed = historyIndex st + 1).
  { unfold committed, handleUpdate; cbn [historyIndex].
    rewrite length_app, Hlen; cbn [List.length]. lia. }
  assert (Hundo : undo committed =
                  mkState (history committed) (historyIndex st)
                          (currentContent st)).
  { unfold undo. rewrite Hidx.
    replace (0 <? historyIndex st + 1) with true
      by (symmetry; apply Nat.ltb_lt; lia).
    replace (historyIndex st + 1 - 1) with (historyIndex st) by lia.
    f_equal. unfold committed, handleUpdate; cbn [history].
    rewrite nth_error_app1 by lia.
    rewrite nth_error_firstn.
    replace (historyIndex st <? historyIndex st + 1) with true
      by (symmetry; apply Nat.ltb_lt; lia).
    now rewrite Hcur. }
  rewrite Hundo. cbn [currentContent historyIndex].
  split; [reflexivity|]. split; [reflexivity|].
  unfold redo; cbn [historyIndex history].
  assert (Hl : List.length (history committed) = historyIndex st + 2).
  { unfold committed, handleUpdate; cbn [history].
    rewrite length_app, Hlen; cbn [List.length]. lia. }
  rewrite Hl.
  replace (historyIndex st <? historyIndex st + 2 - 1) with true
    by (symmetry; apply Nat.ltb_lt; lia).
  unfold committed at 3. unfold handleUpdate.
  fold committed. f_equal.
  - unfold committed, handleUpdate; cbn [history].
    rewrite length_app, Hlen; cbn [List.length]. lia.
  - unfold committed, handleUpdate; cbn [history].
    rewrite nth_error_app2 by lia. rewrite Hlen.
    now replace (historyIndex st + 1 - (historyIndex st + 1)) with 0 by lia.
Qed.

End SessionFacts.

(* ------------------------------------------------------------------ *)
(** ** The resize and skew handles                                     *)
(* ------------------------------------------------------------------ *)

Module HandleFacts.
Import Gesture.
Local Open Scope Q_scope.

(** X3. A drag touches only the channels of its kind.  The rotate
    handle leaves both scales and both skews as they were at pointer
    down, with or without the modifier key.  A resize handle never
    changes the rotation; dragged plainly it leaves both skews alone,
    dragged with Ctrl or Meta it leaves both scales alone. *)
Theorem drag_touches_only_its_channels (h : handle) (box : option bbox)
    (start : transform) (ca sa x y : Q) :
  let plain := handleMove h box start (mkMove ca sa x y false) in
  let skewed := handleMove h box start (mkMove ca sa x y true) in
  match h with
  | rotate_handle =>
      plain = skewed /\
      scaleX plain = scaleX start /\ scaleY plain = scaleY start /\
      skewX plain = skewX start /\ skewY plain = skewY start
  | _ =>
      rotate plain = rotate start /\ rotate skewed = rotate start /\
      skewX plain = skewX start /\ skewY plain = skewY start /\
      scaleX skewed = scaleX start /\ scaleY skewed = scaleY start
  end.
Proof. destruct h; cbn; repeat split; reflexivity. Qed.

(** X4. The side handles act on one axis and mirror each other.  A
    plain drag of the top or bottom handle leaves the horizontal scale
    alone, one of the left or right handle the vertical scale; the top
    handle dragged by [y] scales as the bottom handle dragged by [-y],
    and the left handle dragged by [x] as the right handle dragged by
    [-x]; a resize handle whose pointer has not moved leaves every
    channel at its value at pointer down. *)
Theorem side_handles_mirror (box : option bbox) (start : transform)
    (ca sa x y : Q) (skew : bool) :
  let drag := fun h x y => handleMove h box start (mkMove ca sa x y false) in
  scaleX (drag n x y) = scaleX start /\
  scaleX (drag s x y) = scaleX start /\
  scaleY (drag w x y) = scaleY start /\
  scaleY (drag e x y) = scaleY start /\
  scaleY (drag n x y) == scaleY (drag s x (- y)) /\
  scaleX (drag w x y) == scaleX (drag e (- x) y) /\
  (forall h, h <> rotate_handle ->
     let still := handleMove h box start (mkMove ca sa 0 0 skew) in
     rotate still == rotate start /\
     scaleX still == scaleX start /\ scaleY still == scaleY start /\
     skewX still == skewX start /\ skewY still == skewY start).
Proof.
  cbv zeta. repeat split; try reflexivity.
  - cbn. unfold Qdiv. ring.
  - cbn. unfold Qdiv. ring.
  - destruct h; try congruence; destruct skew; cbn; reflexivity.
  - destruct h; try congruence; destruct skew; cbn; unfold Qdiv;
      try reflexivity; ring.
  - destruct h; try congruence; destruct skew; cbn; unfold Qdiv;
      try reflexivity; ring.
  - destruct h; try congruence; destruct skew; cbn; unfold Qdiv;
      try reflexivity; ring.
  - destruct h; try congruence; destruct skew; cbn; unfold Qdiv;
      try reflexivity; ring.
Qed.

End HandleFacts.

(* ------------------------------------------------------------------ *)
(** ** What normalization guarantees                                   *)
(* ------------------------------------------------------------------ *)

Module ReadyFacts.
Import Dom Preview DomFacts NormalizerFacts.

Lemma assign_ids_list_all_named suffix :
  forall l i x, In x (flat_map elements (snd (assign_ids_list suffix i l))) ->
                is_layer (tagName x) = true -> id_of x <> EmptyString.
Proof.
  induction l as [|c l IH]; intros i x; [intros []|].
  cbn [assign_ids_list].
  pose proof (assign_ids_all_named suffix c i x) as Hc.
  destruct (assign_ids suffix i c) as [j c'].
  specialize (IH j x). destruct (assign_ids_list suffix j l) as [j' l'].
  cbn [snd flat_map] in *. intros Hin Hl.
  apply in_app_or in Hin as [H|H]; [now apply Hc | now apply IH].
Qed.

Lemma assign_ids_kept suffix :
  forall n i, Forall2 kept (elements n) (elements (snd (assign_ids suffix i n))).
Proof.
  intro n.
  apply (node_rect'
           (fun n => forall i,
                Forall2 kept (elements n) (elements (snd (assign_ids suffix i n))))
           (fun l => forall i,
                Forall2 kept (flat_map elements l)
                  (flat_map elements (snd (assign_ids_list suffix i l))))).
  - intros t a k IH i. rewrite assign_ids_Elem. cbv zeta.
    specialize (IH (if is_layer t then S i else i)).
    destruct (assign_ids_list suffix _ k) as [j k']. cbn [snd] in *.
    rewrite !elements_Elem. constructor; [|exact IH].
    split; [reflexivity|]. cbn [tagName attrs_of id_of].
    intros [Hl|Hid].
    + now rewrite Hl.
    + destruct (is_layer t); [|reflexivity]. cbn [andb id_of].
      destruct (getAttribute "id" a) as [v|]; [|congruence].
      destruct (String.eqb_spec v EmptyString); [congruence | reflexivity].
  - intros s i. constructor.
  - intros i. constructor.
  - intros c l IHc IHl i. cbn [assign_ids_list].
    specialize (IHc i). destruct (assign_ids suffix i c) as [j c'].
    specialize (IHl j). destruct (assign_ids_list suffix j l) as [j' l'].
    cbn [snd flat_map] in *. now apply Forall2_app.
Qed.

Lemma assign_ids_list_kept suffix :
  forall l i, Forall2 kept (flat_map elements l)
                (flat_map elements (snd (assign_ids_list suffix i l))).
Proof.
  induction l as [|c l IH]; intro i; [constructor|].
  cbn [assign_ids_list].
  pose proof (assign_ids_kept suffix c i) as Hc.
  destruct (assign_ids suffix i c) as [j c'].
  specialize (IH j). destruct (assign_ids_list suffix j l) as [j' l'].
  cbn [snd flat_map] in *. now apply Forall2_app.
Qed.

Lemma ensure_dimensions_viewBox a :
  attr_missing "viewBox" (ensure_dimensions a) = false.
Proof.
  unfold ensure_dimensions.
  pose proof (ensure_viewBox_spec a) as H.
  destruct (ensure_viewBox a) as [vb a1]. destruct H as (Hne & Hvb & _ & _).
  assert (Hm : forall b, getAttribute "viewBox" b = Some vb ->
                         attr_missing "viewBox" b = false).
  { intros b Hb. unfold attr_missing. rewrite Hb. now destruct vb. }
  destruct (4 <=? _); [|now apply Hm].
  apply Hm. now rewrite !ensure_size_viewBox by discriminate.
Qed.

(** X5. What normalization leaves behind, whatever the document was:
    the root keeps its tag and has a namespace and a viewBox; every
    layer below the root has an id; and no element below the root is
    renamed, dropped or added, nor are the attributes touched of an
    element that is no layer or that had an id already. *)
Theorem normalization_prepares_layers (suffix : nat -> string) (t : string)
    (a : attributes) (k : list node) :
  let svg' := normalize_tree suffix (Elem t a k) in
  tagName svg' = t /\
  attr_missing "xmlns" (attrs_of svg') = false /\
  attr_missing "viewBox" (attrs_of svg') = false /\
  (forall x, In x (flat_map elements (children_of svg')) ->
             is_layer (tagName x) = true -> id_of x <> EmptyString) /\
  Forall2 kept (flat_map elements k) (flat_map elements (children_of svg')).
Proof.
  cbv zeta. cbn [normalize_tree tagName attrs_of children_of].
  split; [reflexivity|]. split.
  - rewrite ensure_dimensions_keeps_namespace. apply ensure_namespace_present.
  - split; [apply ensure_dimensions_viewBox|]. split.
    + apply assign_ids_list_all_named.
    + apply assign_ids_list_kept.
Qed.

End ReadyFacts.

(* ------------------------------------------------------------------ *)
(** ** One commit per panel operation                                  *)
(* ------------------------------------------------------------------ *)

Module RoutedFacts.
Import Dom Editor EditorFacts.

Section Handlers.

Variable parse : string -> option node.
Variable serialize : node -> string.

(** X6. Every panel operation that reaches [modifySvg] on a document
    in the SVG namespace either is the duplication of an element whose
    id is the document element's, which raises before [onUpdate] is
    reached and has no effect at all, or completes with exactly one
    [onUpdate], its last effect, which appends one snapshot after the
    current history entry. *)
Theorem routed_operation_commits_once (p : panel) (op : operation) (svg : node) :
  parse (svgContent p) = Some svg ->
  Namespace.in_svg_namespace svg = true ->
  routed p op = true ->
  (exists now id, op = DuplicateLayer now id /\ target id svg = true /\
                  run parse serialize p op = Threw []) \/
  (exists sync txt,
     run parse serialize p op = Completed (sync ++ [OnUpdate txt]) /\
     updates (run parse serialize p op) = [OnUpdate txt] /\
     forall h,
       History.history (commit_trace (trace_of (run parse serialize p op)) h) =
       firstn (History.historyIndex h + 1) (History.history h) ++ [txt]).
Proof. intros Hparse _. now apply routed_operation_outcome. Qed.

End Handlers.

Lemma routed_operation_commits_once_witness :
  let svg :=
    Elem "svg" [("xmlns", "http://www.w3.org/2000/svg"); ("viewBox", "0 0 100 100")]
      [Elem "rect" [("id", "r"); ("x", "10"); ("y", "10")] []] in
  let p := mkPanel (Xml.write svg) (Some "r") defaultStyleProps
             defaultShadowProps in
  let op := MoveLayer "r" up in
  (Xml.read (svgContent p) = Some svg /\
   Namespace.in_svg_namespace svg = true /\
   routed p op = true) /\
  ((exists now id, op = DuplicateLayer now id /\ target id svg = true /\
                   run Xml.read Xml.write p op = Threw []) \/
   (exists sync txt,
      run Xml.read Xml.write p op = Completed (sync ++ [OnUpdate txt]) /\
      updates (run Xml.read Xml.write p op) = [OnUpdate txt] /\
      forall h,
        History.history
          (commit_trace (trace_of (run Xml.read Xml.write p op)) h) =
        firstn (History.historyIndex h + 1) (History.history h) ++ [txt])).
Proof.
  cbv zeta. split; [repeat split; reflexivity|].
  apply (routed_operation_commits_once Xml.read Xml.write); reflexivity.
Defined.

End RoutedFacts.

(* ------------------------------------------------------------------ *)
(** ** What an edit at the first match leaves alone                    *)
(* ------------------------------------------------------------------ *)

Module EditFacts.
Import Dom DomFacts SearchFacts.

Lemma outline_Elem t a k : outline (Elem t a k) = (t, a) :: outline_of k.
Proof.
  unfold outline, outline_of. rewrite elements_Elem. cbn [map tagName attrs_of].
  f_equal. induction k as [|c k IH]; [reflexivity|].
  cbn [flat_map]. now rewrite map_app, IH.
Qed.

Lemma outline_Text s : outline (Text s) = [].
Proof. reflexivity. Qed.

Lemma outline_of_app l1 l2 : outline_of (l1 ++ l2) = outline_of l1 ++ outline_of l2.
Proof. unfold outline_of. apply flat_map_app. Qed.

Lemma outline_of_cons c l : outline_of (c :: l) = outline c ++ outline_of l.
Proof. reflexivity. Qed.

(** The edit replaces the siblings around the first match by what [k]
    makes of them; the elements before and after that sibling list are
    as they were. *)
Lemma edit_from_outline p k :
  forall l pre l',
    edit_from p k pre l = Some l' ->
    exists l0 b c a l2,
      outline_of (pre ++ l) = l0 ++ outline_of (b ++ c :: a) ++ l2 /\
      outline_of l' = l0 ++ outline_of (k b c a) ++ l2 /\
      find_first p l = Some c /\ p c = true.
Proof.
  intro l.
  apply (forest_rect'
           (fun n => forall n', edit_in p k n = Some n' -> p n = false ->
              exists l0 b c a l2,
                outline n = l0 ++ outline_of (b ++ c :: a) ++ l2 /\
                outline n' = l0 ++ outline_of (k b c a) ++ l2 /\
                find_in p n = Some c /\ p c = true)
           (fun l => forall pre l', edit_from p k pre l = Some l' ->
              exists l0 b c a l2,
                outline_of (pre ++ l) = l0 ++ outline_of (b ++ c :: a) ++ l2 /\
                outline_of l' = l0 ++ outline_of (k b c a) ++ l2 /\
                find_first p l = Some c /\ p c = true)).
  - intros t a kids IH n' H Hp. rewrite edit_in_Elem in H.
    destruct (edit_from p k [] kids) as [kids'|] eqn:E; [|discriminate].
    injection H as <-.
    destruct (IH [] kids' E) as (l0 & b & c & a0 & l2 & H1 & H2 & H3 & H4).
    exists ((t, a) :: l0), b, c, a0, l2. rewrite !outline_Elem.
    cbn [app] in H1. rewrite H1, H2, find_in_Elem, Hp. now repeat split.
  - discriminate.
  - discriminate.
  - intros c rest IHc IHr pre l' H. cbn [edit_from] in H.
    destruct (p c) eqn:Hp.
    + injection H as <-. exists [], pre, c, rest, [].
      cbn [app]. rewrite !app_nil_r. repeat split; try assumption.
      cbn [find_first]. destruct c; cbn [find_in]; now rewrite Hp.
    + destruct (edit_in p k c) as [c'|] eqn:Ec.
      * injection H as <-.
        destruct (IHc c' eq_refl eq_refl)
          as (l0 & b & x & a0 & l2 & H1 & H2 & H3 & H4).
        exists (outline_of pre ++ l0), b, x, a0, (l2 ++ outline_of rest).
        assert (E : forall y, outline_of (pre ++ y :: rest) =
                              outline_of pre ++ outline y ++ outline_of rest)
          by (intro y; now rewrite outline_of_app, outline_of_cons).
        rewrite !E, H1, H2. cbn [find_first]. rewrite H3.
        repeat split; try assumption; now rewrite <- !app_assoc.
      * destruct (IHr (pre ++ [c]) l' H)
          as (l0 & b & x & a0 & l2 & H1 & H2 & H3 & H4).
        exists l0, b, x, a0, l2. rewrite <- app_assoc in H1. cbn [app] in H1.
        repeat split; try assumption.
        cbn [find_first].
        destruct (find_in p c) as [y|] eqn:Hf; [|exact H3].
        destruct (edit_present p k c y Hf Hp) as [c' Ec']. congruence.
Qed.

Lemma edit_in_outline p k t a kids n' :
  edit_in p k (Elem t a kids) = Some n' ->
  exists l0 b c a0 l2,
    outline (Elem t a kids) = (t, a) :: l0 ++ outline_of (b ++ c :: a0) ++ l2 /\
    outline n' = (t, a) :: l0 ++ outline_of (k b c a0) ++ l2 /\
    find_first p kids = Some c /\ p c = true.
Proof.
  rewrite edit_in_Elem.
  destruct (edit_from p k [] kids) as [kids'|] eqn:E; [|discriminate].
  intro H; injection H as <-.
  destruct (edit_from_outline p k kids [] kids' E)
    as (l0 & b & c & a0 & l2 & H1 & H2 & H3 & H4).
  exists l0, b, c, a0, l2. rewrite !outline_Elem. cbn [app] in H1.
  now rewrite H1, H2.
Qed.

Lemma skeleton_Elem t a k :
  skeleton (Elem t a k) = Elem t [] (map skeleton k).
Proof. reflexivity. Qed.

(** An edit that puts in place of the match a node of the same
    skeleton keeps the skeleton of the whole. *)
Lemma edit_from_skeleton p f :
  (forall c, skeleton (f c) = skeleton c) ->
  forall l pre l',
    edit_from p (fun b c a => b ++ f c :: a) pre l = Some l' ->
    map skeleton l' = map skeleton (pre ++ l).
Proof.
  intros Hf l.
  apply (forest_rect'
           (fun n => forall n',
              edit_in p (fun b c a => b ++ f c :: a) n = Some n' ->
              skeleton n' = skeleton n)
           (fun l => forall pre l',
              edit_from p (fun b c a => b ++ f c :: a) pre l = Some l' ->
              map skeleton l' = map skeleton (pre ++ l))).
  - intros t a kids IH n' H. rewrite edit_in_Elem in H.
    destruct (edit_from p _ [] kids) as [kids'|] eqn:E; [|discriminate].
    injection H as <-. rewrite !skeleton_Elem. f_equal. now apply (IH []).
  - discriminate.
  - discriminate.
  - intros c rest IHc IHr pre l' H. cbn [edit_from] in H.
    destruct (p c).
    + injection H as <-. rewrite !map_app. cbn [map]. now rewrite Hf.
    + destruct (edit_in p _ c) as [c'|] eqn:Ec.
      * injection H as <-. rewrite !map_app. cbn [map].
        now rewrite (IHc c' eq_refl).
      * rewrite (IHr _ _ H), <- app_assoc. reflexivity.
Qed.

End EditFacts.

(* ------------------------------------------------------------------ *)
(** ** The place of an element among its siblings *)
(* ------------------------------------------------------------------ *)

Module PlaceFacts.
Import Dom Editor Place DomFacts SearchFacts GradientFacts EditFacts.

Lemma find_first_app_none p l1 l2 :
  find_first p (l1 ++ l2) = None <->
  find_first p l1 = None /\ find_first p l2 = None.
Proof.
  rewrite find_first_app. destruct (find_first p l1); [|tauto].
  split; [discriminate | intros [H _]; discriminate].
Qed.

(** An edit skips the siblings in which the search finds nothing. *)
Lemma edit_from_skip p k pre l rest :
  find_first p l = None ->
  edit_from p k pre (l ++ rest) = edit_from p k (pre ++ l) rest.
Proof.
  revert pre. induction l as [|c l IH]; intros pre H; cbn [app].
  - now rewrite app_nil_r.
  - cbn [find_first] in H. destruct (find_in p c) eqn:Hc; [discriminate|].
    cbn [edit_from]. rewrite (find_in_none_root p c Hc), (edit_absent p k c Hc).
    rewrite (IH (pre ++ [c]) H), <- app_assoc. reflexivity.
Qed.

(** The edit at the first element the id names, where the element is
    given by its place. *)
Lemma edit_in_fill id k el :
  target id el = true ->
  forall c before after,
    find_first (target id) (ahead c ++ before) = None ->
    edit_in (target id) k (fill c (before ++ el :: after)) =
      Some (fill c (k before el after)).
Proof.
  intros Hel c. induction c as [t a|t a pre c IH post]; intros before after H.
  - cbn [fill ahead app find_first] in *. rewrite edit_in_Elem.
    destruct (find_in (target id) (Elem t a [])); [discriminate|].
    rewrite (edit_from_skip _ _ [] before _ H). cbn [app edit_from].
    now rewrite Hel.
  - cbn [fill ahead app find_first] in *. rewrite edit_in_Elem.
    destruct (find_in (target id) (Elem t a [])) eqn:Ha; [discriminate|].
    rewrite <- app_assoc in H.
    apply find_first_app_none in H. destruct H as [Hpre H].
    rewrite (edit_from_skip _ _ [] pre _ Hpre). cbn [app edit_from].
    assert (Hroot : target id (fill c (before ++ el :: after)) = false).
    { destruct c as [t' a'|t' a' pre' c' post']; cbn [fill ahead app find_first] in *;
        (destruct (find_in (target id) (Elem t' a' [])) eqn:E; [discriminate|]);
        apply find_in_none_root in E; exact E. }
    rewrite Hroot, (IH before after H). reflexivity.
Qed.

(** The first element an id names below the root has a place. *)
Lemma found_place id :
  forall svg el,
    getElementById id svg = Some el -> target id svg = false ->
    exists c before after,
      svg = fill c (before ++ el :: after) /\
      find_first (target id) (ahead c ++ before) = None /\
      target id el = true.
Proof.
  intro svg.
  apply (node_rect'
           (fun n => forall el, find_first (target id) [n] = Some el ->
                                target id n = false ->
              exists c before after,
                n = fill c (before ++ el :: after) /\
                find_first (target id) (ahead c ++ before) = None /\
                target id el = true)
           (fun l => forall el t a,
              find_first (target id) l = Some el ->
              target id (Elem t a []) = false ->
              exists c before after,
                Elem t a l = fill c (before ++ el :: after) /\
                find_first (target id) (ahead c ++ before) = None /\
                target id el = true)).
  - intros t a kids IH el H Hroot. cbn [find_first] in H.
    rewrite find_in_Elem, Hroot in H.
    destruct (find_first (target id) kids) as [x|] eqn:Hk; [|discriminate].
    injection H as ->. apply IH; [reflexivity | exact Hroot].
  - intros s el H _. cbn [find_first find_in] in H.
    rewrite target_text in H. discriminate.
  - intros el t a H. discriminate.
  - intros c l IHc IHl el t a H Hroot. cbn [find_first] in H.
    destruct (find_in (target id) c) as [x|] eqn:Hc.
    + injection H as ->.
      destruct (target id c) eqn:Htc.
      * (* the child itself *)
        assert (c = el).
        { destruct c as [tc ac kc|s]; cbn [find_in] in Hc; rewrite Htc in Hc;
            now injection Hc. }
        subst c. exists (Hole t a), [], l. cbn [fill ahead app find_first find_in].
        rewrite Hroot. now repeat split.
      * (* below the child *)
        destruct (IHc el) as (c' & before & after & E & Hnone & Hel).
        { cbn [find_first]. now rewrite Hc. }
        { reflexivity. }
        exists (Inside t a [] c' l), before, after.
        cbn [fill ahead app find_first find_in]. rewrite Hroot, <- E.
        now repeat split.
    + destruct (IHl el t a H Hroot) as (c' & before & after & E & Hnone & Hel).
      destruct c' as [t' a'|t' a' pre c' post]; cbn [fill] in E.
      * injection E as Et Ea El. subst t' a' l.
        exists (Hole t a), (c :: before), after.
        cbn [fill ahead app find_first find_in] in *. rewrite Hroot in *.
        rewrite Hc. now repeat split.
      * injection E as Et Ea El. subst t' a' l.
        exists (Inside t a (c :: pre) c' post), before, after.
        cbn [fill ahead app find_first find_in] in *. rewrite Hroot in *.
        rewrite Hc. now repeat split.
Qed.

End PlaceFacts.

(* ------------------------------------------------------------------ *)
(** ** The layer operations on the document                            *)
(* ------------------------------------------------------------------ *)

Module LayerFacts.
Import Dom Editor Place DomFacts SearchFacts EditorFacts EditFacts PlaceFacts GradientFacts.

Lemma getElementById_find id svg :
  getElementById id svg = find_in (target id) svg.
Proof. unfold getElementById. apply find_singleton. Qed.

Lemma found_root_is_element id svg el :
  getElementById id svg = Some el -> exists t a k, svg = Elem t a k.
Proof.
  rewrite getElementById_find. destruct svg as [t a k|s]; [now eauto|].
  cbn [find_in]. now rewrite target_text.
Qed.

Lemma found_is_element id svg el :
  getElementById id svg = Some el -> exists t a k, el = Elem t a k.
Proof.
  rewrite getElementById_find. intro H.
  pose proof (find_in_sat _ _ _ H) as Hsat.
  destruct el as [t a k|s]; [now eauto | now rewrite target_text in Hsat].
Qed.

(** An edit below the root, where the id names an element that is not
    the root: the siblings around the element are replaced by what the
    edit makes of them. *)
Lemma edit_below_root id k svg el :
  getElementById id svg = Some el ->
  target id svg = false ->
  exists svg' l0 b a l2,
    edit_in (target id) k svg = Some svg' /\
    outline svg = l0 ++ outline_of (b ++ el :: a) ++ l2 /\
    outline svg' = l0 ++ outline_of (k b el a) ++ l2.
Proof.
  intros Hel Hroot.
  destruct (found_root_is_element _ _ _ Hel) as (t & a & kids & ->).
  rewrite getElementById_find in Hel.
  destruct (edit_present (target id) k _ _ Hel Hroot) as [svg' E].
  destruct (edit_in_outline _ _ _ _ _ _ E)
    as (l0 & b & c & a0 & l2 & H1 & H2 & H3 & _).
  rewrite find_in_Elem, Hroot, H3 in Hel. injection Hel as <-.
  exists svg', ((t, a) :: l0), b, a0, l2. now repeat split.
Qed.

(** What the split at the next element sibling returns. *)
Lemma split_at_element_spec l :
  match split_at_element l with
  | Some (skipped, e, rest) =>
      l = skipped ++ e :: rest /\ is_element e = true /\
      forallb (fun c => negb (is_element c)) skipped = true
  | None => forallb (fun c => negb (is_element c)) l = true
  end.
Proof.
  induction l as [|c l IH]; [reflexivity|]. cbn [split_at_element].
  destruct (is_element c) eqn:Ec.
  - now repeat split.
  - destruct (split_at_element l) as [[[sk e] r]|].
    + destruct IH as (-> & He & Hsk). cbn [forallb]. rewrite Ec, Hsk.
      now repeat split.
    + cbn [forallb]. now rewrite Ec, IH.
Qed.

Ltac flatten_outline :=
  repeat (rewrite outline_of_app || rewrite outline_of_cons);
  repeat (cbn [app]; rewrite <- ?app_assoc).

(** An edit that rewrites the attributes of the element the id names
    and nothing else of it: the tree keeps its skeleton, and its
    outline changes at that one element. *)
Lemma update_by_id_frame id f svg t a k :
  (forall t a k, f (Elem t a k) = Elem t (attrs_of (f (Elem t a []))) k) ->
  (forall s, f (Text s) = Text s) ->
  getElementById id svg = Some (Elem t a k) ->
  exists svg' l1 l2,
    update_by_id id f svg = Some svg' /\
    skeleton svg' = skeleton svg /\
    outline svg = l1 ++ (t, a) :: l2 /\
    outline svg' = l1 ++ (t, attrs_of (f (Elem t a []))) :: l2.
Proof.
  intros Hf Ht Hel. unfold update_by_id.
  assert (Hsk : forall c, skeleton (f c) = skeleton c).
  { intros [t0 a0 k0|s0]; [|now rewrite Ht]. now rewrite Hf. }
  destruct (target id svg) eqn:Hroot.
  - assert (E : svg = Elem t a k).
    { rewrite getElementById_find in Hel. destruct svg; cbn [find_in] in Hel;
        rewrite Hroot in Hel; congruence. }
    subst svg. exists (f (Elem t a k)), [], (outline_of k).
    split; [reflexivity|]. split; [apply Hsk|].
    rewrite Hf, !outline_Elem. now split.
  - destruct (edit_below_root id (fun b c a0 => b ++ f c :: a0) svg _ Hel Hroot)
      as (svg' & l0 & b & a0 & l2 & E & H1 & H2).
    exists svg', (l0 ++ outline_of b), (outline_of k ++ outline_of a0 ++ l2).
    split; [exact E|]. split.
    + destruct svg as [t0 at0 k0|s0]; [|discriminate].
      rewrite edit_in_Elem in E.
      destruct (edit_from (target id) _ [] k0) as [k0'|] eqn:Ek; [|discriminate].
      injection E as <-. rewrite !skeleton_Elem. f_equal.
      now apply (edit_from_skeleton (target id) f Hsk k0 [] k0').
    + rewrite H1, H2, Hf. flatten_outline. rewrite !outline_Elem.
      repeat (cbn [app]; rewrite <- ?app_assoc). now split.
Qed.

Lemma toggle_display_attrs t a k :
  toggle_display (Elem t a k) =
    Elem t (setAttribute "display"
              (match getAttribute "display" a with
               | Some "none" => EmptyString
               | _ => "none"
               end) a) k.
Proof. reflexivity. Qed.

(** Below the [textContent] key every branch of [updateStyle] rewrites
    attributes only. *)
Lemma update_element_shallow key v newProps shadow t a k :
  key <> "textContent" ->
  update_element key v newProps shadow (Elem t a k) =
    Elem t (attrs_of (update_element key v newProps shadow (Elem t a []))) k.
Proof.
  intro Hkey. unfold update_element. cbn [tagName attrs_of].
  destruct (String.eqb_spec key "textContent") as [|_]; [congruence|].
  repeat match goal with
         | |- context [if ?b then _ else _] => destruct b
         end;
    try reflexivity;
    try (destruct (filter_list newProps shadow); reflexivity);
    destruct v as [s|b]; try reflexivity;
    repeat (destruct s as [|[[] [] [] [] [] [] [] []] s]; try reflexivity).
Qed.

Lemma update_element_text key v newProps shadow s :
  update_element key v newProps shadow (Text s) = Text s.
Proof.
  unfold update_element. cbn [tagName attrs_of].
  repeat match goal with
         | |- context [if ?b then _ else _] => destruct b
         end;
    try reflexivity;
    try (now destruct (as_string v));
    try (destruct (filter_list newProps shadow); reflexivity);
    destruct v as [x|b]; try reflexivity;
    repeat (destruct x as [|[[] [] [] [] [] [] [] []] x]; try reflexivity).
Qed.

Lemma unmarked_Elem t a k :
  unmarked (Elem t a k) =
    negb (has_class "selected-outline" (Elem t a [])) && forallb unmarked k.
Proof.
  unfold unmarked at 1. rewrite elements_Elem. cbn [forallb]. f_equal.
  induction k as [|c k IH]; [reflexivity|].
  cbn [flat_map forallb]. rewrite forallb_app, IH. reflexivity.
Qed.

(** Siblings without the marker can be exchanged for others without
    it. *)
Lemma unmarked_fill c kids kids' :
  (forallb unmarked kids = true -> forallb unmarked kids' = true) ->
  unmarked (fill c kids) = true -> unmarked (fill c kids') = true.
Proof.
  intro Hk. induction c as [t a|t a pre c IH post]; cbn [fill];
    rewrite !unmarked_Elem, !andb_true_iff.
  - intros [H1 H2]. split; [exact H1 | now apply Hk].
  - rewrite !forallb_app. cbn [forallb]. rewrite !andb_true_iff.
    intros (H1 & H2 & H3 & H4). repeat split; try assumption. now apply IH.
Qed.

Lemma forallb_incl {A} (f : A -> bool) l l' :
  (forall x, In x l' -> In x l) -> forallb f l = true -> forallb f l' = true.
Proof.
  intros Hin H. rewrite forallb_forall in *. intros x Hx. apply H, Hin, Hx.
Qed.

Lemma class_tokens_other name v a :
  name <> "class" -> class_tokens (setAttribute name v a) = class_tokens a.
Proof.
  intro H. unfold class_tokens, attr_or.
  rewrite getAttribute_setAttribute_other by congruence. reflexivity.
Qed.

Lemma unmarked_clone newId el :
  unmarked (clone_with_id newId el) = unmarked el.
Proof.
  destruct el as [t a k|s]; [|reflexivity].
  unfold clone_with_id. cbn [set_attrs]. rewrite !unmarked_Elem.
  cbn [has_class]. rewrite class_tokens_other by discriminate. reflexivity.
Qed.

Lemma split_at_element_found texts next rest :
  forallb is_text texts = true -> is_element next = true ->
  split_at_element (texts ++ next :: rest) = Some (texts, next, rest).
Proof.
  intros Ht Hn. induction texts as [|c texts IH]; cbn [app split_at_element].
  - now rewrite Hn.
  - cbn [forallb] in Ht. apply andb_true_iff in Ht. destruct Ht as [Hc Ht].
    unfold is_text in Hc. apply negb_true_iff in Hc. rewrite Hc.
    now rewrite (IH Ht).
Qed.

Lemma split_at_element_none l :
  forallb is_text l = true -> split_at_element l = None.
Proof.
  induction l as [|c l IH]; [reflexivity|]. cbn [forallb split_at_element].
  intro H. apply andb_true_iff in H. destruct H as [Hc Hl].
  unfold is_text in Hc. apply negb_true_iff in Hc. rewrite Hc.
  now rewrite (IH Hl).
Qed.

Lemma forallb_rev {A} (f : A -> bool) l : forallb f (rev l) = forallb f l.
Proof.
  induction l as [|c l IH]; [reflexivity|]. cbn [rev forallb].
  rewrite forallb_app, IH. cbn [forallb]. rewrite andb_true_r. apply andb_comm.
Qed.

(** What [next.after(el)] makes of the sibling list. *)
Lemma move_up_spec before el after :
  (forall texts next rest,
     after = texts ++ next :: rest ->
     forallb is_text texts = true -> is_element next = true ->
     move_up before el after = before ++ texts ++ next :: el :: rest) /\
  (forallb is_text after = true -> move_up before el after = before ++ el :: after).
Proof.
  unfold move_up. split.
  - intros texts next rest -> Ht Hn. now rewrite split_at_element_found.
  - intro H. now rewrite split_at_element_none.
Qed.

(** What [prev.before(el)] makes of the sibling list. *)
Lemma move_down_spec before el after :
  (forall rest prev texts,
     before = rest ++ prev :: texts ->
     forallb is_text texts = true -> is_element prev = true ->
     move_down before el after = rest ++ el :: prev :: texts ++ after) /\
  (forallb is_text before = true -> move_down before el after = before ++ el :: after).
Proof.
  unfold move_down. split.
  - intros rest prev texts -> Ht Hn.
    rewrite rev_app_distr. cbn [rev]. rewrite <- app_assoc. cbn [app].
    rewrite split_at_element_found by (rewrite ?forallb_rev; assumption).
    now rewrite !rev_involutive.
  - intro H. rewrite split_at_element_none by (now rewrite forallb_rev).
    reflexivity.
Qed.

(** A move keeps the siblings it was given. *)
Lemma move_keeps d before el after x :
  In x (match d with up => move_up | down => move_down end before el after) ->
  In x (before ++ el :: after).
Proof.
  destruct d.
  - unfold move_up. pose proof (split_at_element_spec after) as Hs.
    destruct (split_at_element after) as [[[sk next] rest]|]; [|tauto].
    destruct Hs as (-> & _). intro H.
    repeat (rewrite in_app_iff in H || cbn [In] in H).
    repeat (rewrite in_app_iff || cbn [In]). tauto.
  - unfold move_down. pose proof (split_at_element_spec (rev before)) as Hs.
    destruct (split_at_element (rev before)) as [[[sk prev] rest]|]; [|tauto].
    destruct Hs as (Hb & _).
    assert (Eb : before = rev rest ++ prev :: rev sk).
    { rewrite <- (rev_involutive before), Hb, rev_app_distr. cbn [rev].
      now rewrite <- app_assoc. }
    rewrite Eb. intro H.
    repeat (rewrite in_app_iff in H || cbn [In] in H).
    repeat (rewrite in_app_iff || cbn [In]). tauto.
Qed.

Lemma getAttribute_removeAttribute_other name name' a :
  name <> name' ->
  getAttribute name (removeAttribute name' a) = getAttribute name a.
Proof.
  intro H. unfold removeAttribute.
  induction a as [|[n x] a IH]; [reflexivity|]. cbn [filter fst getAttribute].
  destruct (String.eqb_spec n name') as [->|Hn]; cbn [negb getAttribute].
  - destruct (String.eqb_spec name' name); [congruence | exact IH].
  - now rewrite IH.
Qed.

Lemma style_setProperty_other name prop v a :
  name <> "style" ->
  getAttribute name (style_setProperty prop v a) = getAttribute name a.
Proof.
  intro H. unfold style_setProperty.
  destruct (getAttribute "style" a).
  - apply getAttribute_setAttribute_other. congruence.
  - destruct (String.eqb v EmptyString); [reflexivity|].
    apply getAttribute_setAttribute_other. congruence.
Qed.

(** The blend branch writes the inline style, whatever the mode. *)
Lemma blend_writes_style (v : value) (x y : string) (el : node) :
  exists z,
    match v with
    | VStr "normal" => set_attrs (setAttribute "style" x) el
    | _ => set_attrs (setAttribute "style" y) el
    end = set_attrs (setAttribute "style" z) el.
Proof.
  destruct v as [s|b]; [|now exists y].
  repeat (destruct s as [|[[] [] [] [] [] [] [] []] s];
          try (now exists y); try (now exists x)).
Qed.

(** What a property change can write on the element: its inline style,
    the attribute the key names, [cx] and [cy] for a position, [ry] with
    [rx]. *)
Lemma update_element_frame key v newProps shadow t a name :
  key <> "textContent" ->
  name <> "style" -> name <> key -> name <> "cx" -> name <> "cy" ->
  name <> "ry" ->
  getAttribute name
    (attrs_of (update_element key v newProps shadow (Elem t a []))) =
  getAttribute name a.
Proof.
  intros Hkey Hs Hk Hcx Hcy Hry. unfold update_element.
  cbn [tagName attrs_of].
  destruct (String.eqb_spec key "textContent") as [|_]; [congruence|].
  destruct (String.eqb key "x" || String.eqb key "y").
  { destruct (_ || _); [destruct (String.eqb key "x")|]; cbn [set_attrs attrs_of];
      apply getAttribute_setAttribute_other; congruence. }
  destruct (String.eqb_spec key "rx") as [->|_].
  { destruct (String.eqb _ "rect"); cbn [set_attrs attrs_of];
      rewrite ?getAttribute_setAttribute_other by congruence; reflexivity. }
  destruct (mem key paint_keys).
  { destruct (String.eqb (as_string v) "none" && String.eqb key "stroke-dasharray");
      destruct (String.eqb (as_string v) "none" &&
                (String.eqb key "stroke-dasharray" || String.eqb key "stroke"));
      cbn [set_attrs attrs_of];
      rewrite ?style_setProperty_other, ?style_removeProperty_other by congruence;
      rewrite ?getAttribute_removeAttribute_other, ?getAttribute_setAttribute_other
        by congruence;
      reflexivity. }
  destruct (mem key transform_keys).
  { cbn [set_attrs attrs_of]. apply getAttribute_setAttribute_other. congruence. }
  destruct (mem key filter_keys).
  { destruct (filter_list newProps shadow); cbn [set_attrs attrs_of];
      apply getAttribute_setAttribute_other; congruence. }
  destruct (String.eqb key "blendMode"); [|reflexivity].
  match goal with
  | |- getAttribute name (attrs_of ?m) = _ =>
      assert (Hz : exists z, m = set_attrs (setAttribute "style" z) (Elem t a []))
        by apply blend_writes_style
  end.
  destruct Hz as [z Hz].
  rewrite Hz. cbn [set_attrs attrs_of].
  apply getAttribute_setAttribute_other. congruence.
Qed.

(** No property change other than the text content touches the class. *)
Lemma update_element_class key v newProps shadow t a :
  key <> "textContent" ->
  getAttribute "class"
    (attrs_of (update_element key v newProps shadow (Elem t a []))) =
  getAttribute "class" a.
Proof.
  intro Hkey. destruct (String.eqb_spec key "class") as [->|Hc].
  - reflexivity.
  - apply update_element_frame; congruence.
Qed.

Lemma unmarked_by_outline n :
  unmarked n =
    forallb (fun ta => negb (existsb (String.eqb "selected-outline")
                               (class_tokens (snd ta))))
            (outline n).
Proof.
  unfold unmarked, outline.
  induction (elements n) as [|x l IH]; [reflexivity|].
  cbn [map forallb]. rewrite IH. f_equal. now destruct x.
Qed.

Section Handlers.

Variable parse : string -> option node.
Variable serialize : node -> string.

(** X7. Deleting a layer removes the first element with that id in
    document order together with everything below it, and nothing
    else: the elements before and after keep their tags, attributes and
    order.  The selection is cleared when the deleted id was selected.
    When the id is the document element's, the element is detached and
    the document text handed to [onUpdate] is the document as it was
    parsed, selection marker included. *)
Theorem deleteLayer_removes_subtree (p : panel) (id : string) (svg el : node) :
  parse (svgContent p) = Some svg ->
  getElementById id svg = Some el ->
  let deselect :=
    match selectedElementId p with
    | Some sel => if String.eqb sel id then [OnSelectLayer None] else []
    | None => []
    end in
  if target id svg
  then deleteLayer parse serialize p id =
         Completed (deselect ++ [OnUpdate (serialize svg)])
  else exists svg' l1 l2,
         deleteLayer parse serialize p id =
           Completed (deselect ++ [OnUpdate (serialize (cleanup svg'))]) /\
         outline svg = l1 ++ outline el ++ l2 /\
         outline svg' = l1 ++ l2.
Proof.
  intros Hparse Hel deselect. unfold deleteLayer.
  rewrite (modifySvg_trace parse serialize _ _ _ Hparse). unfold edit_by_id.
  destruct (target id svg) eqn:Hroot; [reflexivity|].
  destruct (edit_below_root id (fun b _ a => b ++ a) svg el Hel Hroot)
    as (svg' & l0 & b & a & l2 & E & H1 & H2).
  rewrite E. cbn [option_map].
  exists svg', (l0 ++ outline_of b), (outline_of a ++ l2).
  split; [reflexivity|].
  rewrite H1, H2, !outline_of_app, outline_of_cons, <- !app_assoc.
  now split.
Qed.

(** X8. On a document without selection marker, duplicating a layer
    below the root puts a copy right behind the original, as its next
    sibling: the copy carries the new id [copy-<now>] and is otherwise
    the original, children included.  The original is the first element
    with the id in document order, nothing else of the document
    changes, and the selection of the copy is scheduled before
    [onUpdate] runs. *)
Theorem duplicateLayer_inserts_copy (p : panel) (now : N) (id : string)
    (svg : node) (t : string) (a : attributes) (k : list node) :
  parse (svgContent p) = Some svg ->
  unmarked svg = true ->
  getElementById id svg = Some (Elem t a k) ->
  target id svg = false ->
  let newId := stamp "copy-" now in
  let copy := Elem t (setAttribute "id" newId a) k in
  exists c before after,
    svg = fill c (before ++ Elem t a k :: after) /\
    find_first (target id) (ahead c ++ before) = None /\
    duplicateLayer parse serialize p now id =
      Completed
        [SelectLater newId;
         OnUpdate (serialize (fill c (before ++ Elem t a k :: copy :: after)))].
Proof.
  intros Hparse Hclean Hel Hroot newId copy.
  destruct (found_place id svg _ Hel Hroot) as (c & before & after & E & Hfirst & Ht).
  exists c, before, after. split; [exact E|]. split; [exact Hfirst|].
  unfold duplicateLayer.
  rewrite (modifySvg_trace parse serialize _ _ _ Hparse). unfold edit_by_id.
  rewrite Hroot, E, (edit_in_fill id _ _ Ht c before after Hfirst).
  cbn [option_map app]. rewrite cleanup_unmarked; [reflexivity|].
  rewrite E in Hclean. revert Hclean. apply unmarked_fill.
  rewrite !forallb_app. cbn [forallb]. rewrite unmarked_clone.
  rewrite !andb_true_iff. tauto.
Qed.

(** X9. On a document without selection marker, moving a layer up
    puts the element right behind its next element sibling, and moving
    it down right in front of its previous element sibling; the text
    between the two stays where it is.  Where the element has no such
    sibling, and only text follows or precedes it, the document stays as
    it is.  Nothing else of the document changes. *)
Theorem moveLayer_swaps_with_sibling (p : panel) (id : string) (d : direction)
    (svg el : node) :
  parse (svgContent p) = Some svg ->
  unmarked svg = true ->
  getElementById id svg = Some el ->
  target id svg = false ->
  exists c before after siblings,
    svg = fill c (before ++ el :: after) /\
    find_first (target id) (ahead c ++ before) = None /\
    moveLayer parse serialize p id d =
      Completed [OnUpdate (serialize (fill c siblings))] /\
    match d with
    | up =>
        (forall texts next rest,
           after = texts ++ next :: rest ->
           forallb is_text texts = true -> is_element next = true ->
           siblings = before ++ texts ++ next :: el :: rest) /\
        (forallb is_text after = true -> siblings = before ++ el :: after)
    | down =>
        (forall rest prev texts,
           before = rest ++ prev :: texts ->
           forallb is_text texts = true -> is_element prev = true ->
           siblings = rest ++ el :: prev :: texts ++ after) /\
        (forallb is_text before = true -> siblings = before ++ el :: after)
    end.
Proof.
  intros Hparse Hclean Hel Hroot.
  destruct (found_place id svg _ Hel Hroot) as (c & before & after & E & Hfirst & Ht).
  exists c, before, after,
    (match d with up => move_up | down => move_down end before el after).
  split; [exact E|]. split; [exact Hfirst|]. split.
  - unfold moveLayer.
    rewrite (modifySvg_trace parse serialize _ _ _ Hparse). unfold edit_by_id.
    rewrite Hroot, E, (edit_in_fill id _ _ Ht c before after Hfirst).
    cbn [option_map app]. rewrite cleanup_unmarked; [reflexivity|].
    rewrite E in Hclean. revert Hclean. apply unmarked_fill.
    apply forallb_incl. apply move_keeps.
  - destruct d; [apply move_up_spec | apply move_down_spec].
Qed.

(** X10. Toggling the visibility of a layer rewrites the [display]
    attribute of the first element with that id, and nothing else in
    the document: it becomes [none], or the empty string when it was
    [none].  Tags, nesting, text and all other attributes stay. *)
Theorem toggleVisibility_flips_display (p : panel) (id : string) (svg : node)
    (t : string) (a : attributes) (k : list node) :
  parse (svgContent p) = Some svg ->
  getElementById id svg = Some (Elem t a k) ->
  let display :=
    match getAttribute "display" a with
    | Some "none" => EmptyString
    | _ => "none"
    end in
  exists svg' l1 l2,
    toggleVisibility parse serialize p id =
      Completed [OnUpdate (serialize (cleanup svg'))] /\
    skeleton svg' = skeleton svg /\
    outline svg = l1 ++ (t, a) :: l2 /\
    outline svg' = l1 ++ (t, setAttribute "display" display a) :: l2 /\
    getAttribute "display" (setAttribute "display" display a) = Some display /\
    (display = "none" <-> getAttribute "display" a <> Some "none").
Proof.
  intros Hparse Hel display. unfold toggleVisibility.
  rewrite (modifySvg_trace parse serialize _ _ _ Hparse).
  destruct (update_by_id_frame id toggle_display svg t a k) as
    (svg' & l1 & l2 & E & Hsk & H1 & H2);
    [intros; apply toggle_display_attrs | reflexivity | exact Hel |].
  rewrite E. exists svg', l1, l2. split; [reflexivity|].
  split; [exact Hsk|]. split; [exact H1|]. split; [exact H2|].
  split; [apply getAttribute_setAttribute_same|].
  unfold display. destruct (getAttribute "display" a) as [v|].
  - destruct (String.eqb_spec v "none") as [->|Hv].
    + split; [discriminate | congruence].
    + assert (E' : match v with "none" => EmptyString | _ => "none" end = "none").
      { clear - Hv.
        repeat (destruct v as [|[[] [] [] [] [] [] [] []] v];
                try reflexivity; try congruence). }
      rewrite E'. split; [congruence | reflexivity].
  - split; [discriminate | reflexivity].
Qed.

(** X11. On a document without selection marker, a property change
    from the panel other than the text content rewrites attributes of
    the selected element, the first one with the selected id, and
    nothing else in the document: tags, nesting, text and the
    attributes of every other element stay as they are.  On the
    selected element it can write the inline style, the attribute the
    key names, [cx] and [cy] (a position) and [ry] (with [rx]); every
    other attribute reads as before. *)
Theorem updateStyle_edits_one_element (p : panel) (key : string) (v : value)
    (id : string) (svg : node) (t : string) (a : attributes) (k : list node) :
  parse (svgContent p) = Some svg ->
  unmarked svg = true ->
  selection p = Some id ->
  getElementById id svg = Some (Elem t a k) ->
  key <> "textContent" ->
  exists svg' a' l1 l2,
    updateStyle parse serialize p key v =
      Completed [OnUpdate (serialize svg')] /\
    skeleton svg' = skeleton svg /\
    outline svg = l1 ++ (t, a) :: l2 /\
    outline svg' = l1 ++ (t, a') :: l2 /\
    forall name,
      name <> "style" -> name <> key -> name <> "cx" -> name <> "cy" ->
      name <> "ry" ->
      getAttribute name a' = getAttribute name a.
Proof.
  intros Hparse Hclean Hsel Hel Hkey. unfold updateStyle. rewrite Hsel.
  rewrite (modifySvg_trace parse serialize _ _ _ Hparse).
  destruct (update_by_id_frame id
              (update_element key v (set_key key v (props p)) (shadow p))
              svg t a k) as (svg' & l1 & l2 & E & Hsk & H1 & H2);
    [intros; now apply update_element_shallow
    | intros; apply update_element_text | exact Hel |].
  rewrite E.
  set (a' := attrs_of (update_element key v (set_key key v (props p)) (shadow p)
                         (Elem t a []))) in *.
  exists svg', a', l1, l2.
  assert (Hclean' : unmarked svg' = true).
  { rewrite unmarked_by_outline in Hclean |- *. rewrite H1 in Hclean.
    rewrite H2. rewrite forallb_app in Hclean |- *. cbn [forallb snd] in *.
    assert (Hc : class_tokens a' = class_tokens a).
    { unfold class_tokens, attr_or, a'.
      now rewrite update_element_class. }
    now rewrite Hc. }
  cbn [app]. rewrite (cleanup_unmarked _ Hclean').
  split; [reflexivity|]. split; [exact Hsk|]. split; [exact H1|].
  split; [exact H2|].
  intros name Hs Hk Hcx Hcy Hry. now apply update_element_frame.
Qed.

End Handlers.

Lemma toggleVisibility_flips_display_witness :
  let svg :=
    Elem "svg" [("viewBox", "0 0 100 100")]
      [Elem "rect" [("id", "r"); ("display", "inline")] []] in
  let p := mkPanel (Xml.write svg) None defaultStyleProps defaultShadowProps in
  (Xml.read (svgContent p) = Some svg /\
   getElementById "r" svg =
     Some (Elem "rect" [("id", "r"); ("display", "inline")] [])) /\
  exists svg' l1 l2,
    toggleVisibility Xml.read Xml.write p "r" =
      Completed [OnUpdate (Xml.write (cleanup svg'))] /\
    skeleton svg' = skeleton svg /\
    outline svg = l1 ++ ("rect", [("id", "r"); ("display", "inline")]) :: l2 /\
    outline svg' = l1 ++ ("rect", [("id", "r"); ("display", "none")]) :: l2 /\
    getAttribute "display" [("id", "r"); ("display", "none")] = Some "none" /\
    ("none" = "none" <->
     getAttribute "display" [("id", "r"); ("display", "inline")] <> Some "none").
Proof.
  intros svg p. split; [split; reflexivity|].
  exact (toggleVisibility_flips_display Xml.read Xml.write p "r" svg "rect"
           [("id", "r"); ("display", "inline")] [] eq_refl eq_refl).
Defined.

Lemma updateStyle_edits_one_element_witness :
  let a := [("id", "r"); ("x", "10")] in
  let svg :=
    Elem "svg" [("xmlns", "http://www.w3.org/2000/svg"); ("viewBox", "0 0 100 100")]
      [Elem "rect" a []; Elem "circle" [("id", "c"); ("r", "5")] []] in
  let p := mkPanel (Xml.write svg) (Some "r") defaultStyleProps
             defaultShadowProps in
  (Xml.read (svgContent p) = Some svg /\
   unmarked svg = true /\
   selection p = Some "r" /\
   getElementById "r" svg = Some (Elem "rect" a []) /\
   "fill" <> "textContent") /\
  exists svg' a' l1 l2,
    updateStyle Xml.read Xml.write p "fill" (VStr "#ff0000") =
      Completed [OnUpdate (Xml.write svg')] /\
    skeleton svg' = skeleton svg /\
    outline svg = l1 ++ ("rect", a) :: l2 /\
    outline svg' = l1 ++ ("rect", a') :: l2 /\
    forall name,
      name <> "style" -> name <> "fill" -> name <> "cx" -> name <> "cy" ->
      name <> "ry" ->
      getAttribute name a' = getAttribute name a.
Proof.
  intros a svg p.
  assert (Hkey : "fill" <> "textContent") by discriminate.
  split; [repeat split; try reflexivity; exact Hkey|].
  exact (updateStyle_edits_one_element Xml.read Xml.write p "fill"
           (VStr "#ff0000") "r" svg "rect" a [] eq_refl eq_refl eq_refl eq_refl
           Hkey).
Defined.

Lemma deleteLayer_removes_subtree_witness :
  let group :=
    Elem "g" [("id", "g1")] [Elem "rect" [("id", "r"); ("x", "10")] []] in
  let svg :=
    Elem "svg" [("viewBox", "0 0 100 100")]
      [group; Elem "circle" [("id", "c"); ("r", "5")] []] in
  let p := mkPanel (Xml.write svg) (Some "g1") defaultStyleProps
             defaultShadowProps in
  (Xml.read (svgContent p) = Some svg /\
   getElementById "g1" svg = Some group) /\
  exists svg' l1 l2,
    deleteLayer Xml.read Xml.write p "g1" =
      Completed ([OnSelectLayer None] ++
                 [OnUpdate (Xml.write (cleanup svg'))]) /\
    outline svg = l1 ++ outline group ++ l2 /\
    outline svg' = l1 ++ l2.
Proof.
  intros group svg p. split; [split; reflexivity|].
  exact (deleteLayer_removes_subtree Xml.read Xml.write p "g1" svg group
           eq_refl eq_refl).
Defined.

Lemma duplicateLayer_inserts_copy_witness :
  let rect := Elem "rect" [("id", "r"); ("x", "10")] [] in
  let group := Elem "g" [("id", "g1")] [rect] in
  let copy := Elem "g" [("id", "copy-1700000000000")] [rect] in
  let svg :=
    Elem "svg" [("xmlns", "http://www.w3.org/2000/svg"); ("viewBox", "0 0 100 100")]
      [group; Elem "circle" [("id", "c"); ("r", "5")] []] in
  let p := mkPanel (Xml.write svg) None defaultStyleProps defaultShadowProps in
  (Xml.read (svgContent p) = Some svg /\
   unmarked svg = true /\
   getElementById "g1" svg = Some group /\
   target "g1" svg = false) /\
  exists c before after,
    svg = fill c (before ++ group :: after) /\
    find_first (target "g1") (ahead c ++ before) = None /\
    duplicateLayer Xml.read Xml.write p 1700000000000 "g1" =
      Completed
        [SelectLater "copy-1700000000000";
         OnUpdate (Xml.write (fill c (before ++ group :: copy :: after)))].
Proof.
  intros rect group copy svg p. split; [repeat split; reflexivity|].
  exact (duplicateLayer_inserts_copy Xml.read Xml.write p 1700000000000 "g1"
           svg "g" [("id", "g1")] [rect] eq_refl eq_refl eq_refl eq_refl).
Defined.

Lemma moveLayer_swaps_with_sibling_witness :
  let rect := Elem "rect" [("id", "r"); ("x", "10")] [] in
  let svg :=
    Elem "svg" [("xmlns", "http://www.w3.org/2000/svg"); ("viewBox", "0 0 100 100")]
      [rect; Text " "; Elem "circle" [("id", "c"); ("r", "5")] []] in
  let p := mkPanel (Xml.write svg) None defaultStyleProps defaultShadowProps in
  (Xml.read (svgContent p) = Some svg /\
   unmarked svg = true /\
   getElementById "r" svg = Some rect /\
   target "r" svg = false) /\
  exists c before after siblings,
    svg = fill c (before ++ rect :: after) /\
    find_first (target "r") (ahead c ++ before) = None /\
    moveLayer Xml.read Xml.write p "r" up =
      Completed [OnUpdate (Xml.write (fill c siblings))] /\
    (forall texts next rest,
       after = texts ++ next :: rest ->
       forallb is_text texts = true -> is_element next = true ->
       siblings = before ++ texts ++ next :: rect :: rest) /\
    (forallb is_text after = true -> siblings = before ++ rect :: after).
Proof.
  intros rect svg p. split; [repeat split; reflexivity|].
  exact (moveLayer_swaps_with_sibling Xml.read Xml.write p "r" up svg rect
           eq_refl eq_refl eq_refl eq_refl).
Defined.

End LayerFacts.

(* ------------------------------------------------------------------ *)
(** ** Whole numbers through [toString] and [parseFloat]               *)
(* ------------------------------------------------------------------ *)

Module NumberFacts.
Import Num NumFacts.

Lemma digit_of_not_space c d : digit_of c = Some d -> Str.is_space c = false.
Proof.
  unfold digit_of, Str.is_space. set (k := nat_of_ascii c).
  destruct ((48 <=? k) && (k <=? 57)) eqn:E; [|discriminate]. intros _.
  apply andb_prop in E as [E1 E2].
  apply Nat.leb_le in E1. apply Nat.leb_le in E2.
  repeat (apply orb_false_intro); apply Nat.eqb_neq; lia.
Qed.

Lemma read_digits_step c d rest acc count :
  digit_of c = Some d ->
  read_digits digit_of 10 (String c rest) acc count =
  read_digits digit_of 10 rest (acc * 10 + d)%N (S count).
Proof. intro H. cbn [read_digits]. now rewrite H. Qed.

(** Reading the digits a numeral was written with. *)
Lemma read_digits_uint u :
  forall rest acc count,
    read_digits digit_of 10 (NilEmpty.string_of_uint u +++ rest) acc count =
    read_digits digit_of 10 rest
      (acc * 10 ^ DecimalPos.Unsigned.usize u +
       DecimalPos.Unsigned.of_lu (Decimal.rev u))%N
      (count + String.length (NilEmpty.string_of_uint u)).
Proof.
  induction u; intros rest acc count;
    cbn [NilEmpty.string_of_uint String.append String.length
         DecimalPos.Unsigned.usize];
    [ cbn; f_equal; [ring | lia]
    | match goal with
      | |- read_digits _ _ (String ?c _) _ _ = _ =>
          erewrite (read_digits_step c) by (cbv; reflexivity)
      end;
      match goal with
      | |- context [Decimal.rev (?d u)] =>
          change (Decimal.rev (d u)) with (Decimal.revapp u (d Decimal.Nil));
          rewrite (DecimalPos.Unsigned.of_lu_revapp u (d Decimal.Nil))
      end;
      rewrite IHu; cbn [DecimalPos.Unsigned.of_lu]; rewrite N.pow_succ_r';
      f_equal; [ring | lia] .. ].
Qed.

Lemma string_of_N_digits n :
  string_of_N n = NilEmpty.string_of_uint (N.to_uint n).
Proof.
  unfold string_of_N, NilZero.string_of_uint.
  destruct (N.to_uint n) eqn:E; try reflexivity.
  destruct n; [discriminate|].
  exfalso. now apply (DecimalPos.Unsigned.to_uint_nonnil p).
Qed.

(** A printed natural number is read back, whatever follows it that
    is no digit. *)
Lemma read_digits_string_of_N n rest :
  exists count,
    count <> 0 /\
    read_digits digit_of 10 (string_of_N n +++ rest) 0%N 0 =
    read_digits digit_of 10 rest n count.
Proof.
  exists (String.length (string_of_N n)). split.
  - pose proof (string_of_N_nonempty n) as H.
    destruct (string_of_N n); [congruence | discriminate].
  - rewrite string_of_N_digits, read_digits_uint. f_equal.
    rewrite <- DecimalPos.Unsigned.of_uint_alt.
    change (Pos.of_uint (N.to_uint n)) with (N.of_uint (N.to_uint n)).
    rewrite DecimalN.Unsigned.of_to. lia.
Qed.

Lemma string_of_N_first n :
  exists c s d, string_of_N n = String c s /\ digit_of c = Some d.
Proof.
  rewrite string_of_N_digits.
  destruct (N.to_uint n) eqn:E;
    try (do 3 eexists; split; [reflexivity | cbv; reflexivity]).
  destruct n; [discriminate|].
  exfalso. now apply (DecimalPos.Unsigned.to_uint_nonnil p).
Qed.

Lemma Qred_integer z : Qred (Qmake z 1) = Qmake z 1.
Proof.
  unfold Qred.
  pose proof (Z.ggcd_gcd z 1) as Hg.
  pose proof (Z.ggcd_correct_divisors z 1) as Hd.
  destruct (Z.ggcd z 1) as [g [aa bb]]. cbn [fst snd] in *.
  rewrite Z.gcd_1_r in Hg. subst g. destruct Hd as [Ha Hb].
  rewrite Z.mul_1_l in Ha, Hb. subst aa bb. reflexivity.
Qed.

Lemma read_decimal_N n :
  read_decimal (string_of_N n) = (of_Z (Z.of_N n), EmptyString).
Proof.
  destruct (string_of_N_first n) as (c & s & d & E & Hd).
  destruct (read_digits_string_of_N n EmptyString) as (count & Hc & Hr).
  rewrite StrFacts.append_empty_r in Hr. cbn [read_digits] in Hr.
  unfold read_decimal.
  assert (Hsign : (let '(negative, s2) :=
                     match string_of_N n with
                     | String "-" r => (true, r)
                     | String "+" r => (false, r)
                     | _ => (false, string_of_N n)
                     end in (negative, s2)) = (false, string_of_N n)).
  { rewrite E. destruct c as [[] [] [] [] [] [] [] []]; try reflexivity;
      cbv in Hd; discriminate. }
  destruct (match string_of_N n with
            | String "-" r => (true, r)
            | String "+" r => (false, r)
            | _ => (false, string_of_N n)
            end) as [negative s2].
  injection Hsign as -> ->. rewrite Hr.
  destruct count as [|count]; [congruence|].
  cbn [Nat.add Nat.eqb pow10 Nat.iter].
  rewrite N.mul_1_r, N.add_0_r. unfold of_Z. f_equal.
  change (inject_Z (Z.of_N n)) with (Qmake (Z.of_N n) 1).
  now rewrite Qred_integer.
Qed.

Lemma toString_of_Z z :
  toString (of_Z z) =
    match z with
    | Z0 => "0"
    | Zpos p => string_of_N (Npos p)
    | Zneg p => "-" +++ string_of_N (Npos p)
    end.
Proof.
  destruct z as [|p|p]; [reflexivity|..]; unfold toString, of_Z, unsigned_string;
    cbn [inject_Z Qnum Qden]; now rewrite N.mod_1_r, N.div_1_r.
Qed.

Lemma read_decimal_of_Z z :
  read_decimal (toString (of_Z z)) = (of_Z z, EmptyString).
Proof.
  rewrite toString_of_Z. destruct z as [|p|p].
  - reflexivity.
  - apply (read_decimal_N (Npos p)).
  - pose proof (read_decimal_N (Npos p)) as H.
    destruct (string_of_N_first (Npos p)) as (c & s & d & E & Hd).
    destruct (read_digits_string_of_N (Npos p) EmptyString) as (count & Hc & Hr).
    rewrite StrFacts.append_empty_r in Hr. cbn [read_digits] in Hr.
    unfold read_decimal. cbn [String.append]. rewrite Hr.
    destruct count as [|count]; [congruence|].
    cbn [Nat.add Nat.eqb pow10 Nat.iter].
    rewrite N.mul_1_r, N.add_0_r. unfold of_Z. f_equal.
    change (Qred (- (Z.of_N (N.pos p) # pow10 0))) with (Qred (Qmake (Z.neg p) 1)).
    now rewrite Qred_integer.
Qed.

Lemma trimStart_toString_of_Z z :
  Str.trimStart (toString (of_Z z)) = toString (of_Z z).
Proof.
  rewrite toString_of_Z. destruct z as [|p|p]; try reflexivity.
  destruct (string_of_N_first (Npos p)) as (c & s & d & E & Hd).
  rewrite E. cbn [Str.trimStart]. now rewrite (digit_of_not_space c d Hd).
Qed.

(** A whole number printed by [toString] is read back by
    [parseFloat]. *)
Lemma parseFloat_toString_of_Z z : parseFloat (toString (of_Z z)) = of_Z z.
Proof.
  unfold parseFloat. now rewrite trimStart_toString_of_Z, read_decimal_of_Z.
Qed.

Lemma add_of_Z a b : add (of_Z a) (of_Z b) = of_Z (a + b).
Proof.
  unfold add, lift2, of_Z. f_equal.
  change (inject_Z a + inject_Z b)%Q with (Qmake (a * 1 + b * 1) 1).
  now rewrite !Z.mul_1_r, Qred_integer.
Qed.

Lemma sub_of_Z a b : sub (of_Z a) (of_Z b) = of_Z (a - b).
Proof.
  unfold sub, lift2, of_Z. f_equal.
  change (inject_Z a - inject_Z b)%Q with (Qmake (a * 1 + - b * 1) 1).
  now rewrite !Z.mul_1_r, Qred_integer.
Qed.

End NumberFacts.

(* ------------------------------------------------------------------ *)
(** ** The preview under keys, buttons and commits                     *)
(* ------------------------------------------------------------------ *)

Module StudioFacts.
Import Dom Studio.
Local Open Scope Q_scope.

Lemma q_min_l a b : q_min a b <= a.
Proof.
  unfold q_min. destruct (Qle_bool a b) eqn:E; [apply Qle_refl|].
  apply Qlt_le_weak, Qnot_le_lt. intro H.
  apply Qle_bool_iff in H. congruence.
Qed.

Lemma q_min_r a b : q_min a b <= b.
Proof.
  unfold q_min. destruct (Qle_bool a b) eqn:E; [|apply Qle_refl].
  now apply Qle_bool_iff.
Qed.

Lemma q_min_glb a b c : c <= a -> c <= b -> c <= q_min a b.
Proof. intros Ha Hb. unfold q_min. now destruct (Qle_bool a b). Qed.

Lemma q_max_l a b : a <= q_max a b.
Proof.
  unfold q_max. destruct (Qle_bool a b) eqn:E; [|apply Qle_refl].
  now apply Qle_bool_iff.
Qed.

Lemma q_max_lub a b c : a <= c -> b <= c -> q_max a b <= c.
Proof. intros Ha Hb. unfold q_max. now destruct (Qle_bool a b). Qed.

Lemma zoom_in_range z : (1 # 10) <= z -> (1 # 10) <= zoom_in z /\ zoom_in z <= 5.
Proof.
  intro H. unfold zoom_in. split; [|apply q_min_l].
  apply q_min_glb; lra.
Qed.

Lemma zoom_out_range z : z <= 5 -> (1 # 10) <= zoom_out z /\ zoom_out z <= 5.
Proof.
  intro H. unfold zoom_out. split; [apply q_max_l|].
  apply q_max_lub; lra.
Qed.

Lemma fit_zoom_range w h svg :
  (1 # 10) <= fit_zoom w h svg /\ fit_zoom w h svg <= 5.
Proof.
  unfold fit_zoom. destruct (fit_size svg) as [w0 h0].
  split; [apply q_max_l|]. apply q_max_lub; [lra | apply q_min_l].
Qed.

Create HintDb studio.

Lemma sound_with_selection s st : sound st -> sound (with_selection s st).
Proof. now intros [Hz Hl]. Qed.

Lemma sound_with_clipboard c st : sound st -> sound (with_clipboard c st).
Proof. now intros [Hz Hl]. Qed.

Lemma sound_undo st : sound st -> sound (with_log (History.undo (log st)) st).
Proof.
  intros [Hz [Hl|Hl]]; (split; [exact Hz|]); cbn [with_log log].
  - left. now rewrite Hl.
  - right. now apply HistoryFacts.undo_consistent.
Qed.

Lemma sound_redo st : sound st -> sound (with_log (History.redo (log st)) st).
Proof.
  intros [Hz [Hl|Hl]]; (split; [exact Hz|]); cbn [with_log log].
  - left. now rewrite Hl.
  - right. now apply HistoryFacts.redo_consistent.
Qed.

Lemma sound_handleUpdate txt st :
  sound st -> sound (with_log (History.handleUpdate (log st) txt) st).
Proof.
  intros [Hz _]. split; [exact Hz|]. right.
  apply HistoryFacts.handleUpdate_consistent.
Qed.

Lemma sound_zoom_in st : sound st -> sound (with_zoom (zoom_in (zoom st)) st).
Proof.
  intros [[Hlo Hhi] Hl]. split; [|exact Hl]. now apply zoom_in_range.
Qed.

Lemma sound_zoom_out st : sound st -> sound (with_zoom (zoom_out (zoom st)) st).
Proof.
  intros [[Hlo Hhi] Hl]. split; [|exact Hl]. now apply zoom_out_range.
Qed.

Lemma sound_loaded doc st : sound (loaded doc st).
Proof.
  split; [cbn; lra|]. right. apply SessionFacts.load_consistent.
Qed.

#[local] Hint Resolve sound_with_selection sound_with_clipboard sound_undo
  sound_redo sound_handleUpdate sound_zoom_in sound_zoom_out sound_loaded
  : studio.

Section Browser.

Variable parse : string -> option node.
Variable serialize : node -> string.
Variable parse_fragment : string -> option node.

Lemma sound_fit container content st :
  sound st -> sound (handleFitToScreen parse container content st).
Proof.
  intro H. unfold handleFitToScreen.
  destruct container as [[w h]|]; [|exact H].
  destruct content as [[|c rest]|]; try exact H.
  destruct (parse (String c rest)); [|exact H].
  destruct (_ || _); [exact H|].
  destruct H as [_ Hl]. split; [apply fit_zoom_range | exact Hl].
Qed.

Lemma sound_commit svg st : sound st -> sound (commit serialize svg st).
Proof. apply sound_handleUpdate. Qed.

Lemma sound_remove_selected id svg st :
  sound st -> sound (remove_selected serialize id svg st).
Proof.
  intro H. unfold remove_selected.
  destruct (Editor.edit_by_id id _ _ svg) as [[x|x|]|]; auto using sound_commit with studio.
Qed.

#[local] Hint Resolve sound_fit sound_commit sound_remove_selected : studio.

Ltac split_cases :=
  repeat match goal with
         | |- sound (if ?b then _ else _) => destruct b
         | |- sound (match ?x with _ => _ end) => destruct x
         | |- sound (let '(_, _) := ?x in _) => destruct x
         end.

Lemma sound_handleKeyDown typing container now e st :
  sound st -> sound (handleKeyDown parse serialize typing container now e st).
Proof.
  intro H. unfold handleKeyDown. split_cases; auto 6 with studio.
Qed.

Lemma sound_handlePaste typing now e st :
  sound st -> sound (handlePaste parse serialize parse_fragment typing now e st).
Proof.
  intro H. unfold handlePaste. split_cases; auto 6 with studio.
Qed.

Lemma sound_react st ev :
  sound st -> sound (react parse serialize parse_fragment st ev).
Proof.
  intro H. destruct ev; cbn [react]; auto with studio.
  unfold keydown. now apply sound_handlePaste, sound_handleKeyDown.
Qed.

(** X12. Whatever happens to the preview (documents loaded, keys
    pressed, commits from the panel or a drag, selections, toolbar
    buttons, fits called from a timer with an older document), the
    zoom stays between 0.1 and 5, and once the history holds a document
    its index addresses an entry and the current document is that
    entry. *)
Theorem preview_stays_sound (evs : list event) :
  let st := run parse serialize parse_fragment evs initial in
  ((1 # 10) <= zoom st /\ zoom st <= 5) /\
  (log st = History.initial \/
   ((History.historyIndex (log st) < List.length (History.history (log st)))%nat /\
    History.currentContent (log st) =
      nth_error (History.history (log st)) (History.historyIndex (log st)))).
Proof.
  cbv zeta.
  assert (H : forall st, sound st ->
                sound (run parse serialize parse_fragment evs st)).
  { induction evs as [|ev evs IH]; intros st Hs; [exact Hs|].
    cbn [run fold_left]. apply IH. now apply sound_react. }
  apply H. split; [cbn; lra | now left].
Qed.

End Browser.

End StudioFacts.

(* ------------------------------------------------------------------ *)
(** ** The keyboard shortcuts                                          *)
(* ------------------------------------------------------------------ *)

Module KeyFacts.
Import Dom Studio StudioFacts.

Lemma lower_is_v s : Str.toLowerCase s = "v" -> s = "v" \/ s = "V".
Proof.
  destruct s as [|c [|c2 r]]; cbn [Str.toLowerCase]; try discriminate.
  intro H. injection H as H.
  destruct c as [[] [] [] [] [] [] [] []]; cbv in H; try discriminate;
    first [left; reflexivity | right; reflexivity].
Qed.

Ltac split_matches :=
  repeat match goal with
         | |- context [match ?x with _ => _ end] => destruct x
         end.

Section Browser.

Variable parse : string -> option node.
Variable serialize : node -> string.
Variable parse_fragment : string -> option node.

Lemma handleKeyDown_ignores_paste typing container now e st :
  (ctrlKey e || metaKey e) && String.eqb (Str.toLowerCase (key e)) "v" = true ->
  handleKeyDown parse serialize typing container now e st = st.
Proof.
  intro H. apply andb_prop in H as [Hcmd Hl].
  apply String.eqb_eq in Hl. pose proof (lower_is_v _ Hl) as Hv.
  destruct e as [k c m s]. cbn [key ctrlKey metaKey shiftKey] in *.
  unfold Studio.handleKeyDown, arrow. cbn [key ctrlKey metaKey shiftKey].
  cbv zeta. rewrite Hl. clear Hl.
  destruct typing; [reflexivity|].
  destruct Hv as [-> | ->]; destruct c, m, s; try discriminate; cbn;
    split_matches; reflexivity.
Qed.

Lemma handlePaste_ignores_others typing now e st :
  (ctrlKey e || metaKey e) && String.eqb (Str.toLowerCase (key e)) "v" = false ->
  handlePaste parse serialize parse_fragment typing now e st = st.
Proof.
  intro H. unfold Studio.handlePaste. rewrite H. now destruct typing.
Qed.

(** X13. The two [keydown] listeners never both act on one event: the
    paste combination (Ctrl or Meta with V) is handled by [handlePaste]
    alone, every other key by [handleKeyDown] alone; and while the
    focus is in a text field no key changes anything. *)
Theorem keydown_has_one_listener (typing : bool) (container : option (Z * Z))
    (now : N) (e : key_event) (st : studio) :
  keydown parse serialize parse_fragment typing container now e st =
    (if (ctrlKey e || metaKey e) && String.eqb (Str.toLowerCase (key e)) "v"
     then handlePaste parse serialize parse_fragment typing now e st
     else handleKeyDown parse serialize typing container now e st) /\
  keydown parse serialize parse_fragment true container now e st = st.
Proof.
  split.
  - unfold Studio.keydown.
    destruct ((ctrlKey e || metaKey e) && _) eqn:E.
    + now rewrite (handleKeyDown_ignores_paste _ _ _ _ _ E).
    + now apply handlePaste_ignores_others.
  - reflexivity.
Qed.

Ltac one_step :=
  cbn [log with_log with_selection with_zoom with_clipboard commit];
  first [ left; reflexivity
        | right; left; reflexivity
        | right; right; left; reflexivity
        | right; right; right; eexists; reflexivity ].

(** A key changes the history by at most one step. *)
Lemma handleKeyDown_log_step typing container now e st :
  let l1 := log (handleKeyDown parse serialize typing container now e st) in
  l1 = log st \/ l1 = History.undo (log st) \/ l1 = History.redo (log st) \/
  exists txt, l1 = History.handleUpdate (log st) txt.
Proof.
  cbv zeta.
  unfold Studio.handleKeyDown, handleFitToScreen, remove_selected.
  repeat match goal with
         | |- context [if ?b then _ else _] => destruct b
         | |- context [match ?x with _ => _ end] => destruct x
         end; one_step.
Qed.

Lemma handlePaste_log_step typing now e st :
  let l1 := log (handlePaste parse serialize parse_fragment typing now e st) in
  l1 = log st \/ l1 = History.undo (log st) \/ l1 = History.redo (log st) \/
  exists txt, l1 = History.handleUpdate (log st) txt.
Proof.
  cbv zeta. unfold Studio.handlePaste.
  repeat match goal with
         | |- context [if ?b then _ else _] => destruct b
         | |- context [match ?x with _ => _ end] => destruct x
         end; one_step.
Qed.

Lemma ctrl_z_undoes container now st :
  keydown parse serialize parse_fragment false container now
    (mkKey "z" true false false) st =
  with_log (History.undo (log st)) st.
Proof. reflexivity. Qed.

(** X14. One key event moves the history by at most one step: it
    leaves it alone, undoes, redoes, or commits one document.  When it
    commits, the committed text is the current document, and Ctrl+Z
    pressed next shows the document that was current before the key,
    at the index it had. *)
Theorem committing_key_is_undone (typing : bool) (container : option (Z * Z))
    (now : N) (e : key_event) (st : studio)
    (container' : option (Z * Z)) (now' : N) :
  History.consistent (log st) ->
  let st1 := keydown parse serialize parse_fragment typing container now e st in
  let st2 := keydown parse serialize parse_fragment false container' now'
               (mkKey "z" true false false) st1 in
  log st1 = log st \/
  log st1 = History.undo (log st) \/
  log st1 = History.redo (log st) \/
  exists txt,
    log st1 = History.handleUpdate (log st) txt /\
    History.currentContent (log st1) = Some txt /\
    History.currentContent (log st2) = History.currentContent (log st) /\
    History.historyIndex (log st2) = History.historyIndex (log st).
Proof.
  intros Hc st1 st2.
  assert (Hstep : log st1 = log st \/ log st1 = History.undo (log st) \/
                  log st1 = History.redo (log st) \/
                  exists txt, log st1 = History.handleUpdate (log st) txt).
  { unfold st1.
    destruct (keydown_has_one_listener typing container now e st) as [-> _].
    destruct (_ && _);
      [apply handlePaste_log_step | apply handleKeyDown_log_step]. }
  destruct Hstep as [H|[H|[H|[txt H]]]]; auto.
  right; right; right. exists txt. split; [exact H|].
  unfold st2. rewrite ctrl_z_undoes. cbn [log with_log]. rewrite H.
  rewrite (SessionFacts.undo_handleUpdate _ _ Hc). now repeat split.
Qed.




End Browser.


Lemma committing_key_is_undone_witness :
  let svg :=
    Elem "svg" [("viewBox", "0 0 100 100")]
      [Elem "rect" [("id", "r"); ("x", "10"); ("y", "10")] []] in
  let st :=
    mkStudio (History.load (Xml.write svg)) (4 # 5) (Some "r") None in
  let st1 :=
    keydown Xml.read Xml.write Xml.read false None 1700000000000
      (mkKey "Delete" false false false) st in
  let st2 :=
    keydown Xml.read Xml.write Xml.read false None 1700000000001
      (mkKey "z" true false false) st1 in
  History.consistent (log st) /\
  (log st1 = log st \/
   log st1 = History.undo (log st) \/
   log st1 = History.redo (log st) \/
   exists txt,
     log st1 = History.handleUpdate (log st) txt /\
     History.currentContent (log st1) = Some txt /\
     History.currentContent (log st2) = History.currentContent (log st) /\
     History.historyIndex (log st2) = History.historyIndex (log st)).
Proof.
  intros svg st st1 st2.
  assert (Hc : History.consistent (log st))
    by (split; [cbn; lia | reflexivity]).
  split; [exact Hc|].
  exact (committing_key_is_undone Xml.read Xml.write Xml.read false None
           1700000000000 (mkKey "Delete" false false false) st None
           1700000000001 Hc).
Defined.

End KeyFacts.

(* ------------------------------------------------------------------ *)
(** ** Nudging with the arrow keys                                     *)
(* ------------------------------------------------------------------ *)

Module NudgeFacts.
Import Dom Studio DomFacts NumFacts NumberFacts.

Lemma attr_or_written name d x a :
  attr_or name d (setAttribute name (Num.toString x) a) = Num.toString x.
Proof.
  unfold attr_or. rewrite getAttribute_setAttribute_same.
  pose proof (toString_nonempty x) as H.
  now destruct (Num.toString x).
Qed.

Lemma attr_or_kept name name' d v a :
  name <> name' -> attr_or name d (setAttribute name' v a) = attr_or name d a.
Proof.
  intro H. unfold attr_or. now rewrite getAttribute_setAttribute_other.
Qed.

(** One nudge of two position attributes that hold whole numbers. *)
Lemma nudge_attrs_whole nx ny dx dy zx zy a :
  nx <> ny ->
  Num.parseFloat (attr_or nx "0" a) = Num.of_Z zx ->
  Num.parseFloat (attr_or ny "0" a) = Num.of_Z zy ->
  let a' := nudge_attrs nx ny dx dy a in
  getAttribute nx a' = Some (Num.toString (Num.of_Z (zx + dx))) /\
  getAttribute ny a' = Some (Num.toString (Num.of_Z (zy + dy))) /\
  Num.parseFloat (attr_or nx "0" a') = Num.of_Z (zx + dx) /\
  Num.parseFloat (attr_or ny "0" a') = Num.of_Z (zy + dy) /\
  (forall name, name <> nx -> name <> ny ->
                getAttribute name a' = getAttribute name a).
Proof.
  intros Hne Hx Hy a'. unfold a', nudge_attrs. rewrite Hx, Hy, !add_of_Z.
  assert (Hyx : ny <> nx) by congruence.
  repeat split.
  - rewrite getAttribute_setAttribute_other by exact Hne.
    apply getAttribute_setAttribute_same.
  - apply getAttribute_setAttribute_same.
  - rewrite attr_or_kept by exact Hne.
    rewrite attr_or_written. apply parseFloat_toString_of_Z.
  - rewrite attr_or_written. apply parseFloat_toString_of_Z.
  - intros name H1 H2. now rewrite !getAttribute_setAttribute_other.
Qed.

(** X16. An arrow key moves a positioned element (rect, image, text,
    use by [x] and [y]; circle, ellipse by [cx] and [cy]) whose position
    attributes read as whole numbers by exactly the step, writes the
    new whole numbers, and leaves children and all other attributes
    alone; the opposite nudge then brings both numbers back.  Elements
    of other tags are not nudged at all. *)
Theorem nudge_there_and_back (t : string) (a : attributes) (k : list node)
    (dx dy zx zy : Z) :
  let tag := Str.toLowerCase t in
  let box := Editor.mem tag ["rect"; "image"; "text"; "use"] in
  let round := Editor.mem tag ["circle"; "ellipse"] in
  let nx := if box then "x" else "cx" in
  let ny := if box then "y" else "cy" in
  Num.parseFloat (attr_or nx "0" a) = Num.of_Z zx ->
  Num.parseFloat (attr_or ny "0" a) = Num.of_Z zy ->
  if box || round then
    exists a1 a2,
      nudge dx dy (Elem t a k) = Some (Elem t a1 k) /\
      nudge (- dx) (- dy) (Elem t a1 k) = Some (Elem t a2 k) /\
      getAttribute nx a1 = Some (Num.toString (Num.of_Z (zx + dx))) /\
      getAttribute ny a1 = Some (Num.toString (Num.of_Z (zy + dy))) /\
      Num.parseFloat (attr_or nx "0" a2) = Num.of_Z zx /\
      Num.parseFloat (attr_or ny "0" a2) = Num.of_Z zy /\
      (forall name, name <> nx -> name <> ny ->
                    getAttribute name a1 = getAttribute name a /\
                    getAttribute name a2 = getAttribute name a)
  else nudge dx dy (Elem t a k) = None.
Proof.
  intros tag box round nx ny Hx Hy.
  assert (Hn : forall d1 d2 b,
             nudge d1 d2 (Elem t b k) =
             if box || round then Some (Elem t (nudge_attrs nx ny d1 d2 b) k)
             else None).
  { intros d1 d2 b. unfold nudge. cbn [tagName set_attrs]. fold tag.
    fold box. fold round. unfold nx, ny. now destruct box, round. }
  clearbody box round.
  assert (Hne : nx <> ny) by (unfold nx, ny; destruct box; discriminate).
  destruct (nudge_attrs_whole nx ny dx dy zx zy a Hne Hx Hy)
    as (G1 & G2 & P1 & P2 & F1).
  destruct (nudge_attrs_whole nx ny (- dx) (- dy) (zx + dx) (zy + dy)
              (nudge_attrs nx ny dx dy a) Hne P1 P2)
    as (_ & _ & P3 & P4 & F2).
  replace (zx + dx + - dx)%Z with zx in P3 by lia.
  replace (zy + dy + - dy)%Z with zy in P4 by lia.
  destruct (box || round) eqn:E; [|now rewrite Hn].
  exists (nudge_attrs nx ny dx dy a),
         (nudge_attrs nx ny (- dx) (- dy) (nudge_attrs nx ny dx dy a)).
  rewrite !Hn. repeat split; try assumption.
  - now apply F1.
  - rewrite F2 by assumption. now apply F1.
Qed.

Lemma nudge_there_and_back_witness :
  let a := [("id", "c"); ("cx", "40"); ("cy", "-5"); ("r", "3")] in
  (Num.parseFloat (attr_or "cx" "0" a) = Num.of_Z 40 /\
   Num.parseFloat (attr_or "cy" "0" a) = Num.of_Z (-5)) /\
  exists a1 a2,
    nudge 10 0 (Elem "circle" a []) = Some (Elem "circle" a1 []) /\
    nudge (- 10) (- 0) (Elem "circle" a1 []) = Some (Elem "circle" a2 []) /\
    getAttribute "cx" a1 = Some (Num.toString (Num.of_Z (40 + 10))) /\
    getAttribute "cy" a1 = Some (Num.toString (Num.of_Z (-5 + 0))) /\
    Num.parseFloat (attr_or "cx" "0" a2) = Num.of_Z 40 /\
    Num.parseFloat (attr_or "cy" "0" a2) = Num.of_Z (-5) /\
    (forall name, name <> "cx" -> name <> "cy" ->
                  getAttribute name a1 = getAttribute name a /\
                  getAttribute name a2 = getAttribute name a).
Proof.
  intro a. split; [split; reflexivity|].
  exact (nudge_there_and_back "circle" a [] 10 0 40 (-5) eq_refl eq_refl).
Defined.

End NudgeFacts.

(* ================================================================== *)
(** ** New shapes ([addShape])                                         *)
(* ================================================================== *)

Module ShapeFacts.
Import Dom Editor DomFacts SearchFacts EditorFacts EditFacts GradientFacts
       ReadBackFacts LayerFacts.

Lemma shape_has_no_class s geometry cx cy size id :
  getAttribute "class" (shape_attributes s geometry cx cy size ++ [("id", id)]) = None.
Proof. destruct s; reflexivity. Qed.

Lemma shape_id s geometry cx cy size id :
  getAttribute "id" (shape_attributes s geometry cx cy size ++ [("id", id)]) = Some id.
Proof. destruct s; reflexivity. Qed.

Lemma shape_fill_written s geometry cx cy size id :
  getAttribute "fill" (shape_attributes s geometry cx cy size ++ [("id", id)]) =
  Some (shape_fill s).
Proof. destruct s; reflexivity. Qed.

Section Handlers.

Variable parse : string -> option node.
Variable serialize : node -> string.

(** X17. On a document in the SVG namespace without selection
    marker, a new shape becomes the last child of the [svg] element, so
    in document order it comes after every element there was and is
    painted on top; what was there is committed as it was.  The shape
    has the tag and the fill of its kind and the id [shape-<now>]; its
    selection is scheduled before [onUpdate] runs, and when no element
    had that id before, the id names the new shape in the committed
    document. *)
Theorem addShape_appends_on_top (p : panel) (now : N) (s : shape)
    (geometry t : string) (a : attributes) (k : list node) :
  parse (svgContent p) = Some (Elem t a k) ->
  Namespace.in_svg_namespace (Elem t a k) = true ->
  unmarked (Elem t a k) = true ->
  let id := stamp "shape-" now in
  exists written inside,
    let el := Elem (shape_tag s) written inside in
    addShape parse serialize p now s geometry =
      Completed [SelectLater id; OnUpdate (serialize (Elem t a (k ++ [el])))] /\
    getAttribute "id" written = Some id /\
    getAttribute "fill" written = Some (shape_fill s) /\
    (getElementById id (Elem t a k) = None ->
     getElementById id (Elem t a (k ++ [el])) = Some el).
Proof.
  intros Hparse _ Hclean id.
  exists (attrs_of (new_shape s geometry id (Elem t a k))),
         (children_of (new_shape s geometry id (Elem t a k))).
  cbv zeta.
  change (Elem (shape_tag s) (attrs_of (new_shape s geometry id (Elem t a k)))
            (children_of (new_shape s geometry id (Elem t a k))))
    with (new_shape s geometry id (Elem t a k)).
  set (el := new_shape s geometry id (Elem t a k)).
  assert (Hid : target id el = true).
  { unfold target, has_id, el, new_shape. rewrite shape_id, String.eqb_refl.
    destruct (String.eqb id EmptyString) eqn:E; [|reflexivity].
    apply String.eqb_eq in E. now apply stamp_nonempty in E. }
  assert (Hel : unmarked el = true).
  { unfold el, new_shape. rewrite unmarked_Elem. cbn [has_class].
    unfold class_tokens, attr_or. rewrite shape_has_no_class.
    now destruct s. }
  repeat split.
  - unfold addShape. rewrite (modifySvg_trace parse serialize _ _ _ Hparse).
    fold id. fold el. unfold appendChild. cbn [set_children children_of app].
    rewrite cleanup_unmarked; [reflexivity|].
    rewrite unmarked_Elem in Hclean |- *.
    rewrite forallb_app. cbn [forallb]. rewrite Hel.
    apply andb_true_iff in Hclean. destruct Hclean as [H1 H2].
    now rewrite H1, H2.
  - apply shape_id.
  - apply shape_fill_written.
  - intro Hnone. rewrite getElementById_find in *.
    rewrite find_in_Elem in *.
    rewrite (target_shallow id t a _ k).
    destruct (target id (Elem t a k)); [discriminate|].
    rewrite find_first_app, Hnone. cbn [find_first].
    destruct el; cbn [find_in]; now rewrite Hid.
Qed.

End Handlers.

Lemma addShape_appends_on_top_witness :
  let a := [("xmlns", "http://www.w3.org/2000/svg"); ("viewBox", "0 0 100 60")] in
  let k := [Elem "rect" [("id", "r"); ("x", "10")] []] in
  let p := mkPanel (Xml.write (Elem "svg" a k)) None defaultStyleProps
             defaultShadowProps in
  (Xml.read (svgContent p) = Some (Elem "svg" a k) /\
   Namespace.in_svg_namespace (Elem "svg" a k) = true /\
   unmarked (Elem "svg" a k) = true) /\
  exists written inside,
    addShape Xml.read Xml.write p 1700000000000 circle EmptyString =
      Completed
        [SelectLater "shape-1700000000000";
         OnUpdate (Xml.write (Elem "svg" a (k ++ [Elem "circle" written inside])))] /\
    getAttribute "id" written = Some "shape-1700000000000" /\
    getAttribute "fill" written = Some "#ec4899" /\
    (getElementById "shape-1700000000000" (Elem "svg" a k) = None ->
     getElementById "shape-1700000000000"
       (Elem "svg" a (k ++ [Elem "circle" written inside])) =
     Some (Elem "circle" written inside)).
Proof.
  intros a k p. split; [repeat split; reflexivity|].
  exact (addShape_appends_on_top Xml.read Xml.write p 1700000000000 circle
           EmptyString "svg" a k eq_refl eq_refl eq_refl).
Defined.

End ShapeFacts.

(* ================================================================== *)
(** ** Alignment ([alignLayer])                                        *)
(* ================================================================== *)

Module AlignFacts.
Import Dom Editor DomFacts NumFacts NumberFacts NudgeFacts.

Lemma Qred_coprime n d : Z.gcd n (Zpos d) = 1%Z -> Qred (Qmake n d) = Qmake n d.
Proof.
  intro Hg. unfold Qred.
  pose proof (Z.ggcd_gcd n (Zpos d)) as Hg'.
  pose proof (Z.ggcd_correct_divisors n (Zpos d)) as Hd.
  destruct (Z.ggcd n (Zpos d)) as [g [aa bb]]. cbn [fst snd] in *.
  rewrite Hg in Hg'. subst g. destruct Hd as [Ha Hb].
  rewrite Z.mul_1_l in Ha, Hb. subst aa. rewrite <- Hb. reflexivity.
Qed.

Lemma gcd_odd_2 z : Z.odd z = true -> Z.gcd z 2 = 1%Z.
Proof.
  intro Ho.
  pose proof (Z.gcd_nonneg z 2) as Hn.
  pose proof (Z.gcd_divide_l z 2) as Hl.
  pose proof (Z.gcd_divide_r z 2) as Hr.
  assert (Hle : (Z.gcd z 2 <= 2)%Z) by (apply Z.divide_pos_le; [lia | exact Hr]).
  assert (H0 : Z.gcd z 2 <> 0%Z).
  { intro E. rewrite E in Hr. destruct Hr as [c Hc]. lia. }
  assert (H2 : Z.gcd z 2 <> 2%Z).
  { intro E. rewrite E in Hl. destruct Hl as [c Hc]. subst z.
    rewrite Z.mul_comm, Z.odd_mul in Ho. discriminate. }
  lia.
Qed.

Lemma to_of_Z e z : (e == inject_Z z)%Q -> Num.Fin (Qred e) = Num.of_Z z.
Proof.
  intro H. unfold Num.of_Z. f_equal. rewrite (Qred_complete _ _ H).
  apply Qred_integer.
Qed.

Lemma to_half e z :
  (e == Qmake z 2)%Q -> Num.Fin (Qred e) = Num.div (Num.of_Z z) (Num.of_Z 2).
Proof.
  intro H. unfold Num.div, Num.of_Z.
  change (Qeq_bool (inject_Z 2) 0) with false. cbv iota. f_equal.
  apply Qred_complete. rewrite H. unfold Qeq, Qdiv, Qmult, Qinv, inject_Z.
  cbn [Qnum Qden]. cbn. lia.
Qed.

Lemma trimStart_digits n rest :
  Str.trimStart (Num.string_of_N n +++ rest) = Num.string_of_N n +++ rest.
Proof.
  destruct (string_of_N_first n) as (c & s & d & E & Hd).
  rewrite E. cbn [String.append Str.trimStart].
  now rewrite (digit_of_not_space c d Hd).
Qed.

(** A printed natural number followed by the fraction [.5]. *)
Lemma read_decimal_and_half n :
  Num.read_decimal (Num.string_of_N n +++ ".5") =
  (Num.Fin (Qred (Qmake (Z.of_N (n * 10 + 5)) 10)), EmptyString).
Proof.
  destruct (string_of_N_first n) as (c & s & d & E & Hd).
  destruct (read_digits_string_of_N n ".5") as (count & Hc & Hr).
  cbn [Num.read_digits] in Hr.
  change (Num.digit_of ".") with (@None N) in Hr. cbv iota in Hr.
  unfold Num.read_decimal.
  assert (Hsign : (let '(negative, s2) :=
                     match Num.string_of_N n +++ ".5" with
                     | String "-" r => (true, r)
                     | String "+" r => (false, r)
                     | _ => (false, Num.string_of_N n +++ ".5")
                     end in (negative, s2)) =
                  (false, Num.string_of_N n +++ ".5")).
  { rewrite E. cbn [String.append].
    destruct c as [[] [] [] [] [] [] [] []]; try reflexivity;
      cbv in Hd; discriminate. }
  destruct (match Num.string_of_N n +++ ".5" with
            | String "-" r => (true, r)
            | String "+" r => (false, r)
            | _ => (false, Num.string_of_N n +++ ".5")
            end) as [negative s2].
  injection Hsign as -> ->. rewrite Hr.
  cbn [Num.read_digits]. change (Num.digit_of "5") with (Some 5%N). cbv iota.
  cbn [Num.read_digits].
  destruct count as [|count]; [congruence|].
  reflexivity.
Qed.

Lemma read_decimal_minus_half n :
  Num.read_decimal ("-" +++ Num.string_of_N n +++ ".5") =
  (Num.Fin (Qred (- Qmake (Z.of_N (n * 10 + 5)) 10)), EmptyString).
Proof.
  destruct (read_digits_string_of_N n ".5") as (count & Hc & Hr).
  cbn [Num.read_digits] in Hr.
  change (Num.digit_of ".") with (@None N) in Hr. cbv iota in Hr.
  unfold Num.read_decimal. cbn [String.append]. rewrite Hr.
  cbn [Num.read_digits]. change (Num.digit_of "5") with (Some 5%N). cbv iota.
  cbn [Num.read_digits].
  destruct count as [|count]; [congruence|].
  reflexivity.
Qed.

Lemma odd_halves p :
  Z.odd (Zpos p) = true ->
  (N.pos p mod 2 = 1)%N /\
  (Qmake (Z.of_N (N.pos p / 2 * 10 + 5)) 10 == Qmake (Zpos p) 2)%Q.
Proof.
  intro Ho.
  assert (Hm : (N.pos p mod 2 = 1)%N).
  { destruct p as [p|p|]; [|discriminate|reflexivity].
    symmetry. apply (N.mod_unique _ 2 (N.pos p) 1); lia. }
  split; [exact Hm|].
  pose proof (N.div_mod (N.pos p) 2 ltac:(discriminate)) as Hd.
  rewrite Hm in Hd. unfold Qeq. cbn [Qnum Qden].
  assert (Hz : Z.pos p = (2 * Z.of_N (N.pos p / 2) + 1)%Z) by lia.
  rewrite Hz at 1. lia.
Qed.

Lemma toString_half_odd p :
  (N.pos p mod 2 = 1)%N ->
  Num.unsigned_string (N.pos p) 2 = Num.string_of_N (N.pos p / 2) +++ ".5".
Proof. intro Hm. unfold Num.unsigned_string. rewrite Hm. reflexivity. Qed.

(** A half of a whole number printed by [toString] is read back by
    [parseFloat]. *)
Lemma parseFloat_toString_halves z :
  Num.parseFloat (Num.toString (Num.div (Num.of_Z z) (Num.of_Z 2))) =
  Num.div (Num.of_Z z) (Num.of_Z 2).
Proof.
  destruct (Z.odd z) eqn:Ho.
  - rewrite <- (to_half (Qmake z 2) z) by reflexivity.
    rewrite Qred_coprime by now apply gcd_odd_2.
    destruct z as [|p|p]; [discriminate|..].
    + destruct (odd_halves p Ho) as [Hm Hq].
      unfold Num.toString. cbn [Qnum Qden]. rewrite (toString_half_odd p Hm).
      unfold Num.parseFloat.
      rewrite trimStart_digits, read_decimal_and_half. cbn [fst]. f_equal.
      rewrite (Qred_complete _ _ Hq). now apply Qred_coprime, gcd_odd_2.
    + assert (Ho' : Z.odd (Zpos p) = true) by exact Ho.
      destruct (odd_halves p Ho') as [Hm Hq].
      unfold Num.toString. cbn [Qnum Qden]. rewrite (toString_half_odd p Hm).
      unfold Num.parseFloat. cbn [String.append Str.trimStart].
      change (Str.is_space "-") with false. cbv iota.
      change (String "-" (Num.string_of_N (N.pos p / 2) +++ ".5"))
        with ("-" +++ Num.string_of_N (N.pos p / 2) +++ ".5").
      rewrite read_decimal_minus_half. cbn [fst]. f_equal.
      assert (Hq' : (- Qmake (Z.of_N (N.pos p / 2 * 10 + 5)) 10 ==
                     Qmake (Zneg p) 2)%Q).
      { rewrite Hq. reflexivity. }
      rewrite (Qred_complete _ _ Hq'). now apply Qred_coprime, gcd_odd_2.
  - assert (He : Z.even z = true) by (rewrite <- Z.negb_odd, Ho; reflexivity).
    apply Z.even_spec in He as [m Hm].
    rewrite <- (to_half (Qmake z 2) z) by reflexivity.
    rewrite (to_of_Z _ m).
    + apply parseFloat_toString_of_Z.
    + subst z. unfold Qeq, inject_Z. cbn [Qnum Qden]. lia.
Qed.

Lemma mul_of_Z a b : Num.mul (Num.of_Z a) (Num.of_Z b) = Num.of_Z (a * b).
Proof.
  unfold Num.mul, Num.lift2. fold (Num.of_Z (a * b)). apply to_of_Z.
  unfold Qeq, Qmult, inject_Z. cbn [Qnum Qden]. lia.
Qed.

Lemma div_doubled r : Num.div (Num.of_Z (r * 2)) (Num.of_Z 2) = Num.of_Z r.
Proof.
  rewrite <- (to_half (Qmake (r * 2) 2) (r * 2)) by reflexivity.
  apply to_of_Z. unfold Qeq, inject_Z. cbn [Qnum Qden]. lia.
Qed.

Lemma add_half a b :
  Num.add (Num.div (Num.of_Z a) (Num.of_Z 2)) (Num.of_Z b) =
  Num.div (Num.of_Z (a + 2 * b)) (Num.of_Z 2).
Proof.
  rewrite <- (to_half (Qmake a 2) a) by reflexivity.
  unfold Num.add, Num.lift2, Num.of_Z. apply to_half.
  rewrite Qred_correct. unfold Qeq, Qplus, inject_Z. cbn [Qnum Qden]. lia.
Qed.

(** Two attributes written one after the other, as an alignment writes
    them. *)
Lemma aligned_pair n1 n2 v1 v2 a :
  n1 <> n2 ->
  let a' := setAttribute n2 (Num.toString v2)
              (setAttribute n1 (Num.toString v1) a) in
  Num.parseFloat (attr_or n1 "0" a') = Num.parseFloat (Num.toString v1) /\
  Num.parseFloat (attr_or n2 "0" a') = Num.parseFloat (Num.toString v2) /\
  (forall name, name <> n1 -> name <> n2 ->
                getAttribute name a' = getAttribute name a).
Proof.
  intros Hne a'. unfold a'. repeat split.
  - now rewrite attr_or_kept, attr_or_written by exact Hne.
  - now rewrite attr_or_written.
  - intros name H1 H2. now rewrite !getAttribute_setAttribute_other.
Qed.

(** X18. Aligning a rect or an image whose position and size read as
    whole numbers, in a view box of whole width [W] and height [H]:
    left and top put the corner at 0, right and bottom put the far
    edge on [W] and [H], center and middle leave equal room on both
    sides; the other coordinate keeps its number, and no attribute
    besides [x] and [y] is touched.  Numbers are idealised as
    rationals; the origin of the view box is not looked at. *)
Theorem align_box_reaches_target (al : alignment) (t : string)
    (a : attributes) (k : list node) (W H x y w h : Z) :
  let tag := Str.toLowerCase t in
  tag = "rect" \/ tag = "image" ->
  Num.parseFloat (attr_or "x" "0" a) = Num.of_Z x ->
  Num.parseFloat (attr_or "y" "0" a) = Num.of_Z y ->
  Num.parseFloat (attr_or "width" "0" a) = Num.of_Z w ->
  Num.parseFloat (attr_or "height" "0" a) = Num.of_Z h ->
  exists a',
    align_element al (Num.of_Z W) (Num.of_Z H) (Elem t a k) = Elem t a' k /\
    Num.parseFloat (attr_or "x" "0" a') =
      match al with
      | to_left => Num.of_Z 0
      | to_center => Num.div (Num.of_Z (W - w)) (Num.of_Z 2)
      | to_right => Num.of_Z (W - w)
      | _ => Num.of_Z x
      end /\
    Num.parseFloat (attr_or "y" "0" a') =
      match al with
      | to_top => Num.of_Z 0
      | to_middle => Num.div (Num.of_Z (H - h)) (Num.of_Z 2)
      | to_bottom => Num.of_Z (H - h)
      | _ => Num.of_Z y
      end /\
    (forall name, name <> "x" -> name <> "y" ->
                  getAttribute name a' = getAttribute name a).
Proof.
  intros tag Htag Hx Hy Hw Hh.
  assert (Hc : String.eqb tag "circle" = false)
    by (destruct Htag as [E | E]; rewrite E; reflexivity).
  assert (Hb : String.eqb tag "rect" || String.eqb tag "image" = true)
    by (destruct Htag as [E | E]; rewrite E; reflexivity).
  unfold align_element. cbn [tagName attrs_of]. fold tag.
  rewrite Hc, Hb, Hx, Hy, Hw, Hh. cbn [set_attrs].
  eexists. split; [reflexivity|].
  match goal with
  | |- context [setAttribute "y" (Num.toString ?vy)
                  (setAttribute "x" (Num.toString ?vx) a)] =>
      destruct (aligned_pair "x" "y" vx vy a ltac:(discriminate))
        as (Px & Py & Pf)
  end.
  rewrite Px, Py. split; [|split; [|exact Pf]].
  - destruct al; rewrite ?sub_of_Z;
      match goal with
      | |- Num.parseFloat (Num.toString (Num.of_Z _)) = _ =>
          exact (parseFloat_toString_of_Z _)
      | |- Num.parseFloat (Num.toString (Num.div (Num.of_Z _) _)) = _ =>
          exact (parseFloat_toString_halves _)
      end.
  - destruct al; rewrite ?sub_of_Z;
      match goal with
      | |- Num.parseFloat (Num.toString (Num.of_Z _)) = _ =>
          exact (parseFloat_toString_of_Z _)
      | |- Num.parseFloat (Num.toString (Num.div (Num.of_Z _) _)) = _ =>
          exact (parseFloat_toString_halves _)
      end.
Qed.

Lemma align_box_reaches_target_witness :
  let a := [("id", "r"); ("x", "10"); ("y", "20"); ("width", "35");
            ("height", "40")] in
  (Str.toLowerCase "rect" = "rect" \/ Str.toLowerCase "rect" = "image") /\
  Num.parseFloat (attr_or "x" "0" a) = Num.of_Z 10 /\
  Num.parseFloat (attr_or "y" "0" a) = Num.of_Z 20 /\
  Num.parseFloat (attr_or "width" "0" a) = Num.of_Z 35 /\
  Num.parseFloat (attr_or "height" "0" a) = Num.of_Z 40 /\
  exists a',
    align_element to_center (Num.of_Z 100) (Num.of_Z 60) (Elem "rect" a []) =
      Elem "rect" a' [] /\
    Num.parseFloat (attr_or "x" "0" a') =
      Num.div (Num.of_Z (100 - 35)) (Num.of_Z 2) /\
    Num.parseFloat (attr_or "y" "0" a') = Num.of_Z 20 /\
    (forall name, name <> "x" -> name <> "y" ->
                  getAttribute name a' = getAttribute name a).
Proof.
  intro a. repeat (split; [first [reflexivity | left; reflexivity]|]).
  exact (align_box_reaches_target to_center "rect" a [] 100 60 10 20 35 40
           (or_introl eq_refl) eq_refl eq_refl eq_refl eq_refl).
Defined.

(** X19. Aligning a circle whose centre and radius read as whole
    numbers, in a view box of whole width [W] and height [H]: left and
    top make it touch the lines at 0 (the centre is one radius in),
    right and bottom make it touch [W] and [H], center and middle put
    the centre on [W / 2] and [H / 2]; the other coordinate keeps its
    number, and no attribute besides [cx] and [cy] is touched.  Numbers
    are idealised as rationals. *)
Theorem align_circle_reaches_target (al : alignment) (t : string)
    (a : attributes) (k : list node) (W H cx cy r : Z) :
  Str.toLowerCase t = "circle" ->
  Num.parseFloat (attr_or "cx" "0" a) = Num.of_Z cx ->
  Num.parseFloat (attr_or "cy" "0" a) = Num.of_Z cy ->
  Num.parseFloat (attr_or "r" "0" a) = Num.of_Z r ->
  exists a',
    align_element al (Num.of_Z W) (Num.of_Z H) (Elem t a k) = Elem t a' k /\
    Num.parseFloat (attr_or "cx" "0" a') =
      match al with
      | to_left => Num.of_Z r
      | to_center => Num.div (Num.of_Z W) (Num.of_Z 2)
      | to_right => Num.of_Z (W - r)
      | _ => Num.of_Z cx
      end /\
    Num.parseFloat (attr_or "cy" "0" a') =
      match al with
      | to_top => Num.of_Z r
      | to_middle => Num.div (Num.of_Z H) (Num.of_Z 2)
      | to_bottom => Num.of_Z (H - r)
      | _ => Num.of_Z cy
      end /\
    (forall name, name <> "cx" -> name <> "cy" ->
                  getAttribute name a' = getAttribute name a).
Proof.
  intros Htag Hx Hy Hr.
  unfold align_element. cbn [tagName attrs_of].
  rewrite Htag, Hx, Hy, Hr. cbn [String.eqb Ascii.eqb Bool.eqb set_attrs].
  eexists. split; [reflexivity|].
  match goal with
  | |- context [setAttribute "cy" (Num.toString ?vy)
                  (setAttribute "cx" (Num.toString ?vx) a)] =>
      destruct (aligned_pair "cx" "cy" vx vy a ltac:(discriminate))
        as (Px & Py & Pf)
  end.
  rewrite Px, Py. clear Px Py.
  split; [|split; [|exact Pf]]; clear Pf.
  - rewrite !mul_of_Z, !div_doubled.
    destruct al; rewrite ?sub_of_Z, ?add_half, ?add_of_Z;
      match goal with
      | |- Num.parseFloat (Num.toString (Num.of_Z ?u)) = Num.of_Z ?v =>
          replace u with v by lia; apply parseFloat_toString_of_Z
      | |- Num.parseFloat (Num.toString (Num.div (Num.of_Z ?u) _)) =
           Num.div (Num.of_Z ?v) _ =>
          replace u with v by lia; apply parseFloat_toString_halves
      end.
  - rewrite !mul_of_Z, !div_doubled.
    destruct al; rewrite ?sub_of_Z, ?add_half, ?add_of_Z;
      match goal with
      | |- Num.parseFloat (Num.toString (Num.of_Z ?u)) = Num.of_Z ?v =>
          replace u with v by lia; apply parseFloat_toString_of_Z
      | |- Num.parseFloat (Num.toString (Num.div (Num.of_Z ?u) _)) =
           Num.div (Num.of_Z ?v) _ =>
          replace u with v by lia; apply parseFloat_toString_halves
      end.
Qed.

Lemma align_circle_reaches_target_witness :
  let a := [("id", "c"); ("cx", "40"); ("cy", "-5"); ("r", "3")] in
  Str.toLowerCase "circle" = "circle" /\
  Num.parseFloat (attr_or "cx" "0" a) = Num.of_Z 40 /\
  Num.parseFloat (attr_or "cy" "0" a) = Num.of_Z (-5) /\
  Num.parseFloat (attr_or "r" "0" a) = Num.of_Z 3 /\
  exists a',
    align_element to_right (Num.of_Z 100) (Num.of_Z 60) (Elem "circle" a []) =
      Elem "circle" a' [] /\
    Num.parseFloat (attr_or "cx" "0" a') = Num.of_Z (100 - 3) /\
    Num.parseFloat (attr_or "cy" "0" a') = Num.of_Z (-5) /\
    (forall name, name <> "cx" -> name <> "cy" ->
                  getAttribute name a' = getAttribute name a).
Proof.
  intro a. repeat (split; [reflexivity|]).
  exact (align_circle_reaches_target to_right "circle" a [] 100 60 40 (-5) 3
           eq_refl eq_refl eq_refl eq_refl).
Defined.

End AlignFacts.

(* ================================================================== *)
(** ** The canvas settings ([updateCanvas])                            *)
(* ================================================================== *)

Module CanvasFacts.
Import Dom Editor Canvas DomFacts SearchFacts EditorFacts GradientFacts
       ReadBackFacts LayerFacts.

Lemma setAttribute_present n v a :
  getAttribute n a = Some v -> setAttribute n v a = a.
Proof.
  induction a as [|[m x] a IH]; [discriminate|].
  cbn [getAttribute setAttribute].
  destruct (String.eqb m n); [now intros [= ->] | intro H; now rewrite IH].
Qed.

Lemma setAttribute_again n v1 v2 a :
  setAttribute n v2 (setAttribute n v1 a) = setAttribute n v2 a.
Proof.
  induction a as [|[m x] a IH]; cbn [setAttribute].
  - now rewrite String.eqb_refl.
  - destruct (String.eqb m n) eqn:E; cbn [setAttribute]; rewrite E;
      [reflexivity | now rewrite IH].
Qed.

(** A second colour replaces the first and leaves the rest of the
    rectangle as the first painting made it. *)
Lemma paint_again vb v1 v2 a : paint vb v2 (paint vb v1 a) = paint vb v2 a.
Proof.
  unfold paint.
  set (x := Num.toString (Num.sub (entry vb 0) (Num.of_Z 1000))).
  set (y := Num.toString (Num.sub (entry vb 1) (Num.of_Z 1000))).
  set (w := Num.toString (Num.add (entry vb 2) (Num.of_Z 2000))).
  set (h := Num.toString (Num.add (entry vb 3) (Num.of_Z 2000))).
  set (a4 := setAttribute "height" h
               (setAttribute "width" w (setAttribute "y" y (setAttribute "x" x a)))).
  assert (Hx : getAttribute "x" (setAttribute "fill" v1 a4) = Some x).
  { unfold a4. rewrite !getAttribute_setAttribute_other by discriminate.
    apply getAttribute_setAttribute_same. }
  assert (Hy : getAttribute "y" (setAttribute "fill" v1 a4) = Some y).
  { unfold a4. rewrite !getAttribute_setAttribute_other by discriminate.
    apply getAttribute_setAttribute_same. }
  assert (Hw : getAttribute "width" (setAttribute "fill" v1 a4) = Some w).
  { unfold a4. rewrite !getAttribute_setAttribute_other by discriminate.
    apply getAttribute_setAttribute_same. }
  assert (Hh : getAttribute "height" (setAttribute "fill" v1 a4) = Some h).
  { unfold a4. rewrite !getAttribute_setAttribute_other by discriminate.
    apply getAttribute_setAttribute_same. }
  rewrite (setAttribute_present _ _ _ Hx), (setAttribute_present _ _ _ Hy),
    (setAttribute_present _ _ _ Hw), (setAttribute_present _ _ _ Hh).
  apply setAttribute_again.
Qed.

Lemma paint_other name vb v a :
  name <> "x" -> name <> "y" -> name <> "width" -> name <> "height" ->
  name <> "fill" -> getAttribute name (paint vb v a) = getAttribute name a.
Proof.
  intros. unfold paint. now rewrite !getAttribute_setAttribute_other.
Qed.

Lemma paint_fill vb v a : getAttribute "fill" (paint vb v a) = Some v.
Proof. unfold paint. apply getAttribute_setAttribute_same. Qed.

Lemma target_paint id vb v t a k :
  target id (Elem t (paint vb v a) k) = target id (Elem t a k).
Proof. unfold target, has_id. now rewrite paint_other by discriminate. Qed.

Lemma has_class_no_class c t a k :
  getAttribute "class" a = None -> has_class c (Elem t a k) = false.
Proof.
  intro H. unfold has_class, class_tokens, attr_or. now rewrite H.
Qed.

Lemma unmarked_prepend t a k r :
  unmarked (Elem t a k) = true ->
  unmarked r = true ->
  unmarked (Elem t a (r :: k)) = true.
Proof.
  unfold unmarked. rewrite !elements_Elem. cbn [forallb flat_map has_class].
  rewrite forallb_app. intros H Hr.
  apply andb_prop in H as [H1 H2]. now rewrite H1, Hr, H2.
Qed.

(** After an in-place edit of the element [id] names, the id names the
    edited element. *)
Lemma update_by_id_found id F svg el :
  (forall t a k, target id (Elem t (F a) k) = target id (Elem t a k)) ->
  getElementById id svg = Some el ->
  exists svg',
    update_by_id id (set_attrs F) svg = Some svg' /\
    getElementById id svg' = Some (set_attrs F el) /\
    attrs_of svg' = (if target id svg then F (attrs_of svg) else attrs_of svg).
Proof.
  intros Hkept Hel. rewrite getElementById_find in Hel.
  destruct svg as [t a k|s]; [|cbn [find_in] in Hel; now rewrite target_text in Hel].
  unfold update_by_id. rewrite find_in_Elem in Hel.
  destruct (target id (Elem t a k)) eqn:Hroot.
  - injection Hel as <-. eexists. split; [reflexivity|]. split; [|reflexivity].
    rewrite getElementById_find. cbn [set_attrs find_in]. now rewrite Hkept, Hroot.
  - destruct (update_found (target id) (target_shallow id) (target_text id)
                F Hkept k el Hel) as (k' & E & Hf).
    rewrite edit_in_Elem.
    change (fun before el0 after => before ++ set_attrs F el0 :: after)
      with (in_place F).
    rewrite E. eexists. split; [reflexivity|]. split; [|reflexivity].
    rewrite getElementById_find, find_in_Elem.
    now rewrite (target_shallow id t a k' k), Hroot.
Qed.

(** What an id names after the clean-up. *)
Lemma getElementById_cleanup id svg :
  getElementById id (cleanup svg) =
  option_map (map_nodes (set_attrs clean_attrs)) (getElementById id svg).
Proof.
  unfold getElementById. rewrite cleanup_attrs.
  apply (find_first_mapped (target id) (target_shallow id) (target_text id)
           clean_attrs (target_clean_attrs id) [svg]).
Qed.

Lemma attrs_of_cleaned n :
  attrs_of (map_nodes (set_attrs clean_attrs) n) = clean_attrs (attrs_of n) \/
  attrs_of (map_nodes (set_attrs clean_attrs) n) = attrs_of n.
Proof.
  destruct n as [t a k|s]; [left | right; reflexivity].
  now rewrite map_nodes_Elem.
Qed.

Lemma getAttribute_cleaned name n :
  name <> "class" -> name <> "style" ->
  getAttribute name (attrs_of (map_nodes (set_attrs clean_attrs) n)) =
  getAttribute name (attrs_of n).
Proof.
  intros Hc Hs. destruct (attrs_of_cleaned n) as [E | E]; rewrite E;
    [now apply clean_attrs_other | reflexivity].
Qed.

(** *** Reading back a view box of whole numbers *)

Lemma split_runs_plain comma s :
  (forall c, Str.is_sep comma c = true -> Str.has_char c s = false) ->
  forall b, Str.split_runs comma b s = [s].
Proof.
  induction s as [|d s IH]; intros Hs b; [reflexivity|].
  cbn [Str.split_runs].
  destruct (Str.is_sep comma d) eqn:Ed.
  - specialize (Hs d Ed). cbn [Str.has_char] in Hs.
    now rewrite Ascii.eqb_refl in Hs.
  - rewrite IH; [reflexivity|]. intros c Hc. specialize (Hs c Hc).
    cbn [Str.has_char] in Hs. now apply orb_false_elim in Hs.
Qed.

Lemma split_runs_word comma s c rest :
  (forall c, Str.is_sep comma c = true -> Str.has_char c s = false) ->
  s <> EmptyString ->
  Str.is_sep comma c = true ->
  forall b, Str.split_runs comma b (s +++ String c rest) =
            s :: Str.split_runs comma true rest.
Proof.
  intros Hs Hne Hc. induction s as [|d s IH]; [congruence|]. intro b.
  cbn [String.append Str.split_runs].
  assert (Ed : Str.is_sep comma d = false).
  { destruct (Str.is_sep comma d) eqn:Ed; [|reflexivity].
    specialize (Hs d Ed). cbn [Str.has_char] in Hs.
    now rewrite Ascii.eqb_refl in Hs. }
  rewrite Ed.
  destruct s as [|e s].
  - cbn [String.append Str.split_runs]. now rewrite Hc.
  - rewrite IH; [reflexivity | | discriminate].
    intros x Hx. specialize (Hs x Hx). cbn [Str.has_char] in Hs |- *.
    now apply orb_false_elim in Hs.
Qed.

Lemma separator_cases c :
  Str.is_sep true c = true -> Str.has_char c "0123456789-" = false.
Proof.
  destruct c as [[] [] [] [] [] [] [] []]; try discriminate; reflexivity.
Qed.

Lemma number_has_no_separator z c :
  Str.is_sep true c = true -> Str.has_char c (Num.toString (Num.of_Z z)) = false.
Proof.
  intro Hc. apply separator_cases in Hc.
  assert (Hd : Str.has_char c "0123456789" = false).
  { cbn [Str.has_char] in Hc |- *.
    repeat match type of Hc with
           | (_ || _) = false => apply orb_false_elim in Hc as [?E Hc]
           end.
    repeat (apply orb_false_intro; [assumption|]). reflexivity. }
  assert (Hm : Ascii.eqb "-" c = false).
  { cbn [Str.has_char] in Hc.
    repeat match type of Hc with
           | (_ || _) = false => apply orb_false_elim in Hc as [?E Hc]
           end.
    assumption. }
  rewrite NumberFacts.toString_of_Z. destruct z as [|p|p].
  - cbn [Str.has_char] in Hd |- *. now apply orb_false_elim in Hd as [-> _].
  - now apply NumFacts.string_of_N_digits_only.
  - cbn [String.append Str.has_char]. rewrite Hm.
    now apply NumFacts.string_of_N_digits_only.
Qed.

Lemma trimEnd_plain s :
  (forall c, Str.is_space c = true -> Str.has_char c s = false) ->
  Str.trimEnd s = s.
Proof.
  induction s as [|d s IH]; intro Hs; [reflexivity|]. cbn [Str.trimEnd].
  rewrite IH.
  - destruct s; [|reflexivity].
    destruct (Str.is_space d) eqn:Ed; [|reflexivity].
    specialize (Hs d Ed). cbn [Str.has_char] in Hs.
    now rewrite Ascii.eqb_refl in Hs.
  - intros c Hc. specialize (Hs c Hc). cbn [Str.has_char] in Hs.
    now apply orb_false_elim in Hs.
Qed.

(** [Number] reads back a printed whole number. *)
Lemma Number_toString_of_Z z : Num.Number (Num.toString (Num.of_Z z)) = Num.of_Z z.
Proof.
  unfold Num.Number, Str.trim.
  rewrite NumberFacts.trimStart_toString_of_Z, trimEnd_plain.
  - pose proof (NumFacts.toString_nonempty (Num.of_Z z)) as Hne.
    pose proof (NumberFacts.read_decimal_of_Z z) as Hrd.
    destruct (Num.toString (Num.of_Z z)) as [|d s]; [congruence|].
    now rewrite Hrd.
  - intros c Hc. apply number_has_no_separator.
    unfold Str.is_sep. now rewrite Hc.
Qed.

(** The view box a change of size writes, as the panel's effect reads
    it. *)
Lemma sized_viewBox w h :
  map Num.Number
    (Str.split_space_comma
       ("0 0 " +++ Num.toString (Num.of_Z w) +++ " " +++ Num.toString (Num.of_Z h))) =
  [Num.of_Z 0; Num.of_Z 0; Num.of_Z w; Num.of_Z h].
Proof.
  unfold Str.split_space_comma. cbn [String.append Str.split_runs].
  change (Str.is_sep true "0") with false.
  change (Str.is_sep true " ") with true. cbv iota.
  rewrite split_runs_word, split_runs_plain;
    try (intros c Hc; now apply number_has_no_separator);
    try apply NumFacts.toString_nonempty; try reflexivity.
  cbn [map]. now rewrite !Number_toString_of_Z.
Qed.

Section Handlers.

Variable parse : string -> option node.
Variable serialize : node -> string.

(** X20. In a document that has no element with the id
    [editor-background] and no selection mark, a background colour
    adds one rectangle as the first child of the [svg] element and
    changes nothing else.  On the document so committed, setting the
    background to ['none'] commits the original document again, and
    another colour commits what that colour would have made of the
    original: the rectangle is repainted, not stacked. *)
Theorem background_on_and_off (p : panel) (c : canvasProps) (value t : string)
    (a : attributes) (k : list node) :
  parse (svgContent p) = Some (Elem t a k) ->
  getElementById background_id (Elem t a k) = None ->
  unmarked (Elem t a k) = true ->
  value <> "none" ->
  let rect :=
    Elem "rect" (paint (viewBox_numbers (Elem t a k)) value
                   [("id", background_id)]) [] in
  snd (updateCanvas parse serialize p c bg value) =
    Completed [OnUpdate (serialize (Elem t a (rect :: k)))] /\
  forall (p1 : panel) (c1 : canvasProps),
    parse (svgContent p1) = Some (Elem t a (rect :: k)) ->
    snd (updateCanvas parse serialize p1 c1 bg "none") =
      Completed [OnUpdate (serialize (Elem t a k))] /\
    forall value2, value2 <> "none" ->
      snd (updateCanvas parse serialize p1 c1 bg value2) =
      snd (updateCanvas parse serialize p c bg value2).
Proof.
  intros Hparse Habsent Hclean Hvalue rect.
  assert (Hroot : forall k', target background_id (Elem t a k') = false).
  { intro k'. rewrite (target_shallow _ t a k' k).
    rewrite getElementById_find, find_in_Elem in Habsent.
    now destruct (target background_id (Elem t a k)). }
  assert (Hnew : forall v,
             snd (updateCanvas parse serialize p c bg v) =
             if String.eqb v "none"
             then Completed [OnUpdate (serialize (Elem t a k))]
             else Completed
                    [OnUpdate
                       (serialize
                          (Elem t a
                             (Elem "rect"
                                (paint (viewBox_numbers (Elem t a k)) v
                                   [("id", background_id)]) [] :: k)))]).
  { intro v. unfold updateCanvas. cbn [snd].
    rewrite (modifySvg_trace parse serialize _ _ _ Hparse).
    unfold callback. destruct (String.eqb v "none").
    - rewrite (edit_by_id_absent _ _ _ _ Habsent). cbn [app].
      now rewrite (cleanup_unmarked _ Hclean).
    - rewrite (update_by_id_absent _ _ _ Habsent). cbn [app prepend].
      cbn [set_children children_of]. rewrite cleanup_unmarked; [reflexivity|].
      apply unmarked_prepend; [exact Hclean|].
      unfold unmarked. rewrite elements_Elem. cbn [forallb flat_map].
      rewrite has_class_no_class; [reflexivity|].
      now rewrite paint_other by discriminate. }
  assert (Hrect : target background_id rect = true) by reflexivity.
  split.
  - rewrite Hnew. apply String.eqb_neq in Hvalue. now rewrite Hvalue.
  - intros p1 c1 Hparse1. split.
    + unfold updateCanvas. cbn [snd].
      rewrite (modifySvg_trace parse serialize _ _ _ Hparse1).
      unfold callback. cbn [String.eqb Ascii.eqb Bool.eqb].
      unfold edit_by_id. rewrite Hroot, edit_in_Elem. cbn [edit_from].
      rewrite Hrect. cbn [option_map app].
      now rewrite (cleanup_unmarked _ Hclean).
    + intros value2 Hvalue2. rewrite Hnew.
      apply String.eqb_neq in Hvalue2. rewrite Hvalue2.
      unfold updateCanvas. cbn [snd].
      rewrite (modifySvg_trace parse serialize _ _ _ Hparse1).
      unfold callback. rewrite Hvalue2.
      unfold update_by_id. rewrite Hroot, edit_in_Elem. cbn [edit_from].
      rewrite Hrect. cbn [option_map app].
      change (viewBox_numbers (Elem t a (rect :: k)))
        with (viewBox_numbers (Elem t a k)).
      unfold rect at 1. cbn [set_attrs]. rewrite paint_again.
      rewrite cleanup_unmarked; [reflexivity|].
      apply unmarked_prepend; [exact Hclean|].
      unfold unmarked. rewrite elements_Elem. cbn [forallb flat_map].
      rewrite has_class_no_class; [reflexivity|].
      now rewrite paint_other by discriminate.
Qed.

(** X21. Whatever the document, a background colour other than
    ['none'] is the colour the panel reads back from the committed
    document; the empty string is read back as ['#ffffff'].  The
    rectangle that carries it is the element the id
    [editor-background] names, an existing one or the new first child
    of the [svg] element. *)
Theorem background_reads_back (c : canvasProps) (value t : string)
    (a : attributes) (k : list node) :
  value <> "none" ->
  exists svg',
    callback c bg value (Elem t a k) = Attached svg' /\
    c_bg (read_canvas (cleanup svg')) =
      (if String.eqb value EmptyString then "#ffffff" else value).
Proof.
  intro Hvalue. apply String.eqb_neq in Hvalue.
  set (vb := viewBox_numbers (Elem t a k)).
  assert (Hread : forall svg' x,
             getElementById background_id svg' =
               Some (set_attrs (paint vb value) x) ->
             is_element x = true ->
             c_bg (read_canvas (cleanup svg')) =
               (if String.eqb value EmptyString then "#ffffff" else value)).
  { intros svg' x Hf Hx. unfold read_canvas.
    destruct (match getAttribute "viewBox" (attrs_of (cleanup svg')) with
              | Some v =>
                  if 4 <=? List.length (map Num.Number (Str.split_space_comma v))
                  then (entry (map Num.Number (Str.split_space_comma v)) 2,
                        entry (map Num.Number (Str.split_space_comma v)) 3)
                  else (Num.parseFloat (attr_or "width" "100" (attrs_of (cleanup svg'))),
                        Num.parseFloat (attr_or "height" "100" (attrs_of (cleanup svg'))))
              | None =>
                  (Num.parseFloat (attr_or "width" "100" (attrs_of (cleanup svg'))),
                   Num.parseFloat (attr_or "height" "100" (attrs_of (cleanup svg'))))
              end) as [w h].
    cbn [c_bg]. rewrite getElementById_cleanup, Hf. cbn [option_map].
    unfold attr_or. rewrite getAttribute_cleaned by discriminate.
    destruct x as [tx ax kx|sx]; [|discriminate]. cbn [set_attrs attrs_of].
    rewrite paint_fill. now destruct value. }
  unfold callback. rewrite Hvalue. fold vb.
  destruct (getElementById background_id (Elem t a k)) as [el|] eqn:Hel.
  - destruct (update_by_id_found background_id (paint vb value) _ el
                (fun t0 a0 k0 => target_paint background_id vb value t0 a0 k0) Hel)
      as (svg' & E & Hf & _).
    rewrite E. exists svg'. split; [reflexivity|].
    destruct (found_is_element _ _ _ Hel) as (te & ae & ke & ->).
    now apply (Hread svg' (Elem te ae ke)).
  - rewrite (update_by_id_absent _ _ _ Hel). eexists. split; [reflexivity|].
    apply (Hread _ (Elem "rect" [("id", background_id)] [])); [|reflexivity].
    cbn [prepend set_children children_of set_attrs].
    rewrite getElementById_find, find_in_Elem.
    rewrite getElementById_find, find_in_Elem in Hel.
    rewrite (target_shallow _ t a _ k).
    destruct (target background_id (Elem t a k)); [discriminate|].
    cbn [find_first find_in]. now rewrite target_paint.
Qed.

(** X22. A whole number typed as the width or the height of the
    canvas, while the other size is a whole number the panel measured,
    is what the panel reads back from the committed document, next to
    the other size: the view box written is [0 0 W H], and the
    [width] and [height] attributes carry the same numbers. *)
Theorem canvas_size_reads_back (c : canvasProps) (value t : string)
    (a : attributes) (k : list node) (n W H : Z) :
  Num.parseFloat value = Num.of_Z n ->
  c_width c = Measured (Num.of_Z W) ->
  c_height c = Measured (Num.of_Z H) ->
  forall key, key <> bg ->
    let W' := match key with width => n | _ => W end in
    let H' := match key with height => n | _ => H end in
    exists a',
      callback c key value (Elem t a k) = Attached (Elem t a' k) /\
      Num.parseFloat (attr_or "width" "100" a') = Num.of_Z W' /\
      Num.parseFloat (attr_or "height" "100" a') = Num.of_Z H' /\
      c_width (read_canvas (cleanup (Elem t a' k))) = Measured (Num.of_Z W') /\
      c_height (read_canvas (cleanup (Elem t a' k))) = Measured (Num.of_Z H').
Proof.
  intros Hn HW HH key Hkey W' H'.
  assert (Hcb : callback c key value (Elem t a k) =
                Attached (Elem t (resize (Num.toString (Num.of_Z W'))
                                    (Num.toString (Num.of_Z H')) a) k)).
  { unfold callback, W', H'. destruct key; [| |congruence];
      rewrite Hn, ?HW, ?HH; reflexivity. }
  clearbody W' H'. eexists. split; [exact Hcb|].
  assert (Hw : attr_or "width" "100"
                 (resize (Num.toString (Num.of_Z W')) (Num.toString (Num.of_Z H')) a) =
               Num.toString (Num.of_Z W')).
  { unfold resize. rewrite NudgeFacts.attr_or_kept by discriminate.
    apply NudgeFacts.attr_or_written. }
  assert (Hh : attr_or "height" "100"
                 (resize (Num.toString (Num.of_Z W')) (Num.toString (Num.of_Z H')) a) =
               Num.toString (Num.of_Z H')).
  { unfold resize. apply NudgeFacts.attr_or_written. }
  rewrite Hw, Hh, !NumberFacts.parseFloat_toString_of_Z.
  split; [reflexivity|]. split; [reflexivity|].
  unfold read_canvas.
  assert (Hvb : getAttribute "viewBox"
                  (attrs_of (cleanup (Elem t (resize (Num.toString (Num.of_Z W'))
                                                (Num.toString (Num.of_Z H')) a) k))) =
                Some ("0 0 " +++ Num.toString (Num.of_Z W') +++ " " +++
                      Num.toString (Num.of_Z H'))).
  { rewrite cleanup_attrs, getAttribute_cleaned by discriminate.
    cbn [attrs_of]. unfold resize.
    rewrite !getAttribute_setAttribute_other by discriminate.
    apply getAttribute_setAttribute_same. }
  rewrite Hvb, sized_viewBox. cbn [List.length Nat.leb entry nth c_width c_height].
  now split.
Qed.

End Handlers.

Lemma background_on_and_off_witness :
  let a := [("viewBox", "0 0 100 60")] in
  let k := [Elem "circle" [("id", "c"); ("r", "5")] []] in
  let p := mkPanel (Xml.write (Elem "svg" a k)) None defaultStyleProps
             defaultShadowProps in
  let rect :=
    Elem "rect" (paint (viewBox_numbers (Elem "svg" a k)) "#112233"
                   [("id", background_id)]) [] in
  (Xml.read (svgContent p) = Some (Elem "svg" a k) /\
   getElementById background_id (Elem "svg" a k) = None /\
   unmarked (Elem "svg" a k) = true /\
   "#112233" <> "none") /\
  (snd (updateCanvas Xml.read Xml.write p initialCanvas bg "#112233") =
     Completed [OnUpdate (Xml.write (Elem "svg" a (rect :: k)))] /\
   forall (p1 : panel) (c1 : canvasProps),
     Xml.read (svgContent p1) = Some (Elem "svg" a (rect :: k)) ->
     snd (updateCanvas Xml.read Xml.write p1 c1 bg "none") =
       Completed [OnUpdate (Xml.write (Elem "svg" a k))] /\
     forall value2, value2 <> "none" ->
       snd (updateCanvas Xml.read Xml.write p1 c1 bg value2) =
       snd (updateCanvas Xml.read Xml.write p initialCanvas bg value2)).
Proof.
  intros a k p rect.
  assert (Hv : "#112233" <> "none") by discriminate.
  split; [repeat split; try reflexivity; exact Hv|].
  exact (background_on_and_off Xml.read Xml.write p initialCanvas "#112233"
           "svg" a k eq_refl eq_refl eq_refl Hv).
Defined.

Lemma background_reads_back_witness :
  let a := [("viewBox", "0 0 100 60")] in
  let k := [Elem "g" [] [Elem "rect" [("id", "editor-background"); ("fill", "red")] []]] in
  "#112233" <> "none" /\
  exists svg',
    callback initialCanvas bg "#112233" (Elem "svg" a k) = Attached svg' /\
    c_bg (read_canvas (cleanup svg')) = "#112233".
Proof.
  intros a k.
  assert (Hv : "#112233" <> "none") by discriminate.
  split; [exact Hv|].
  exact (background_reads_back initialCanvas "#112233" "svg" a k Hv).
Defined.

Lemma canvas_size_reads_back_witness :
  let a := [("viewBox", "0 0 100 100"); ("width", "100px")] in
  (Num.parseFloat "640" = Num.of_Z 640 /\
   c_width initialCanvas = Measured (Num.of_Z 100) /\
   c_height initialCanvas = Measured (Num.of_Z 100) /\
   width <> bg) /\
  exists a',
    callback initialCanvas width "640" (Elem "svg" a []) =
      Attached (Elem "svg" a' []) /\
    Num.parseFloat (attr_or "width" "100" a') = Num.of_Z 640 /\
    Num.parseFloat (attr_or "height" "100" a') = Num.of_Z 100 /\
    c_width (read_canvas (cleanup (Elem "svg" a' []))) = Measured (Num.of_Z 640) /\
    c_height (read_canvas (cleanup (Elem "svg" a' []))) = Measured (Num.of_Z 100).
Proof.
  intro a.
  assert (Hk : width <> bg) by discriminate.
  split; [repeat split; try reflexivity; exact Hk|].
  exact (canvas_size_reads_back initialCanvas "640" "svg" a [] 640 100 100
           eq_refl eq_refl eq_refl width Hk).
Defined.

End CanvasFacts.

(* ================================================================== *)
(** ** Identifiers ([generateUUID])                                    *)
(* ================================================================== *)

Module UuidFacts.
Import Uuid.

Lemma sixteenth_range q : (0 <= q)%Q -> (q < 1)%Q -> (0 <= sixteenth q <= 15)%Z.
Proof.
  intros H0 H1. unfold sixteenth, Gesture.trunc.
  destruct q as [n d]. unfold Qle, Qlt in *. cbn [Qnum Qden Qmult] in *.
  rewrite Z.mul_1_r in H0, H1. rewrite Z.mul_1_l in H1.
  rewrite Pos.mul_1_r.
  assert (Hq : (0 <= Z.quot (n * 16) (Z.pos d) <= 15)%Z).
  { rewrite Z.quot_div_nonneg by lia. split.
    - apply Z.div_pos; lia.
    - assert ((n * 16) / Z.pos d < 16)%Z by (apply Z.div_lt_upper_bound; lia).
      lia. }
  unfold to_int32.
  rewrite Z.mod_small by (change (2 ^ 31)%Z with 2147483648%Z;
                          change (2 ^ 32)%Z with 4294967296%Z; lia).
  lia.
Qed.

Lemma nibble_cases v :
  (0 <= v <= 15)%Z ->
  exists c d,
    toString16 v = String c EmptyString /\
    Str.has_char c "0123456789abcdef" = true /\
    toString16 (Z.lor (Z.land v 3) 8) = String d EmptyString /\
    Str.has_char d "89ab" = true.
Proof.
  intro H.
  assert (E : (v = 0 \/ v = 1 \/ v = 2 \/ v = 3 \/ v = 4 \/ v = 5 \/ v = 6 \/
               v = 7 \/ v = 8 \/ v = 9 \/ v = 10 \/ v = 11 \/ v = 12 \/
               v = 13 \/ v = 14 \/ v = 15)%Z) by lia.
  repeat destruct E as [E | E]; subst v;
    do 2 eexists; repeat split; reflexivity.
Qed.

Lemma replacement_x q :
  (0 <= q)%Q -> (q < 1)%Q ->
  exists c, replacement "x" q = String c EmptyString /\
            Str.has_char c "0123456789abcdef" = true.
Proof.
  intros H0 H1.
  destruct (nibble_cases _ (sixteenth_range q H0 H1)) as (c & d & E & Hc & _).
  exists c. now split.
Qed.

Lemma replacement_y q :
  (0 <= q)%Q -> (q < 1)%Q ->
  exists c, replacement "y" q = String c EmptyString /\
            Str.has_char c "89ab" = true.
Proof.
  intros H0 H1.
  destruct (nibble_cases _ (sixteenth_range q H0 H1)) as (c & d & _ & _ & E & Hd).
  exists d. now split.
Qed.

(** X23. With [Math.random] in its range (at least 0, below 1) the
    identifier is a version-4 UUID as text: 36 characters, hyphens at
    positions 8, 13, 18 and 23, the version digit 4 at position 14, a
    variant digit among 8, 9, a, b at position 19, and lower-case
    hexadecimal digits everywhere else. *)
Theorem generateUUID_is_version_4 (random : nat -> Q) :
  (forall k, (0 <= random k)%Q /\ (random k < 1)%Q) ->
  let u := generateUUID random in
  String.length u = 36 /\
  forall i c, String.get i u = Some c ->
    if (i =? 8) || (i =? 13) || (i =? 18) || (i =? 23) then c = "-"%char
    else if i =? 14 then c = "4"%char
    else if i =? 19 then Str.has_char c "89ab" = true
    else Str.has_char c "0123456789abcdef" = true.
Proof.
  intros Hr u. unfold u, generateUUID.
  cbn [fill Ascii.eqb Bool.eqb orb].
  repeat match goal with
         | |- context [replacement "x" (random ?k)] =>
             let c := fresh "c" in
             let H := fresh "H" in
             destruct (replacement_x (random k) (proj1 (Hr k)) (proj2 (Hr k)))
               as (c & -> & H)
         | |- context [replacement "y" (random ?k)] =>
             let c := fresh "c" in
             let H := fresh "H" in
             destruct (replacement_y (random k) (proj1 (Hr k)) (proj2 (Hr k)))
               as (c & -> & H)
         end.
  cbn [String.append String.length]. split; [reflexivity|].
  intros i ch Hget.
  do 36 (destruct i as [|i];
         [cbn [String.get] in Hget; injection Hget as <-;
          cbn [Nat.eqb orb]; first [reflexivity | assumption]|]).
  cbn [String.get] in Hget. discriminate.
Qed.

Lemma generateUUID_is_version_4_witness :
  (forall k : nat, (0 <= Qmake 5 8)%Q /\ (Qmake 5 8 < 1)%Q) /\
  String.length (generateUUID (fun _ => Qmake 5 8)) = 36 /\
  forall i c, String.get i (generateUUID (fun _ => Qmake 5 8)) = Some c ->
    if (i =? 8) || (i =? 13) || (i =? 18) || (i =? 23) then c = "-"%char
    else if i =? 14 then c = "4"%char
    else if i =? 19 then Str.has_char c "89ab" = true
    else Str.has_char c "0123456789abcdef" = true.
Proof.
  assert (H : forall k : nat,
             (0 <= Qmake 5 8)%Q /\ (Qmake 5 8 < 1)%Q).
  { intro k. split; [discriminate | reflexivity]. }
  split; [exact H|].
  exact (generateUUID_is_version_4 (fun _ => Qmake 5 8) H).
Defined.

End UuidFacts.

(* ================================================================== *)
(** ** Colours for the colour inputs ([toHex])                         *)
(* ================================================================== *)

Module ColourFacts.
Import Colour.

Lemma hex_is_plain n color :
  hex_of_length n color = true ->
  String.eqb color EmptyString || String.eqb color "none"
    || Str.startsWith "url(" color = false.
Proof.
  destruct color as [|c s]; [discriminate|]. unfold hex_of_length.
  destruct c as [[] [] [] [] [] [] [] []]; try discriminate. reflexivity.
Qed.

Lemma toHex_hex6 canvas color :
  hex_of_length 6 color = true -> toHex canvas color = color.
Proof.
  intro H. unfold toHex. now rewrite (hex_is_plain 6 color H), H.
Qed.

(** X24. For the colours [toHex] settles without the canvas (the empty
    string, ['none'], a [url(] reference, [#rrggbb] and [#rgb]) the
    result has the form [#rrggbb] that a colour input accepts, does
    not depend on the browser's canvas, and is left as it is by a
    second [toHex]. *)
Theorem toHex_settles (canvas canvas' : option (string -> string)) (color : string) :
  color = EmptyString \/ color = "none" \/ Str.startsWith "url(" color = true \/
  hex_of_length 6 color = true \/ hex_of_length 3 color = true ->
  hex_of_length 6 (toHex canvas color) = true /\
  toHex canvas' color = toHex canvas color /\
  toHex canvas' (toHex canvas color) = toHex canvas color.
Proof.
  intro H.
  assert (Hblack : forall cv, toHex cv "#000000" = "#000000") by reflexivity.
  destruct H as [-> | [-> | [H | [H | H]]]].
  - repeat split; reflexivity.
  - repeat split; reflexivity.
  - assert (E : forall cv, toHex cv color = "#000000").
    { intro cv. unfold toHex. rewrite H. now rewrite orb_true_r. }
    rewrite !E. now rewrite (Hblack canvas').
  - rewrite !toHex_hex6 by (rewrite ?toHex_hex6; assumption).
    now repeat split.
  - assert (H6 : hex_of_length 6 color = false).
    { destruct color as [|c s]; [discriminate|]. unfold hex_of_length in *.
      destruct c as [[] [] [] [] [] [] [] []]; try discriminate.
      apply andb_prop in H as [Hl _]. apply Nat.eqb_eq in Hl. rewrite Hl.
      reflexivity. }
    assert (E : forall cv,
               toHex cv color =
               match color with
               | String _ (String r (String g (String b _))) =>
                   String "#" (String r (String r (String g (String g
                     (String b (String b EmptyString))))))
               | _ => color
               end).
    { intro cv. unfold toHex. now rewrite (hex_is_plain 3 color H), H6, H. }
    rewrite !E.
    destruct color as [|c [|r [|g [|b [|x s]]]]]; [discriminate|..];
      unfold hex_of_length in H;
      destruct c as [[] [] [] [] [] [] [] []]; try discriminate;
      cbn [String.length Nat.eqb andb all_hex] in H; try discriminate.
    apply andb_prop in H as [Hr H]. apply andb_prop in H as [Hg H].
    apply andb_prop in H as [Hb _].
    assert (H6' : hex_of_length 6
                      (String "#" (String r (String r (String g (String g
                         (String b (String b EmptyString))))))) = true).
    { unfold hex_of_length. cbn [String.length Nat.eqb andb all_hex].
      now rewrite Hr, Hg, Hb. }
    rewrite toHex_hex6 by exact H6'. now repeat split.
Qed.

Lemma toHex_settles_witness :
  ("#1aF" = EmptyString \/ "#1aF" = "none" \/ Str.startsWith "url(" "#1aF" = true \/
   hex_of_length 6 "#1aF" = true \/ hex_of_length 3 "#1aF" = true) /\
  hex_of_length 6 (toHex None "#1aF") = true /\
  toHex (Some (fun c => c)) "#1aF" = toHex None "#1aF" /\
  toHex (Some (fun c => c)) (toHex None "#1aF") = toHex None "#1aF".
Proof.
  assert (H : "#1aF" = EmptyString \/ "#1aF" = "none" \/
              Str.startsWith "url(" "#1aF" = true \/
              hex_of_length 6 "#1aF" = true \/ hex_of_length 3 "#1aF" = true)
    by (do 4 right; reflexivity).
  split; [exact H|].
  exact (toHex_settles None (Some (fun c => c)) "#1aF" H).
Defined.

End ColourFacts.

(* ================================================================== *)
(** ** The answer of the model ([cleanSvgResponse])                    *)
(* ================================================================== *)

Module AnswerFacts.
Import Str Answer StrFacts.

(** *** Slices *)

Lemma take_drop n s : take n s +++ drop n s = s.
Proof.
  revert s. induction n as [|n IH]; intro s; [reflexivity|].
  destruct s as [|c s]; [reflexivity|]. cbn. now rewrite IH.
Qed.

Lemma length_append a b :
  String.length (a +++ b) = String.length a + String.length b.
Proof. induction a as [|c a IH]; cbn; [reflexivity | now rewrite IH]. Qed.

Lemma length_take n s : n <= String.length s -> String.length (take n s) = n.
Proof.
  revert s. induction n as [|n IH]; intros s H; [reflexivity|].
  destruct s as [|c s]; cbn in *; [lia|]. rewrite IH; lia.
Qed.

Lemma drop_length_app a b : drop (String.length a) (a +++ b) = b.
Proof. induction a as [|c a IH]; [now destruct b | exact IH]. Qed.

Lemma take_length_app a b : take (String.length a) (a +++ b) = a.
Proof.
  induction a as [|c a IH]; [now destruct b|]. cbn. now rewrite IH.
Qed.

Lemma take_app_more a b m :
  take (String.length a + m) (a +++ b) = a +++ take m b.
Proof. induction a as [|c a IH]; [reflexivity|]. cbn. now rewrite IH. Qed.

Lemma length_lower s : String.length (toLowerCase s) = String.length s.
Proof. induction s as [|c s IH]; cbn; [reflexivity | now rewrite IH]. Qed.

Lemma lower_take n s : toLowerCase (take n s) = take n (toLowerCase s).
Proof.
  revert s. induction n as [|n IH]; intro s; [now destruct s|].
  destruct s as [|c s]; [reflexivity|]. cbn. now rewrite IH.
Qed.

Lemma lower_drop n s : toLowerCase (drop n s) = drop n (toLowerCase s).
Proof.
  revert s. induction n as [|n IH]; intro s; [now destruct s|].
  destruct s as [|c s]; [reflexivity|]. cbn [drop toLowerCase]. apply IH.
Qed.

Lemma length_prefix p s :
  String.prefix p s = true -> String.length p <= String.length s.
Proof.
  intro H. rewrite (prefix_split p s H), length_append. lia.
Qed.

(** *** Searches *)

Lemma search_sound pat s i :
  search pat s = Some i ->
  at_start true pat (drop i s) = true /\ i <= String.length s.
Proof.
  revert i. induction s as [|c s IH]; intro i; cbn [search].
  - destruct (at_start true pat EmptyString) eqn:E; [|discriminate].
    intros [= <-]. now split.
  - destruct (at_start true pat (String c s)) eqn:E.
    + intros [= <-]. split; [exact E | cbn; lia].
    + destruct (search pat s) as [j|]; [|discriminate].
      intros [= <-]. destruct (IH j eq_refl) as [H1 H2].
      split; [exact H1 | cbn; lia].
Qed.

Lemma lastIndexOf_sound pat s i :
  lastIndexOf pat s = Some i -> String.prefix pat (drop i s) = true.
Proof.
  revert i. induction s as [|c s IH]; intro i; cbn [lastIndexOf].
  - destruct (String.prefix pat EmptyString) eqn:E; [|discriminate].
    now intros [= <-].
  - destruct (lastIndexOf pat s) as [j|].
    + intros [= <-]. now apply IH.
    + destruct (String.prefix pat (String c s)) eqn:E; [|discriminate].
      now intros [= <-].
Qed.

Lemma prefix_within i pat s :
  String.prefix pat (drop i s) = true ->
  pat <> EmptyString ->
  i + String.length pat <= String.length s.
Proof.
  revert s. induction i as [|i IH]; intros s H Hne.
  - apply length_prefix. now destruct s.
  - destruct s as [|c s].
    + cbn [drop] in H. destruct pat; [congruence | discriminate].
    + cbn [drop] in H. specialize (IH s H Hne). cbn. lia.
Qed.

(** *** What trimming leaves alone *)

Lemma trimEnd_part s : exists w, s = trimEnd s +++ w.
Proof.
  induction s as [|c s (w & E)]; [now exists EmptyString|].
  cbn [trimEnd]. destruct (trimEnd s) as [|d r] eqn:Et.
  - destruct (is_space c).
    + exists (String c s). reflexivity.
    + exists w. cbn. now rewrite E at 1.
  - exists w. cbn. now rewrite E at 1.
Qed.

Lemma append_same_length a w :
  String.length (a +++ w) = String.length a -> w = EmptyString.
Proof.
  rewrite length_append. destruct w; [reflexivity | cbn; lia].
Qed.

Lemma trimEnd_closed s body :
  toLowerCase s = body +++ ">" -> trimEnd s = s.
Proof.
  intro H.
  assert (Ht : trimEnd (toLowerCase s) = toLowerCase s).
  { rewrite H. clear H. induction body as [|c b IH]; [reflexivity|].
    cbn [String.append trimEnd]. rewrite IH.
    now destruct b. }
  rewrite trimEnd_lower in Ht.
  destruct (trimEnd_part s) as (w & E).
  assert (Hl : String.length (trimEnd s +++ w) = String.length (trimEnd s)).
  { rewrite <- E, <- (length_lower s), <- Ht. apply length_lower. }
  apply append_same_length in Hl. subst w.
  now rewrite append_empty_r in E.
Qed.

Lemma trimStart_open s rest :
  toLowerCase s = String "<" rest -> trimStart s = s.
Proof.
  intro H. apply trimStart_of_clean.
  destruct s as [|c s]; [reflexivity|]. cbn [toLowerCase] in H.
  injection H as Hc _. cbn [starts_clean].
  rewrite <- lower_char_space, Hc. reflexivity.
Qed.

Lemma drop_drop a b s : drop a (drop b s) = drop (b + a) s.
Proof.
  revert s. induction b as [|b IH]; intro s; [reflexivity|].
  destruct s as [|c s]; [now destruct a|]. cbn [drop Nat.add]. apply IH.
Qed.

Lemma length_drop n s : String.length (drop n s) = String.length s - n.
Proof.
  revert s. induction n as [|n IH]; intro s; [cbn; lia|].
  destruct s as [|c s]; [reflexivity|]. cbn [drop String.length Nat.sub]. apply IH.
Qed.

(** The slice from [start] to the end of a closing tag found at
    [lastEnd], in lower case. *)
Lemma slice_closed l start lastEnd :
  String.prefix "</svg>" (drop lastEnd l) = true ->
  start <= lastEnd ->
  exists body,
    take (lastEnd + 6 - start) (drop start l) = body +++ "</svg>".
Proof.
  intros Hp Hle.
  pose proof (prefix_within lastEnd "</svg>" l Hp ltac:(discriminate)) as Hlen.
  cbn [String.length] in Hlen.
  pose proof (prefix_split _ _ Hp) as Hd. cbn [String.length] in Hd.
  set (R := drop 6 (drop lastEnd l)) in *.
  set (P := take lastEnd l).
  assert (HP : String.length P = lastEnd) by (apply length_take; lia).
  assert (El : l = (take start P +++ drop start P) +++ "</svg>" +++ R).
  { rewrite take_drop. unfold P. rewrite <- Hd. symmetry. apply take_drop. }
  assert (HA : String.length (take start P) = start) by (apply length_take; lia).
  assert (HB : String.length (drop start P) = lastEnd - start)
    by (rewrite length_drop; lia).
  exists (drop start P).
  rewrite El at 1. rewrite append_assoc.
  rewrite <- HA at 2. rewrite drop_length_app.
  replace (lastEnd + 6 - start)
    with (String.length (drop start P +++ "</svg>"))
    by (rewrite length_append, HB; cbn [String.length]; lia).
  rewrite <- append_assoc. apply take_length_app.
Qed.

Lemma slice_open l start n rest :
  drop start l = "<svg" +++ rest ->
  4 <= n ->
  take n (drop start l) = "<svg" +++ take (n - 4) rest.
Proof.
  intros E Hn. rewrite E.
  replace n with (String.length "<svg" + (n - 4)) at 1
    by (cbn [String.length]; lia).
  apply take_app_more.
Qed.

(** X25. When the text left after the fences are removed holds an
    opening [<svg] and, after it, a closing [</svg>], the answer is
    exactly the slice of that text from the first [<svg] to the end of
    the last [</svg>]: it begins with [<svg] and ends with [</svg>]
    (in any case of the letters), and the final trim removes
    nothing.  The text is taken to be ASCII. *)
Theorem cleaned_answer_spans_the_svg (raw : string) (start lastEnd : nat) :
  is_ascii raw = true ->
  raw <> EmptyString ->
  search "<svg" (strip_fences raw) = Some start ->
  lastIndexOf "</svg>" (toLowerCase (strip_fences raw)) = Some lastEnd ->
  start < lastEnd ->
  let text := strip_fences raw in
  let out := cleanSvgResponse (Some raw) in
  text = take start text +++ out +++ drop (lastEnd + 6) text /\
  String.length out = lastEnd + 6 - start /\
  (exists rest, toLowerCase out = "<svg" +++ rest) /\
  (exists body, toLowerCase out = body +++ "</svg>").
Proof.
  intros _ Hraw Hs Hl Hlt text out.
  set (m := take (lastEnd + 6 - start) (drop start text)).
  assert (Hout : out = trim m).
  { unfold out, cleanSvgResponse. destruct raw as [|c raw]; [congruence|].
    fold text. unfold text in *. rewrite Hs, Hl.
    apply Nat.ltb_lt in Hlt. rewrite Hlt. unfold substring.
    assert (Hle : (start <=? lastEnd + 6) = true) by (apply Nat.leb_le; apply Nat.ltb_lt in Hlt; lia).
    now rewrite Hle. }
  destruct (search_sound _ _ _ Hs) as [Hopen Hstart]. fold text in Hopen, Hstart.
  pose proof (lastIndexOf_sound _ _ _ Hl) as Hclose. fold text in Hclose.
  pose proof (prefix_within _ _ _ Hclose ltac:(discriminate)) as Hlen.
  cbn [String.length] in Hlen. rewrite length_lower in Hlen.
  unfold at_start in Hopen.
  change (toLowerCase "<svg") with "<svg" in Hopen.
  rewrite lower_drop in Hopen.
  pose proof (prefix_split _ _ Hopen) as Eopen. cbn [String.length] in Eopen.
  assert (Hm1 : toLowerCase m =
                "<svg" +++ take (lastEnd + 6 - start - 4)
                             (drop 4 (drop start (toLowerCase text)))).
  { unfold m. rewrite lower_take, lower_drop. apply slice_open; [exact Eopen | lia]. }
  destruct (slice_closed (toLowerCase text) start lastEnd Hclose ltac:(lia))
    as (body & Hm2).
  assert (Hm2' : toLowerCase m = body +++ "</svg>")
    by (unfold m; now rewrite lower_take, lower_drop).
  assert (Htrim : trim m = m).
  { unfold trim. rewrite (trimStart_open m _ Hm1).
    apply (trimEnd_closed m (body +++ "</svg")).
    rewrite Hm2', append_assoc. reflexivity. }
  rewrite Hout, Htrim. repeat split.
  - unfold m. rewrite <- (take_drop start text) at 1. f_equal.
    rewrite <- (take_drop (lastEnd + 6 - start) (drop start text)) at 1.
    f_equal. rewrite drop_drop. f_equal. lia.
  - unfold m. apply length_take. rewrite length_drop. lia.
  - eexists. exact Hm1.
  - exists body. exact Hm2'.
Qed.

(** *** Fences *)

Lemma prefix_app pat s b :
  String.prefix pat s = true -> String.prefix pat (s +++ b) = true.
Proof.
  revert s. induction pat as [|c pat IH]; intros s H; [now destruct (s +++ b)|].
  destruct s as [|d s]; [discriminate|]. cbn [String.append String.prefix] in *.
  destruct (Ascii.ascii_dec c d); [now apply IH | discriminate].
Qed.

Lemma includes_app_r pat a s :
  includes pat s = true -> includes pat (a +++ s) = true.
Proof.
  intro H. induction a as [|c a IH]; [exact H|].
  cbn [String.append includes]. rewrite IH. apply orb_true_r.
Qed.

Lemma includes_app_l pat s b :
  includes pat s = true -> includes pat (s +++ b) = true.
Proof.
  induction s as [|c s IH]; intro H.
  - cbn [includes] in H. rewrite orb_false_r in H.
    destruct pat; [now destruct b | discriminate].
  - cbn [String.append includes] in *. apply orb_prop in H as [H | H].
    + change (String c (s +++ b)) with (String c s +++ b).
      now rewrite (prefix_app _ _ b H).
    + rewrite (IH H). apply orb_true_r.
Qed.

(** A text without the pattern has no part with it. *)
Lemma includes_part pat a m b :
  includes pat (a +++ m +++ b) = false -> includes pat m = false.
Proof.
  intro H. destruct (includes pat m) eqn:E; [|reflexivity].
  now rewrite (includes_app_r pat a _ (includes_app_l pat m b E)) in H.
Qed.

Lemma trim_part s : exists a b, s = a +++ trim s +++ b.
Proof.
  destruct (trimStart_split s) as (w & _ & E).
  destruct (trimEnd_part (trimStart s)) as (w' & E').
  exists w, w'. unfold trim. now rewrite <- E', <- E.
Qed.

Lemma includes_trim pat s : includes pat s = false -> includes pat (trim s) = false.
Proof.
  intro H. destruct (trim_part s) as (a & b & E). rewrite E in H.
  now apply includes_part in H.
Qed.

Lemma includes_drop pat n s :
  includes pat s = false -> includes pat (drop n s) = false.
Proof.
  intro H. rewrite <- (take_drop n s), <- (append_empty_r (drop n s)) in H.
  now apply includes_part in H.
Qed.

Lemma includes_take pat n s :
  includes pat s = false -> includes pat (take n s) = false.
Proof.
  intro H. rewrite <- (take_drop n s) in H.
  apply (includes_part pat EmptyString (take n s) (drop n s)). exact H.
Qed.

Lemma includes_other c s :
  c <> "`"%char -> includes fence (String c s) = includes fence s.
Proof.
  intro H. unfold fence. cbn [includes String.prefix].
  destruct (Ascii.ascii_dec "`" c); [congruence | reflexivity].
Qed.

Lemma remove_other c s :
  c <> "`"%char ->
  remove_all false fence 0 (String c s) = String c (remove_all false fence 0 s).
Proof.
  intro H. unfold fence. cbn [remove_all at_start String.prefix].
  destruct (Ascii.ascii_dec "`" c); [congruence | reflexivity].
Qed.

(** The last replacement leaves no fence. *)
Lemma remove_leaves_no_fence n :
  forall s, String.length s <= n ->
            includes fence (remove_all false fence 0 s) = false.
Proof.
  induction n as [|n IH]; intros s Hn.
  - destruct s; [reflexivity | cbn in Hn; lia].
  - destruct s as [|c1 s1]; [reflexivity|]. cbn [String.length] in Hn.
    destruct (Ascii.ascii_dec c1 "`") as [->|H1].
    2:{ rewrite remove_other, includes_other by exact H1. apply IH. lia. }
    destruct s1 as [|c2 s2]; [reflexivity|]. cbn [String.length] in Hn.
    destruct (Ascii.ascii_dec c2 "`") as [->|H2].
    2:{ assert (E : remove_all false fence 0 (String "`" (String c2 s2)) =
                    String "`" (String c2 (remove_all false fence 0 s2))).
        { rewrite <- remove_other by exact H2. unfold fence.
          cbn [remove_all at_start String.prefix].
          destruct (Ascii.ascii_dec "`" "`"); [|congruence].
          destruct (Ascii.ascii_dec "`" c2); [congruence | reflexivity]. }
        rewrite E. unfold fence at 1. cbn [includes String.prefix].
        destruct (Ascii.ascii_dec "`" "`"); [|congruence].
        destruct (Ascii.ascii_dec "`" c2); [congruence|]. cbn [orb].
        fold fence. apply IH. lia. }
    destruct s2 as [|c3 s3]; [reflexivity|]. cbn [String.length] in Hn.
    destruct (Ascii.ascii_dec c3 "`") as [->|H3].
    2:{ assert (E : remove_all false fence 0
                      (String "`" (String "`" (String c3 s3))) =
                    String "`" (String "`"
                      (String c3 (remove_all false fence 0 s3)))).
        { rewrite <- remove_other by exact H3. unfold fence.
          cbn [remove_all at_start String.prefix].
          destruct (Ascii.ascii_dec "`" "`"); [|congruence].
          destruct (Ascii.ascii_dec "`" c3); [congruence | reflexivity]. }
        rewrite E. unfold fence at 1. cbn [includes String.prefix].
        destruct (Ascii.ascii_dec "`" "`"); [|congruence].
        destruct (Ascii.ascii_dec "`" c3); [congruence|]. cbn [orb].
        fold fence. apply IH. lia. }
    assert (E : remove_all false fence 0
                  (String "`" (String "`" (String "`" s3))) =
                remove_all false fence 0 s3).
    { destruct s3; reflexivity. }
    rewrite E. apply IH. lia.
Qed.

Lemma strip_leaves_no_fence raw : includes fence (strip_fences raw) = false.
Proof. unfold strip_fences. now apply (remove_leaves_no_fence _ _ (le_n _)). Qed.

(** X26. The answer never holds a Markdown fence: whatever the text
    of the model, three backquotes in a row do not occur in what
    [cleanSvgResponse] returns.  The text is taken to be ASCII. *)
Theorem cleaned_answer_has_no_fence (raw : string) :
  is_ascii raw = true ->
  includes fence (cleanSvgResponse (Some raw)) = false.
Proof.
  intros _. unfold cleanSvgResponse.
  destruct raw as [|c raw]; [reflexivity|].
  pose proof (strip_leaves_no_fence (String c raw)) as H.
  destruct (search "<svg" (strip_fences (String c raw))) as [start|];
    [|now apply includes_trim].
  destruct (lastIndexOf "</svg>" (toLowerCase (strip_fences (String c raw))))
    as [lastEnd|]; [|now apply includes_trim, includes_drop].
  destruct (start <? lastEnd); [|now apply includes_trim, includes_drop].
  apply includes_trim. unfold substring.
  destruct (start <=? lastEnd + 6); now apply includes_take, includes_drop.
Qed.

Lemma cleaned_answer_spans_the_svg_witness :
  let raw := "Sure: ```xml <SVG viewBox='0 0 4 4'><g/></svg> ``` done" in
  let text := strip_fences raw in
  let out := cleanSvgResponse (Some raw) in
  (is_ascii raw = true /\
   raw <> EmptyString /\
   search "<svg" (strip_fences raw) = Some 7 /\
   lastIndexOf "</svg>" (toLowerCase (strip_fences raw)) = Some 34 /\
   7 < 34) /\
  text = take 7 text +++ out +++ drop (34 + 6) text /\
  String.length out = 34 + 6 - 7 /\
  (exists rest, toLowerCase out = "<svg" +++ rest) /\
  (exists body, toLowerCase out = body +++ "</svg>").
Proof.
  intros raw text out.
  assert (Hne : raw <> EmptyString) by discriminate.
  assert (Hlt : 7 < 34) by lia.
  split; [repeat split; try reflexivity; assumption|].
  exact (cleaned_answer_spans_the_svg raw 7 34 eq_refl Hne eq_refl eq_refl Hlt).
Defined.

Lemma cleaned_answer_has_no_fence_witness :
  let raw := "``````xmlxml<svg></svg>" in
  is_ascii raw = true /\
  includes fence (cleanSvgResponse (Some raw)) = false.
Proof.
  intro raw. split; [reflexivity|].
  exact (cleaned_answer_has_no_fence raw eq_refl).
Defined.

End AnswerFacts.

(* ================================================================== *)
(** ** The panel's fields after an edit ([updateStyle] and the effect) *)
(* ================================================================== *)

Module PanelFacts.
Import Dom Editor Panel DomFacts StrFacts ReadBackFacts NudgeFacts NumberFacts.

Lemma attr_or_cleaned name d a :
  name <> "class" -> name <> "style" ->
  attr_or name d (clean_attrs a) = attr_or name d a.
Proof. intros Hc Hs. unfold attr_or. now rewrite clean_attrs_other. Qed.

Lemma attr_or_typed name d v a :
  attr_or name d (setAttribute name v a) = if String.eqb v EmptyString then d else v.
Proof.
  unfold attr_or. rewrite getAttribute_setAttribute_same. now destruct v.
Qed.

(** What the panel shows of a position after [updateStyle] has written
    it, in terms of the text typed. *)
Lemma position_shown (key v t : string) (newProps : styleProps)
    (shadow : shadowProps) (a : attributes) (k : list node) :
  key = "x" \/ key = "y" ->
  let el' := clean_node (update_element key (VStr v) newProps shadow (Elem t a k)) in
  let typed :=
    Num.toFixed 1 (Num.parseFloat (if String.eqb v EmptyString then "0" else v)) in
  if mem (Str.toLowerCase t) ["circle"; "ellipse"; "rect"; "text"; "image"] then
    read_position el' =
      if String.eqb key "x" then (typed, snd (read_position (Elem t a k)))
      else (fst (read_position (Elem t a k)), typed)
  else read_position el' = ("0.0", "0.0").
Proof.
  intros Hkey el' typed. unfold el', typed. rewrite clean_node_attrs.
  unfold update_element, read_position. cbn [tagName attrs_of as_string].
  set (tag := Str.toLowerCase t).
  assert (Hk : String.eqb key "textContent" = false /\
               String.eqb key "x" || String.eqb key "y" = true)
    by (destruct Hkey as [-> | ->]; now split).
  destruct Hk as [Hk1 Hk2]. rewrite Hk1, Hk2.
  unfold mem. cbn [existsb].
  destruct (String.eqb tag "circle") eqn:E1;
    [|destruct (String.eqb tag "ellipse") eqn:E2;
      [|destruct (String.eqb tag "rect") eqn:E3;
        [|destruct (String.eqb tag "text") eqn:E4;
          [|destruct (String.eqb tag "image") eqn:E5]]]];
    cbn [orb set_attrs tagName attrs_of]; fold tag;
    rewrite ?E1, ?E2, ?E3, ?E4, ?E5; cbn [orb];
    try (destruct Hkey as [-> | ->]; cbn [String.eqb Ascii.eqb Bool.eqb fst snd];
         rewrite !attr_or_cleaned by discriminate;
         rewrite ?attr_or_typed, ?attr_or_kept by discriminate;
         reflexivity).
  reflexivity.
Qed.

Lemma string_of_N_0 : Num.string_of_N 0 = "0".
Proof. reflexivity. Qed.

(** A whole number is shown with one decimal as its digits and [.0]. *)
Lemma toFixed_of_Z z :
  Num.toFixed 1 (Num.of_Z z) = Num.toString (Num.of_Z z) +++ ".0".
Proof.
  unfold Num.toFixed, Num.toString, Num.of_Z, inject_Z.
  cbn [Qnum Qden].
  set (num := Z.to_N (Z.abs z)).
  change (N.pos (Num.pow10 1)) with 10%N.
  assert (E : ((2 * num * 10 + 1) / (2 * 1) = 10 * num)%N).
  { symmetry. apply (N.div_unique _ (2 * 1) (10 * num) 1); lia. }
  rewrite E.
  assert (Ed : (10 * num / 10 = num)%N).
  { rewrite N.mul_comm. apply N.div_mul. discriminate. }
  assert (Em : ((10 * num) mod 10 = 0)%N).
  { rewrite N.mul_comm. apply N.Div0.mod_mul. }
  rewrite Ed, Em, string_of_N_0. cbn [String.length Nat.sub Num.zeros].
  change ("." +++ "" +++ "0") with ".0".
  unfold Num.unsigned_string. change (N.pos 1) with 1%N.
  destruct z as [|q|q]; cbn [Z.ltb Z.compare]; unfold num; cbn [Z.abs Z.to_N].
  - reflexivity.
  - rewrite N.div_1_r, N.mod_1_r. reflexivity.
  - rewrite N.div_1_r, N.mod_1_r. cbn [N.eqb]. now rewrite append_assoc.
Qed.

Lemma toString_of_Z_nonempty z :
  String.eqb (Num.toString (Num.of_Z z)) EmptyString = false.
Proof.
  rewrite toString_of_Z. destruct z as [|q|q]; try reflexivity.
  destruct (string_of_N_first (Npos q)) as (c & s & d & E & _). now rewrite E.
Qed.

(** X27. A whole number typed into a position field of the panel, one
    the number format holds exactly, is the position the panel shows
    after the update, for the five kinds of element it reads a position
    from: [x] and [y] go to [cx] and [cy] of a circle or an ellipse and
    to [x] and [y] of a rect, a text or an image, and are read from
    there, shown with one decimal, the digits typed followed by [.0];
    the other coordinate is shown as before.  For every other element
    the panel shows 0.0 for both, whatever was typed. *)
Theorem position_reads_back (key t : string) (z : Z) (newProps : styleProps)
    (shadow : shadowProps) (a : attributes) (k : list node) :
  key = "x" \/ key = "y" ->
  (Z.abs z <= 9007199254740992)%Z ->
  let v := Num.toString (Num.of_Z z) in
  let el' := clean_node (update_element key (VStr v) newProps shadow (Elem t a k)) in
  let typed := v +++ ".0" in
  if mem (Str.toLowerCase t) ["circle"; "ellipse"; "rect"; "text"; "image"] then
    read_position el' =
      if String.eqb key "x" then (typed, snd (read_position (Elem t a k)))
      else (fst (read_position (Elem t a k)), typed)
  else read_position el' = ("0.0", "0.0").
Proof.
  intros Hkey _ v el' typed.
  pose proof (position_shown key v t newProps shadow a k Hkey) as H.
  cbv zeta in H.
  assert (Ht : Num.toFixed 1
                 (Num.parseFloat (if String.eqb v EmptyString then "0" else v)) =
               typed).
  { unfold typed, v.
    now rewrite toString_of_Z_nonempty, parseFloat_toString_of_Z, toFixed_of_Z. }
  rewrite Ht in H. exact H.
Qed.

Lemma position_reads_back_witness :
  let a := [("id", "c"); ("cx", "40"); ("cy", "-5"); ("r", "3")] in
  (("x" = "x" \/ "x" = "y") /\ (Z.abs 12 <= 9007199254740992)%Z) /\
  read_position
    (clean_node (update_element "x" (VStr "12") defaultStyleProps
                   defaultShadowProps (Elem "circle" a []))) =
    ("12.0", snd (read_position (Elem "circle" a []))).
Proof.
  intro a.
  assert (Hz : (Z.abs 12 <= 9007199254740992)%Z) by (cbn; lia).
  split; [split; [left; reflexivity | exact Hz]|].
  exact (position_reads_back "x" "circle" 12 defaultStyleProps
           defaultShadowProps a [] (or_introl eq_refl) Hz).
Defined.

End PanelFacts.

(* ================================================================== *)
(** ** Blend mode and filters switched on and off ([updateStyle])      *)
(* ================================================================== *)

Module ToggleFacts.
Import Str Dom Editor DomFacts StrFacts NumFacts AnswerFacts.

(** A literal without a blank cannot run across a blank. *)
Lemma prefix_before_blank p a rest :
  has_char " " p = false ->
  String.prefix p (a +++ String " " rest) = true ->
  String.prefix p a = true.
Proof.
  revert a. induction p as [|x p IH]; intros a Hp H; [now destruct a|].
  cbn [has_char] in Hp. apply orb_false_elim in Hp as [Hx Hp].
  destruct a as [|y a]; cbn [String.append String.prefix] in *.
  - destruct (Ascii.ascii_dec x " ") as [->|]; [discriminate | discriminate].
  - destruct (Ascii.ascii_dec x y); [now apply IH | discriminate].
Qed.

Lemma decl_here_prefix name s :
  decl_here name s = true -> String.prefix (name +++ ":") s = true.
Proof. unfold decl_here. intro H. now apply andb_prop in H. Qed.

Lemma includes_head pat c s :
  includes pat (String c s) = false ->
  String.prefix pat (String c s) = false /\ includes pat s = false.
Proof. cbn [includes]. intro H. now apply orb_false_elim in H. Qed.

(** Without the literal [NAME:] nothing is removed. *)
Lemma remove_decl_absent name s :
  includes (name +++ ":") s = false -> remove_decl name s = s.
Proof.
  unfold remove_decl. induction s as [|c s IH]; intro H; [reflexivity|].
  apply includes_head in H as [Hp Hs]. cbn [remove_decl_from].
  destruct (decl_here name (String c s)) eqn:E.
  - apply decl_here_prefix in E. congruence.
  - now rewrite IH.
Qed.

Lemma keyword_skipped name u c w :
  remove_decl_from name (Keyword (String.length u)) (u +++ String c w) =
  remove_decl_from name Value w.
Proof. induction u as [|d u IH]; [reflexivity | exact IH]. Qed.

Lemma value_skipped name v w :
  has_char ";" v = false ->
  remove_decl_from name Value (v +++ String ";" w) = remove_decl_from name Copy w.
Proof.
  induction v as [|d v IH]; intro H; [reflexivity|].
  cbn [has_char] in H. apply orb_false_elim in H as [Hd Hv].
  cbn [String.append remove_decl_from]. rewrite Hd. now apply IH.
Qed.

Lemma has_char_colon_space name : has_char " " name = false ->
  has_char " " (name +++ ":") = false.
Proof. intro H. now rewrite has_char_app, H. Qed.

Lemma prefix_refl p : String.prefix p p = true.
Proof.
  induction p as [|c p IH]; [reflexivity|]. cbn [String.prefix].
  destruct (Ascii.ascii_dec c c); [exact IH | congruence].
Qed.

Lemma keyword_shape name :
  exists h u, name +++ ":" = String h u /\ String.length u = String.length name.
Proof.
  destruct name as [|n0 name].
  - now exists ":"%char, EmptyString.
  - exists n0, (name +++ ":"). split; [reflexivity|].
    rewrite length_append. cbn. lia.
Qed.

(** The declaration alone is removed whole. *)
Lemma remove_declaration name v :
  has_char ";" v = false ->
  remove_decl_from name Copy ((name +++ ":") +++ String " " (v +++ ";")) =
  EmptyString.
Proof.
  intro Hv.
  assert (Hd : decl_here name ((name +++ ":") +++ String " " (v +++ ";")) = true).
  { unfold decl_here.
    rewrite (prefix_app _ _ _ (prefix_refl (name +++ ":"))).
    replace (String.length name + 1) with (String.length (name +++ ":"))
      by (rewrite length_append; reflexivity).
    now rewrite drop_length_app. }
  destruct (keyword_shape name) as (h & u & E & Hu).
  rewrite E in *. cbn [String.append remove_decl_from].
  cbn [String.append] in Hd. rewrite Hd, <- Hu, keyword_skipped.
  change (v +++ ";") with (v +++ String ";" EmptyString).
  now rewrite value_skipped.
Qed.

(** The declaration the panel appends is the one its next edit
    removes. *)
Lemma remove_decl_appended name a v :
  includes (name +++ ":") a = false ->
  has_char " " name = false ->
  has_char ";" v = false ->
  remove_decl name (a +++ " " +++ name +++ ": " +++ v +++ ";") = a +++ " ".
Proof.
  intros Ha Hn Hv. unfold remove_decl.
  assert (Et : " " +++ name +++ ": " +++ v +++ ";" =
               String " " ((name +++ ":") +++ String " " (v +++ ";")))
    by (cbn [String.append]; now rewrite append_assoc).
  rewrite Et. clear Et.
  set (T := (name +++ ":") +++ String " " (v +++ ";")).
  induction a as [|c a IH].
  - cbn [String.append remove_decl_from].
    assert (E0 : decl_here name (String " " T) = false).
    { destruct (decl_here name (String " " T)) eqn:E; [|reflexivity].
      apply decl_here_prefix in E.
      apply (prefix_before_blank _ EmptyString) in E;
        [|now apply has_char_colon_space].
      destruct name; discriminate. }
    rewrite E0. unfold T. now rewrite remove_declaration.
  - apply includes_head in Ha as [Hp Hs].
    cbn [String.append remove_decl_from].
    assert (E0 : decl_here name (String c (a +++ String " " T)) = false).
    { destruct (decl_here name (String c (a +++ String " " T))) eqn:E;
        [|reflexivity].
      apply decl_here_prefix in E.
      apply (prefix_before_blank _ (String c a)) in E;
        [congruence | now apply has_char_colon_space]. }
    rewrite E0. now rewrite IH.
Qed.

Lemma trim_after_blank s : trim (trim s +++ " ") = trim s.
Proof.
  destruct (trim s) as [|c r] eqn:E; [reflexivity|].
  assert (Hc : starts_clean (String c r) = true).
  { rewrite <- E. unfold trim. apply trimEnd_clean, trimStart_clean. }
  unfold trim at 1.
  rewrite (trimStart_of_clean (String c r +++ " ")) by exact Hc.
  rewrite trimEnd_app_blank by reflexivity.
  rewrite <- E. unfold trim. apply trimEnd_idem.
Qed.

Lemma style_written v a :
  attr_or "style" EmptyString (setAttribute "style" v a) = v.
Proof.
  unfold attr_or. rewrite getAttribute_setAttribute_same. now destruct v.
Qed.

(** The blend-mode branch of [updateStyle]. *)
Lemma blend_branch m props shadow t a k :
  update_element "blendMode" (VStr m) props shadow (Elem t a k) =
  let current :=
    trim (remove_decl "mix-blend-mode" (attr_or "style" EmptyString a)) in
  Elem t (setAttribute "style"
            (if String.eqb m "normal" then current
             else current +++ " mix-blend-mode: " +++ m +++ ";") a) k.
Proof.
  unfold update_element. cbn [String.eqb Ascii.eqb Bool.eqb orb mem existsb
                              paint_keys transform_keys filter_keys
                              tagName attrs_of as_string set_attrs].
  cbv zeta.
  repeat (destruct m as [|[[] [] [] [] [] [] [] []] m]; try reflexivity).
Qed.

(** X28. A blend mode switched on and back to normal leaves the
    inline style as it was, trimmed: for a style that does not hold
    the text [mix-blend-mode:] and a mode without a semicolon, the
    first edit appends the one declaration, the edit back to
    ['normal'] removes exactly that declaration again, and no other
    attribute of the element changes in either step. *)
Theorem blend_mode_on_and_off (m t : string) (a : attributes) (k : list node)
    (props1 props2 : styleProps) (shadow1 shadow2 : shadowProps) :
  includes "mix-blend-mode:" (attr_or "style" EmptyString a) = false ->
  has_char ";" m = false ->
  m <> "normal" ->
  let s := attr_or "style" EmptyString a in
  let el1 := update_element "blendMode" (VStr m) props1 shadow1 (Elem t a k) in
  let el2 := update_element "blendMode" (VStr "normal") props2 shadow2 el1 in
  exists a1 a2,
    el1 = Elem t a1 k /\ el2 = Elem t a2 k /\
    getAttribute "style" a1 = Some (trim s +++ " mix-blend-mode: " +++ m +++ ";") /\
    getAttribute "style" a2 = Some (trim s) /\
    (forall name, name <> "style" ->
                  getAttribute name a1 = getAttribute name a /\
                  getAttribute name a2 = getAttribute name a).
Proof.
  intros Hs Hm Hn s el1 el2. unfold el2, el1. rewrite !blend_branch. cbv zeta.
  fold s. apply String.eqb_neq in Hn. rewrite Hn.
  cbn [String.eqb Ascii.eqb Bool.eqb].
  rewrite style_written, (remove_decl_absent "mix-blend-mode" s Hs).
  assert (Er : trim (remove_decl "mix-blend-mode"
                       (trim s +++ " mix-blend-mode: " +++ m +++ ";")) = trim s).
  { change (trim s +++ " mix-blend-mode: " +++ m +++ ";")
      with (trim s +++ " " +++ "mix-blend-mode" +++ ": " +++ m +++ ";").
    rewrite remove_decl_appended, trim_after_blank;
      [reflexivity | now apply includes_trim | reflexivity | exact Hm]. }
  rewrite Er.
  do 2 eexists. split; [reflexivity|]. split; [reflexivity|].
  split; [apply getAttribute_setAttribute_same|].
  split; [apply getAttribute_setAttribute_same|].
  intros name Hname. now rewrite !getAttribute_setAttribute_other by congruence.
Qed.

Lemma blend_mode_on_and_off_witness :
  let a := [("id", "r"); ("style", " fill: red; opacity: 0.5 ")] in
  (includes "mix-blend-mode:" (attr_or "style" EmptyString a) = false /\
   has_char ";" "multiply" = false /\
   "multiply" <> "normal") /\
  exists a1 a2,
    update_element "blendMode" (VStr "multiply") defaultStyleProps
      defaultShadowProps (Elem "rect" a []) = Elem "rect" a1 [] /\
    update_element "blendMode" (VStr "normal") defaultStyleProps
      defaultShadowProps
      (update_element "blendMode" (VStr "multiply") defaultStyleProps
         defaultShadowProps (Elem "rect" a [])) = Elem "rect" a2 [] /\
    getAttribute "style" a1 =
      Some (trim (attr_or "style" EmptyString a) +++ " mix-blend-mode: " +++
            "multiply" +++ ";") /\
    getAttribute "style" a2 = Some (trim (attr_or "style" EmptyString a)) /\
    (forall name, name <> "style" ->
                  getAttribute name a1 = getAttribute name a /\
                  getAttribute name a2 = getAttribute name a).
Proof.
  intro a.
  assert (Hn : "multiply" <> "normal") by discriminate.
  split; [repeat split; try reflexivity; exact Hn|].
  exact (blend_mode_on_and_off "multiply" "rect" a [] defaultStyleProps
           defaultStyleProps defaultShadowProps defaultShadowProps
           eq_refl eq_refl Hn).
Defined.

(** The filter branch of [updateStyle]. *)
Lemma filter_branch key v props shadow t a k :
  mem key filter_keys = true ->
  update_element key v props shadow (Elem t a k) =
  let current := trim (remove_decl "filter" (attr_or "style" EmptyString a)) in
  Elem t (setAttribute "style"
            (match filter_list props shadow with
             | [] => current
             | _ => current +++ " filter: " +++
                    join " " (filter_list props shadow) +++ ";"
             end) a) k.
Proof.
  intro H. unfold mem, filter_keys in H. cbn [existsb] in H.
  repeat (apply orb_prop in H as [H | H];
          [apply String.eqb_eq in H; subst key|]);
    try discriminate;
    unfold update_element;
    cbn [String.eqb Ascii.eqb Bool.eqb orb mem existsb paint_keys
         transform_keys filter_keys tagName attrs_of set_attrs];
    cbv zeta; now destruct (filter_list props shadow).
Qed.

(** X29. Filters switched on and off again leave the inline style as
    it was, trimmed: for a style that does not hold the text
    [filter:], an edit of a filter field that yields at least one
    filter (none of them with a semicolon) appends the one [filter]
    declaration, and a later edit after which no filter is left (all
    fields at their neutral values, no shadow) removes exactly that
    declaration; no other attribute changes in either step. *)
Theorem filters_on_and_off (key1 key2 t : string) (v1 v2 : value)
    (a : attributes) (k : list node)
    (props1 props2 : styleProps) (shadow1 shadow2 : shadowProps) :
  mem key1 filter_keys = true ->
  mem key2 filter_keys = true ->
  includes "filter:" (attr_or "style" EmptyString a) = false ->
  filter_list props1 shadow1 <> [] ->
  has_char ";" (join " " (filter_list props1 shadow1)) = false ->
  filter_list props2 shadow2 = [] ->
  let s := attr_or "style" EmptyString a in
  let el1 := update_element key1 v1 props1 shadow1 (Elem t a k) in
  let el2 := update_element key2 v2 props2 shadow2 el1 in
  exists a1 a2,
    el1 = Elem t a1 k /\ el2 = Elem t a2 k /\
    getAttribute "style" a1 =
      Some (trim s +++ " filter: " +++
            join " " (filter_list props1 shadow1) +++ ";") /\
    getAttribute "style" a2 = Some (trim s) /\
    (forall name, name <> "style" ->
                  getAttribute name a1 = getAttribute name a /\
                  getAttribute name a2 = getAttribute name a).
Proof.
  intros Hk1 Hk2 Hs Hne Hv Hoff s el1 el2. unfold el2, el1.
  rewrite (filter_branch key1 v1 props1 shadow1 t a k Hk1). cbv zeta.
  rewrite (filter_branch key2 v2 props2 shadow2 t _ k Hk2). cbv zeta.
  fold s. rewrite Hoff, style_written, (remove_decl_absent "filter" s Hs).
  set (fs := join " " (filter_list props1 shadow1)) in *.
  destruct (filter_list props1 shadow1) as [|f0 fl] eqn:Ef; [congruence|].
  assert (Er : trim (remove_decl "filter" (trim s +++ " filter: " +++ fs +++ ";")) =
               trim s).
  { change (trim s +++ " filter: " +++ fs +++ ";")
      with (trim s +++ " " +++ "filter" +++ ": " +++ fs +++ ";").
    rewrite remove_decl_appended, trim_after_blank;
      [reflexivity | now apply includes_trim | reflexivity | exact Hv]. }
  rewrite Er.
  do 2 eexists. split; [reflexivity|]. split; [reflexivity|].
  split; [apply getAttribute_setAttribute_same|].
  split; [apply getAttribute_setAttribute_same|].
  intros name Hname. now rewrite !getAttribute_setAttribute_other by congruence.
Qed.

Lemma filters_on_and_off_witness :
  let a := [("id", "r"); ("style", "fill: red;")] in
  let props1 := set_key "blur" (VStr "5") defaultStyleProps in
  (mem "blur" filter_keys = true /\
   mem "blur" filter_keys = true /\
   includes "filter:" (attr_or "style" EmptyString a) = false /\
   filter_list props1 defaultShadowProps <> [] /\
   has_char ";" (join " " (filter_list props1 defaultShadowProps)) = false /\
   filter_list defaultStyleProps defaultShadowProps = []) /\
  exists a1 a2,
    update_element "blur" (VStr "5") props1 defaultShadowProps (Elem "rect" a []) =
      Elem "rect" a1 [] /\
    update_element "blur" (VStr "0") defaultStyleProps defaultShadowProps
      (update_element "blur" (VStr "5") props1 defaultShadowProps
         (Elem "rect" a [])) = Elem "rect" a2 [] /\
    getAttribute "style" a1 =
      Some (trim (attr_or "style" EmptyString a) +++ " filter: " +++
            join " " (filter_list props1 defaultShadowProps) +++ ";") /\
    getAttribute "style" a2 = Some (trim (attr_or "style" EmptyString a)) /\
    (forall name, name <> "style" ->
                  getAttribute name a1 = getAttribute name a /\
                  getAttribute name a2 = getAttribute name a).
Proof.
  intros a props1.
  assert (Hne : filter_list props1 defaultShadowProps <> []) by discriminate.
  split; [repeat split; try reflexivity; exact Hne|].
  exact (filters_on_and_off "blur" "blur" "rect" (VStr "5") (VStr "0") a []
           props1 defaultStyleProps defaultShadowProps defaultShadowProps
           eq_refl eq_refl eq_refl Hne eq_refl eq_refl).
Defined.

End ToggleFacts.
